(** * conduct.util: system calls with streamed output, and chrooted system calls

    A shallow embedding of [systemCall], [mount], [umount],
    [chrootedSystemCall] and [ensureDirectory] of
    [conduct/util/__init__.py], with the properties of the design
    document proved or refuted on it. *)

From Stdlib Require Import ZArith Lia Ascii String.
From stdpp Require Import base option list strings gmap.
From Equations Require Import Equations.
From Equations.Prop Require Import Logic.

Local Open Scope string_scope.
Local Open Scope list_scope.
Local Open Scope Z_scope.

(** ** Python strings *)

Module PyStr.

(** ['\n'] and ['\r']. *)
Definition NL : ascii := Ascii.ascii_of_nat 10.
Definition CR : ascii := Ascii.ascii_of_nat 13.
Definition nl : string := String NL "".
Definition cr : string := String CR "".

(** [c in s] for a one-character [c]. *)
Fixpoint contains (c : ascii) (s : string) : bool :=
  match s with
  | EmptyString => false
  | String a s' => if decide (a = c) then true else contains c s'
  end.

(** [s.partition(c)]: the part before the first [c], the separator, the
    part after it; [(s, '', '')] when [c] does not occur. *)
Fixpoint partition (c : ascii) (s : string) : string * string * string :=
  match s with
  | EmptyString => ("", "", "")
  | String a s' =>
      if decide (a = c) then ("", String c "", s')
      else let '(hd, sep, tl) := partition c s' in (String a hd, sep, tl)
  end.

(** [''.join(l)]. *)
Fixpoint join (l : list string) : string :=
  match l with
  | [] => ""
  | s :: l' => s +:+ join l'
  end.

(** [str(b)] for a bool, as [%s] formats it. *)
Definition str_bool (b : bool) : string := if b then "True" else "False".

Lemma append_nil_l (s : string) : "" +:+ s = s.
Proof. reflexivity. Qed.

Lemma append_cons (a : ascii) (s t : string) :
  String a s +:+ t = String a (s +:+ t).
Proof. reflexivity. Qed.

Lemma append_nil_r (s : string) : s +:+ "" = s.
Proof.
  induction s as [|a s IH]; [done |]. by rewrite append_cons, IH.
Qed.

Lemma append_assoc (s t u : string) : (s +:+ t) +:+ u = s +:+ (t +:+ u).
Proof.
  induction s as [|a s IH]; [done |]. by rewrite !append_cons, IH.
Qed.

Lemma length_append (s t : string) :
  String.length (s +:+ t) = (String.length s + String.length t)%nat.
Proof.
  induction s as [|a s IH]; [done |]. rewrite append_cons. simpl.
  by rewrite IH.
Qed.

Lemma contains_append (c : ascii) (s t : string) :
  contains c (s +:+ t) = contains c s || contains c t.
Proof.
  induction s as [|a s IH]; [done |]. rewrite append_cons. simpl.
  destruct (decide (a = c)); [done | exact IH].
Qed.

Lemma join_app (l1 l2 : list string) : join (l1 ++ l2) = join l1 +:+ join l2.
Proof.
  induction l1 as [|s l1 IH]; simpl; [done |].
  by rewrite IH, append_assoc.
Qed.

(** What [partition] returns when the separator occurs. *)
Lemma partition_found (c : ascii) (s : string) :
  contains c s = true ->
  exists hd tl, partition c s = (hd, String c "", tl)
                /\ s = hd +:+ String c tl /\ contains c hd = false.
Proof.
  induction s as [|a s IH]; simpl; [done |].
  destruct (decide (a = c)) as [->|Hne]; intros H.
  - by exists "", s.
  - destruct (IH H) as (hd & tl & -> & -> & Hhd).
    exists (String a hd), tl. simpl.
    destruct (decide (a = c)); [done |]. done.
Qed.

Lemma partition_missing (c : ascii) (s : string) :
  contains c s = false -> partition c s = (s, "", "").
Proof.
  induction s as [|a s IH]; simpl; [done |].
  destruct (decide (a = c)); [done |]. intros H. by rewrite (IH H).
Qed.

Lemma partition_shorter (c : ascii) (s : string) :
  contains c s = true ->
  (String.length (partition c s).2 < String.length s)%nat.
Proof.
  intros H. destruct (partition_found c s H) as (hd & tl & -> & -> & _).
  simpl. rewrite length_append. simpl. lia.
Qed.

End PyStr.
Import PyStr.

(** ** The line loop of [pollOutput]

    [while '\n' in buf: line, _, buf = buf.partition('\n'); emit(line)],
    for the statements [emit] that the two copies of the loop run on each
    line.  The loop ends because every turn shortens the buffer. *)

Equations? line_loop {S : Type} (emit : string -> S -> S) (buf : string) (st : S)
  : string * S by wf (String.length buf) lt :=
  line_loop emit buf st with inspect (contains NL buf) := {
    | exist _ true Hin => line_loop emit (partition NL buf).2
                         (emit (partition NL buf).1.1 st)
    | exist _ false _ => (buf, st) }.
Proof. by apply partition_shorter. Qed.

Example line_loop_ex :
  line_loop (fun l acc => acc ++ [l]) ("ab" +:+ nl +:+ "c" +:+ nl +:+ "d") []
  = ("d", ["ab"; "c"]).
Proof. reflexivity. Qed.

(** ** Loggers, exceptions, the directory tree *)

Inductive level := DEBUG | INFO | WARNING.

#[global] Instance level_eq_dec : EqDecision level.
Proof. solve_decision. Defined.

(** [conduct.app.log], or a logger handed in as the [log] argument. *)
Inductive logger := AppLog | Logger (name : string).

#[global] Instance logger_eq_dec : EqDecision logger.
Proof. solve_decision. Defined.

Record log_record := LogRecord {
  lr_logger : logger;
  lr_level : level;
  lr_msg : string
}.

(** [CalledProcessError(returncode, cmd, output)]. *)
Record CalledProcessError := {
  returncode : Z;
  cmd : string;
  output : string
}.

(** What the functions raise: [RuntimeError(CalledProcessError(...))] of
    [systemCall], and the [OSError] of [Popen] and [os.makedirs]. *)
Inductive exn :=
| RuntimeError (e : CalledProcessError)
| OSError (msg : string).

Inductive result (A : Type) :=
| Ok (a : A)
| Raise (e : exn).
Arguments Ok {A} a.
Arguments Raise {A} e.

Inductive node := File | Dir.

#[global] Instance node_eq_dec : EqDecision node.
Proof. solve_decision. Defined.

(** The directory tree, keyed by path as the program spells it. *)
Abbreviation filesystem := (gmap string node).

(** ** Child processes as the operating system presents them *)

Inductive fd := FdStdout | FdStderr.

#[global] Instance fd_eq_dec : EqDecision fd.
Proof. solve_decision. Defined.

(** The outcome of one [read(100)] on a non-blocking pipe: data (the
    empty string at end of stream), or [IOError] when nothing is there. *)
Inductive read_result :=
| ReadData (tmp : string)
| ReadIOError.

(** One run of a child: what its pipes deliver to successive reads, what
    successive [poller.poll()] calls report, how many times [proc.poll()]
    still finds it running, its return code and what it did to the
    directory tree.  A pipe whose list is used up is at end of stream and
    a poller whose list is used up reports nothing.  Children that never
    exit, on which [systemCall] loops forever, have no such record. *)
Record behaviour := {
  b_stdout : list read_result;
  b_stderr : list read_result;
  b_poll : list (list fd);
  b_alive : nat;
  b_returncode : Z;
  b_effect : filesystem -> filesystem
}.

Inductive spawn_result :=
| Spawned (b : behaviour)
| SpawnError (msg : string).

(** The calls made to the operating system, in the order made. *)
Inductive os_call :=
| Popen (cmd : string) (sh : bool)
| PollerPoll (fds : list fd)
| Read (f : fd) (r : read_result)
| ProcPoll (status : option Z)
| Makedirs (dirpath : string).

Record world := {
  w_fs : filesystem;
  w_log : list log_record;
  w_history : list os_call
}.

Definition log_to (lg : logger) (lv : level) (msg : string) (w : world) : world :=
  {| w_fs := w_fs w;
     w_log := w_log w ++ [LogRecord lg lv msg];
     w_history := w_history w |}.

Definition called (c : os_call) (w : world) : world :=
  {| w_fs := w_fs w; w_log := w_log w; w_history := w_history w ++ [c] |}.

Definition affected (g : filesystem -> filesystem) (w : world) : world :=
  {| w_fs := g (w_fs w); w_log := w_log w; w_history := w_history w |}.

(** ** Computations that change the world and may raise *)

Definition M (A : Type) : Type := world -> result A * world.

Definition ret {A : Type} (a : A) : M A := fun w => (Ok a, w).

Definition raise {A : Type} (e : exn) : M A := fun w => (Raise e, w).

Definition bind {A B : Type} (c : M A) (k : A -> M B) : M B :=
  fun w => match c w with
           | (Ok a, w') => k a w'
           | (Raise e, w') => (Raise e, w')
           end.

(** [try: body finally: cleanup].  An exception of the cleanup takes the
    place of whatever the body returned or raised. *)
Definition try_finally {A : Type} (body : M A) (cleanup : M unit) : M A :=
  fun w => let '(r, w1) := body w in
           match cleanup w1 with
           | (Ok _, w2) => (r, w2)
           | (Raise e, w2) => (Raise e, w2)
           end.

Notation "x <- c ;; k" := (bind c (fun x => k))
  (at level 100, c at next level, right associativity).
Notation "c ;; k" := (bind c (fun _ => k))
  (at level 100, right associativity).

(** ** [os.path] and [os.makedirs] *)

Module path.

(** [startswith('/')] and [endswith('/')]. *)
Definition startswith_sep (s : string) : bool :=
  match s with String a _ => bool_decide (a = "/"%char) | _ => false end.

Fixpoint endswith_sep (s : string) : bool :=
  match s with
  | EmptyString => false
  | String a EmptyString => bool_decide (a = "/"%char)
  | String _ s' => endswith_sep s'
  end.

(** [posixpath.join(a, *p)]. *)
Fixpoint join (a : string) (p : list string) : string :=
  match p with
  | [] => a
  | b :: p' =>
      if startswith_sep b then join b p'
      else if bool_decide (a = "") || endswith_sep a then join (a +:+ b) p'
      else join (a +:+ "/" +:+ b) p'
  end.

Definition isdir (p : string) (fs : filesystem) : bool :=
  bool_decide (fs !! p = Some Dir).

Definition exists_ (p : string) (fs : filesystem) : bool :=
  bool_decide (is_Some (fs !! p)).

(** The directories above [s], nearest last: the non-empty prefixes of
    [pre +:+ s] that stop before a separator of [s]. *)
Fixpoint parents_from (pre s : string) : list string :=
  match s with
  | EmptyString => []
  | String a s' =>
      (if bool_decide (a = "/"%char) && negb (bool_decide (pre = ""))
       then [pre] else [])
      ++ parents_from (pre +:+ String a "") s'
  end.

Definition parents (p : string) : list string := parents_from "" p.

End path.

(** [os.makedirs(name)]: creates [name] and the directories above it that
    are missing; fails on the empty path, on a name that is taken and
    below a file. *)
Definition makedirs (name : string) : M unit :=
  fun w =>
    let w := called (Makedirs name) w in
    if bool_decide (name = "") then (Raise (OSError "ENOENT"), w)
    else if path.exists_ name (w_fs w) then (Raise (OSError "EEXIST"), w)
    else if existsb (fun d => bool_decide (w_fs w !! d = Some File))
                    (path.parents name)
    then (Raise (OSError "ENOTDIR"), w)
    else (Ok tt,
          affected (fun fs => foldr (fun d m => <[d := Dir]> m) fs
                                    (path.parents name ++ [name])) w).

Example join_ex : path.join "/srv/root" ["dev"; "pts"] = "/srv/root/dev/pts".
Proof. reflexivity. Qed.

Example parents_ex : path.parents "/srv/root/dev" = ["/srv"; "/srv/root"].
Proof. reflexivity. Qed.

(** ** [systemCall] *)

(** The variables of one [systemCall] that [pollOutput] reads and
    writes: the pipes and the poller of [proc], and [out], [outBuf[0]],
    [errBuf[0]]. *)
Record frame := {
  stdout : list read_result;
  stderr : list read_result;
  poller : list (list fd);
  out : list string;
  outBuf : string;
  errBuf : string
}.

Definition with_stdout (pipe : list read_result) (f : frame) : frame :=
  {| stdout := pipe; stderr := stderr f; poller := poller f;
     out := out f; outBuf := outBuf f; errBuf := errBuf f |}.

Definition with_stderr (pipe : list read_result) (f : frame) : frame :=
  {| stdout := stdout f; stderr := pipe; poller := poller f;
     out := out f; outBuf := outBuf f; errBuf := errBuf f |}.

Definition with_poller (p : list (list fd)) (f : frame) : frame :=
  {| stdout := stdout f; stderr := stderr f; poller := p;
     out := out f; outBuf := outBuf f; errBuf := errBuf f |}.

Definition with_out (o : list string) (buf : string) (f : frame) : frame :=
  {| stdout := stdout f; stderr := stderr f; poller := poller f;
     out := o; outBuf := buf; errBuf := errBuf f |}.

Definition with_errBuf (buf : string) (f : frame) : frame :=
  {| stdout := stdout f; stderr := stderr f; poller := poller f;
     out := out f; outBuf := outBuf f; errBuf := buf |}.

(** [removeChars = '\r\n'], which [pollOutput] binds and never uses. *)
Definition removeChars : string := cr +:+ nl.

(** The body of the stdout loop after a read gave [tmp]:
    [outBuf[0] += tmp], then the line loop with [log.debug(line)] and
    [out.append(line + '\n')]. *)
Definition stdout_chunk (log : logger) (tmp : string) (st : frame * world)
  : frame * world :=
  let '(buf, (o, w)) :=
    line_loop (fun line '(o, w) => (o ++ [line +:+ nl], log_to log DEBUG line w))
              (outBuf st.1 +:+ tmp) (out st.1, st.2) in
  (with_out o buf st.1, w).

(** The same for stderr: [errBuf[0] += tmp], then the line loop with
    [log.warning(line)]. *)
Definition stderr_chunk (log : logger) (tmp : string) (st : frame * world)
  : frame * world :=
  let '(buf, w) :=
    line_loop (fun line w => log_to log WARNING line w)
              (errBuf st.1 +:+ tmp) st.2 in
  (with_errBuf buf st.1, w).

(** [while True: try: tmp = pipe.read(100) except IOError: break; ...;
    if not tmp: break] on what the pipe still has to deliver; gives back
    what is left in the pipe. *)
Fixpoint read_loop (which : fd) (chunk : string -> frame * world -> frame * world)
    (pipe : list read_result) (st : frame * world)
  : list read_result * (frame * world) :=
  match pipe with
  | [] =>
      ([], chunk "" (st.1, called (Read which (ReadData "")) st.2))
  | ReadIOError :: pipe' =>
      (pipe', (st.1, called (Read which ReadIOError) st.2))
  | ReadData tmp :: pipe' =>
      let st' := chunk tmp (st.1, called (Read which (ReadData tmp)) st.2) in
      if bool_decide (tmp = "") then (pipe', st')
      else read_loop which chunk pipe' st'
  end.

Definition pollOutput (log : logger) (st : frame * world) : frame * world :=
  (* fds = [entry[0] for entry in poller.poll()] *)
  let fds := hd [] (poller st.1) in
  let st := (with_poller (tl (poller st.1)) st.1, called (PollerPoll fds) st.2) in
  let st :=
    if bool_decide (FdStdout ∈ fds) then
      let '(pipe, (f, w)) :=
        read_loop FdStdout (stdout_chunk log) (stdout st.1) st in
      (with_stdout pipe f, w)
    else st in
  if bool_decide (FdStderr ∈ fds) then
    let '(pipe, (f, w)) :=
      read_loop FdStderr (stderr_chunk log) (stderr st.1) st in
    (with_stderr pipe f, w)
  else st.

(** [while True: pollOutput(); if proc.poll() is not None: break] for a
    child that [proc.poll()] finds running [alive] more times. *)
Fixpoint poll_loop (log : logger) (b : behaviour) (alive : nat)
    (st : frame * world) : frame * world :=
  let st := pollOutput log st in
  match alive with
  | O => (st.1, affected (b_effect b) (called (ProcPoll (Some (b_returncode b))) st.2))
  | S n => poll_loop log b n (st.1, called (ProcPoll None) st.2)
  end.

Definition start (b : behaviour) : frame :=
  {| stdout := b_stdout b; stderr := b_stderr b; poller := b_poll b;
     out := []; outBuf := ""; errBuf := "" |}.

(** ['System call [sh:%s]: %s' % (sh, cmd)], the first line that
    [systemCall] logs. *)
Definition call_banner (cmd : string) (sh : bool) : string :=
  "System call [sh:" +:+ str_bool sh +:+ "]: " +:+ cmd.

(** ['mount %s %s %s' % (flags, dev, mountpoint)]. *)
Definition mount_command (dev mountpoint flags : string) : string :=
  "mount " +:+ flags +:+ " " +:+ dev +:+ " " +:+ mountpoint.

(** ['umount %s %s' % (flags, mountpoint)]. *)
Definition umount_command (mountpoint flags : string) : string :=
  "umount " +:+ flags +:+ " " +:+ mountpoint.

(** ['chroot %s %s' % (chrootDir, cmd)]. *)
Definition chroot_command (chrootDir cmd : string) : string :=
  "chroot " +:+ chrootDir +:+ " " +:+ cmd.

Arguments path.join : simpl never.
Arguments mount_command : simpl never.
Arguments umount_command : simpl never.
Arguments chroot_command : simpl never.
Arguments call_banner : simpl never.

Section Calls.

(** What the operating system makes of [Popen(cmd, shell=sh)], given the
    calls made so far and the directory tree. *)
Variable os : list os_call -> filesystem -> string -> bool -> spawn_result.

(** The state in which [systemCall] leaves its variables, for a child
    that was started. *)
Definition run (log : logger) (b : behaviour) (w : world) : frame * world :=
  (* poll once after the process ended to collect all the missing output *)
  pollOutput log (poll_loop log b (b_alive b) (start b, w)).

Definition systemCall (cmd : string) (sh : bool) (log : option logger)
  : M string :=
  fun w =>
    let log := default AppLog log in
    let w := log_to log DEBUG (call_banner cmd sh) w in
    match os (w_history w) (w_fs w) cmd sh with
    | SpawnError msg => (Raise (OSError msg), called (Popen cmd sh) w)
    | Spawned b =>
        let '(f, w) := run log b (called (Popen cmd sh) w) in
        (* check return code *)
        if bool_decide (b_returncode b ≠ 0) then
          (Raise (RuntimeError {| returncode := b_returncode b;
                                  cmd := cmd;
                                  output := PyStr.join (out f) |}), w)
        else (Ok (PyStr.join (out f)), w)
    end.

Definition ensureDirectory (dirpath : string) : M unit :=
  fun w => if path.isdir dirpath (w_fs w) then (Ok tt, w)
           else makedirs dirpath w.

Definition mount (dev mountpoint flags : string) (log : option logger)
  : M unit :=
  ensureDirectory mountpoint ;;
  systemCall ("mount " +:+ flags +:+ " " +:+ dev +:+ " " +:+ mountpoint)
             true log ;;
  ret tt.

Definition umount (mountpoint flags : string) (log : option logger)
  : M unit :=
  systemCall (umount_command mountpoint flags) true log ;;
  ret tt.

(** The three mounts before the [try]. *)
Definition mount_pseudo_fs (chrootDir : string) : M unit :=
  mount "proc" (path.join chrootDir ["proc"]) "-t proc" None ;;
  mount "/sys" (path.join chrootDir ["sys"]) "--rbind" None ;;
  mount "/dev" (path.join chrootDir ["dev"]) "--rbind" None.

(** The body of the [try]. *)
Definition exec_chrooted (chrootDir cmd : string) (sh : bool) (log : logger)
  : M string :=
  (fun w => (Ok tt, log_to log DEBUG "Execute chrooted command ..." w)) ;;
  systemCall (chroot_command chrootDir cmd) sh (Some log).

(** The unmounts of the [finally]. *)
Definition umount_pseudo_fs (chrootDir : string) : M unit :=
  (fun w =>
     if path.exists_ (path.join chrootDir ["dev"; "pts"]) (w_fs w)
     then umount (path.join chrootDir ["dev"; "pts"]) "-lf" None w
     else (Ok tt, w)) ;;
  (* lazy is ok for pseudo fs *)
  umount (path.join chrootDir ["dev"]) "-lf" None ;;
  umount (path.join chrootDir ["sys"]) "-lf" None ;;
  umount (path.join chrootDir ["proc"]) "-lf" None.

Definition chrootedSystemCall (chrootDir cmd : string) (sh : bool)
    (mountPseudoFs : bool) (log : option logger) : M string :=
  let log := default AppLog log in
  (if mountPseudoFs then mount_pseudo_fs chrootDir else ret tt) ;;
  try_finally
    (exec_chrooted chrootDir cmd sh log)
    (if mountPseudoFs then umount_pseudo_fs chrootDir else ret tt).

End Calls.

(** ** What a call read and logged *)

(** The newline-terminated lines of [s], without their newlines, and what
    follows the last newline. *)
Fixpoint split_lines (s : string) : list string * string :=
  match s with
  | EmptyString => ([], "")
  | String a s' =>
      let '(ls, r) := split_lines s' in
      if decide (a = NL) then ("" :: ls, r)
      else match ls with
           | [] => ([], String a r)
           | l :: ls' => (String a l :: ls', r)
           end
  end.

Definition complete_lines (s : string) : list string := (split_lines s).1.

Definition partial_line (s : string) : string := (split_lines s).2.

(** [line + '\n'] for each line. *)
Definition terminated (ls : list string) : list string :=
  map (fun l => l +:+ nl) ls.

(** The data that the reads of pipe [which] returned, joined. *)
Fixpoint stream_data (which : fd) (h : list os_call) : string :=
  match h with
  | [] => ""
  | Read f (ReadData tmp) :: h' =>
      if decide (f = which) then tmp +:+ stream_data which h'
      else stream_data which h'
  | _ :: h' => stream_data which h'
  end.

(** All that a pipe delivers, joined. *)
Fixpoint pipe_data (pipe : list read_result) : string :=
  match pipe with
  | [] => ""
  | ReadData tmp :: pipe' => tmp +:+ pipe_data pipe'
  | ReadIOError :: pipe' => pipe_data pipe'
  end.

(** The messages that reached logger [lg] at level [lv]. *)
Fixpoint level_msgs (lg : logger) (lv : level) (l : list log_record) : list string :=
  match l with
  | [] => []
  | r :: l' =>
      if decide (lr_logger r = lg /\ lr_level r = lv)
      then lr_msg r :: level_msgs lg lv l'
      else level_msgs lg lv l'
  end.

(** The calls and the log records that [w'] has and an earlier [w] has not. *)
Definition new_calls (w w' : world) : list os_call :=
  drop (length (w_history w)) (w_history w').

Definition new_log (w w' : world) : list log_record :=
  drop (length (w_log w)) (w_log w').

(** The drain passes and exit checks among the calls: every [pollOutput]
    makes one [poller.poll()], every check one [proc.poll()]. *)
Inductive loop_event :=
| DrainPass
| ExitCheck (status : option Z).

Fixpoint loop_events (h : list os_call) : list loop_event :=
  match h with
  | [] => []
  | PollerPoll _ :: h' => DrainPass :: loop_events h'
  | ProcPoll st :: h' => ExitCheck st :: loop_events h'
  | _ :: h' => loop_events h'
  end.

(** The commands started, with their shell flags. *)
Fixpoint spawned (h : list os_call) : list (string * bool) :=
  match h with
  | [] => []
  | Popen c sh :: h' => (c, sh) :: spawned h'
  | _ :: h' => spawned h'
  end.

(** The stdout that a call hands to its caller: the string returned, or
    the [output] of the [CalledProcessError] raised. *)
Definition captured (r : result string) : option string :=
  match r with
  | Ok s => Some s
  | Raise (RuntimeError e) => Some (output e)
  | Raise (OSError _) => None
  end.

(** The commands of the three mounts, in the order made. *)
Definition mount_plan (chrootDir : string) : list (string * bool) :=
  [(mount_command "proc" (path.join chrootDir ["proc"]) "-t proc", true);
   (mount_command "/sys" (path.join chrootDir ["sys"]) "--rbind", true);
   (mount_command "/dev" (path.join chrootDir ["dev"]) "--rbind", true)].

(** The commands of the unmounts, in the order made, with [dev/pts]
    first when [pts] says that it exists. *)
Definition umount_plan (chrootDir : string) (pts : bool) : list (string * bool) :=
  (if pts
   then [(umount_command (path.join chrootDir ["dev"; "pts"]) "-lf", true)]
   else [])
  ++ [(umount_command (path.join chrootDir ["dev"]) "-lf", true);
      (umount_command (path.join chrootDir ["sys"]) "-lf", true);
      (umount_command (path.join chrootDir ["proc"]) "-lf", true)].

(** The three mounts of [chrootedSystemCall], and its unmounts with that
    of [dev/pts] first when [pts] says that it exists, one by one in the
    order of the calls. *)
Definition mount_steps
    (os : list os_call -> filesystem -> string -> bool -> spawn_result)
    (chrootDir : string) : list (M unit) :=
  [mount os "proc" (path.join chrootDir ["proc"]) "-t proc" None;
   mount os "/sys" (path.join chrootDir ["sys"]) "--rbind" None;
   mount os "/dev" (path.join chrootDir ["dev"]) "--rbind" None].

Definition umount_steps
    (os : list os_call -> filesystem -> string -> bool -> spawn_result)
    (chrootDir : string) (pts : bool) : list (M unit) :=
  (if pts
   then [umount os (path.join chrootDir ["dev"; "pts"]) "-lf" None]
   else [])
  ++ [umount os (path.join chrootDir ["dev"]) "-lf" None;
      umount os (path.join chrootDir ["sys"]) "-lf" None;
      umount os (path.join chrootDir ["proc"]) "-lf" None].

(** The world after [steps], run one after the other from [w], when
    none of them raises. *)
Fixpoint succeed (steps : list (M unit)) (w : world) : option world :=
  match steps with
  | [] => Some w
  | s :: steps' =>
      match s w with
      | (Ok _, w') => succeed steps' w'
      | (Raise _, _) => None
      end
  end.

(** Statements one after the other: the first that raises ends them. *)
Fixpoint run_steps (steps : list (M unit)) : M unit :=
  match steps with
  | [] => ret tt
  | s :: steps' => s ;; run_steps steps'
  end.

(** A step that starts the command [c] and no other, or none when it
    raises before that; and a step that starts [c] in any case. *)
Definition starts (s : M unit) (c : string * bool) : Prop :=
  forall w, exists h,
    w_history (s w).2 = w_history w ++ h
    /\ (spawned h = [c] \/ spawned h = [] /\ exists e, (s w).1 = Raise e).

Definition always_starts (s : M unit) (c : string * bool) : Prop :=
  forall w, exists h,
    w_history (s w).2 = w_history w ++ h /\ spawned h = [c].

(** [log.debug(l)] or [log.warning(l)] for each [l] of [ls]. *)
Definition logs (lg : logger) (lv : level) (ls : list string) (w : world) : world :=
  {| w_fs := w_fs w;
     w_log := w_log w ++ map (LogRecord lg lv) ls;
     w_history := w_history w |}.

(** The buffers, [out] and the log against the data read since the
    world had history [h0] and log [l0]. *)
Definition tracks (lg : logger) (h0 : list os_call) (l0 : list log_record)
    (st : frame * world) : Prop :=
  exists h l,
    w_history st.2 = h0 ++ h /\ w_log st.2 = l0 ++ l
    /\ outBuf st.1 = partial_line (stream_data FdStdout h)
    /\ out st.1 = terminated (complete_lines (stream_data FdStdout h))
    /\ errBuf st.1 = partial_line (stream_data FdStderr h)
    /\ level_msgs lg DEBUG l = complete_lines (stream_data FdStdout h)
    /\ level_msgs lg WARNING l = complete_lines (stream_data FdStderr h)
    /\ level_msgs lg INFO l = []
    /\ Forall (fun r => lr_logger r = lg) l
    /\ spawned h = [].

(** A call that is no read of data and starts no process. *)
Definition quiet (c : os_call) : Prop :=
  match c with
  | Popen _ _ | Read _ (ReadData _) => False
  | _ => True
  end.

(** A chunk handler that keeps [tracks] for the pipe it serves. *)
Definition serves (lg : logger) (which : fd)
    (chunk : string -> frame * world -> frame * world) : Prop :=
  forall h0 l0 f w tmp,
    tracks lg h0 l0 (f, w) ->
    tracks lg h0 l0 (chunk tmp (f, called (Read which (ReadData tmp)) w)).

(** ** What the drain passes take from a pipe *)

(** A read that ends a drain pass: an [IOError], or the empty string. *)
Definition stops (r : read_result) : bool :=
  match r with
  | ReadIOError => true
  | ReadData tmp => bool_decide (tmp = "")
  end.

(** The data that one drain pass reads from a pipe, and what the pass
    leaves in the pipe. *)
Fixpoint pass_data (pipe : list read_result) : string :=
  match pipe with
  | [] => ""
  | ReadIOError :: _ => ""
  | ReadData tmp :: pipe' =>
      if bool_decide (tmp = "") then "" else tmp +:+ pass_data pipe'
  end.

Fixpoint pass_rest (pipe : list read_result) : list read_result :=
  match pipe with
  | [] => []
  | ReadIOError :: pipe' => pipe'
  | ReadData tmp :: pipe' =>
      if bool_decide (tmp = "") then pipe' else pass_rest pipe'
  end.

(** The same for [k] passes, one after the other. *)
Fixpoint passes_data (k : nat) (pipe : list read_result) : string :=
  match k with
  | O => ""
  | S k' => pass_data pipe +:+ passes_data k' (pass_rest pipe)
  end.

Fixpoint passes_rest (k : nat) (pipe : list read_result) : list read_result :=
  match k with
  | O => pipe
  | S k' => passes_rest k' (pass_rest pipe)
  end.

(** In how many of the polls the pipe [which] is reported. *)
Fixpoint reports (which : fd) (polls : list (list fd)) : nat :=
  match polls with
  | [] => O
  | fds :: polls' =>
      ((if bool_decide (which ∈ fds) then 1 else 0) + reports which polls')%nat
  end.

(** The polls of a call to a child: one for each time the child is found
    running, one for the time it is found ended, and one after that. *)
Definition polls_of (b : behaviour) : list (list fd) :=
  take (b_alive b + 2) (b_poll b).

(** The pipes of a child and of a frame, by descriptor. *)
Definition pipe_of (which : fd) (b : behaviour) : list read_result :=
  match which with
  | FdStdout => b_stdout b
  | FdStderr => b_stderr b
  end.

Definition pipe_in (which : fd) (f : frame) : list read_result :=
  match which with
  | FdStdout => stdout f
  | FdStderr => stderr f
  end.

(** The reads of a pipe that end a pass while the pipe has more data to
    deliver after them. *)
Fixpoint stalls (pipe : list read_result) : nat :=
  match pipe with
  | [] => O
  | r :: pipe' =>
      ((if stops r && negb (bool_decide (pipe_data pipe' = "")) then 1 else 0)
       + stalls pipe')%nat
  end.

(** What a call read from the pipe [which] of its child: what as many
    passes take as poll reports the pipe in. *)
Definition read_from (which : fd) (b : behaviour) : string :=
  passes_data (reports which (polls_of b)) (pipe_of which b).

(** The passes of a call read the pipe [which] of the child to the end
    of its data: every read that ends a pass before that is made up for
    by a later pass in which poll reports the pipe.  So it is for a
    child that alone writes to its pipes: when it is found ended, all
    that it wrote is in the pipes, and the pass after that reads them to
    the end of the stream. *)
Definition drained (which : fd) (b : behaviour) : Prop :=
  (stalls (pipe_of which b) < reports which (polls_of b))%nat.

(** From [st] to [st'], [n] polls were used, and the pipe [which] went
    through the passes of those that report it. *)
Definition advanced (which : fd) (n : nat) (st st' : frame * world) : Prop :=
  stream_data which (w_history st'.2)
  = stream_data which (w_history st.2)
    +:+ passes_data (reports which (take n (poller st.1))) (pipe_in which st.1)
  /\ pipe_in which st'.1
     = passes_rest (reports which (take n (poller st.1))) (pipe_in which st.1)
  /\ poller st'.1 = drop n (poller st.1).

(** ** Sample children and worlds *)

Module Samples.

(** A world in which something was run and logged before. *)
Definition w0 : world :=
  {| w_fs := {[ "/srv" := Dir ]};
     w_log := [LogRecord AppLog INFO "Analyze current system ..."];
     w_history := [Popen "true" true; PollerPoll []; ProcPoll (Some 0);
                   PollerPoll []] |}.

(** [printf 'a\nb\npartial'; printf 'err\n' 1>&2]: the pipes deliver
    the output in pieces, the last of them after the exit was seen. *)
Definition printer : behaviour :=
  {| b_stdout := [ReadData ("a" +:+ nl +:+ "b"); ReadIOError;
                  ReadData (nl +:+ "par"); ReadData "tial"; ReadData ""];
     b_stderr := [ReadData ("err" +:+ nl); ReadIOError; ReadData ""];
     b_poll := [[FdStdout; FdStderr]; [FdStdout; FdStderr]];
     b_alive := 0;
     b_returncode := 0;
     b_effect := fun fs => fs |}.

(** The same output from a child that ends with return code 3, seen
    running twice before. *)
Definition failing : behaviour :=
  {| b_stdout := b_stdout printer;
     b_stderr := b_stderr printer;
     b_poll := [[FdStderr]; [FdStdout]; []; [FdStdout; FdStderr]];
     b_alive := 2;
     b_returncode := 3;
     b_effect := fun fs => fs |}.

(** A child that writes two lines that end in ['\r\n']. *)
Definition dos : behaviour :=
  {| b_stdout := [ReadData ("one" +:+ cr); ReadData (nl +:+ "two" +:+ cr +:+ nl);
                  ReadData ""];
     b_stderr := [];
     b_poll := [[FdStdout]];
     b_alive := 1;
     b_returncode := 0;
     b_effect := fun fs => fs |}.

(** A child that writes nothing and ends with return code [rc]. *)
Definition silent (rc : Z) : behaviour :=
  {| b_stdout := []; b_stderr := []; b_poll := [];
     b_alive := 0; b_returncode := rc; b_effect := fun fs => fs |}.

(** An operating system under which every command behaves as [b]. *)
Definition always (b : behaviour)
  : list os_call -> filesystem -> string -> bool -> spawn_result :=
  fun _ _ _ _ => Spawned b.

(** An operating system under which the commands of [table] behave as
    it says and every other command is silent and ends with 0. *)
Definition scripted (table : list (string * behaviour))
  : list os_call -> filesystem -> string -> bool -> spawn_result :=
  fun _ _ c _ =>
    Spawned (default (silent 0) (snd <$> find (fun e => bool_decide (e.1 = c)) table)).

(** [mount --rbind /dev /r/dev], after which [/r/dev/pts] is there. *)
Definition mounts_dev : behaviour :=
  {| b_stdout := []; b_stderr := []; b_poll := [];
     b_alive := 0; b_returncode := 0;
     b_effect := fun fs => <["/r/dev/pts" := Dir]> fs |}.

(** The second mount fails. *)
Definition mount_fails := scripted [("mount --rbind /sys /r/sys", silent 32)].

(** Everything goes well, and [/r/dev/pts] comes with [/r/dev]. *)
Definition all_well := scripted [("mount --rbind /dev /r/dev", mounts_dev)].

(** The unmount of [/r/dev] fails. *)
Definition umount_fails := scripted [("umount -lf /r/dev", silent 32)].

(** The chrooted command fails, and then the unmount of [/r/dev]. *)
Definition both_fail :=
  scripted [("chroot /r ls", silent 1); ("umount -lf /r/dev", silent 32)].

(** [echo a; (sleep 1; echo b; sleep 1; echo c; sleep 1; echo d) &]: the
    shell ends after its [echo] and leaves a process behind that still
    writes to the pipe.  Each poll waits for the next line; the shell is
    found running once. *)
Definition late : behaviour :=
  {| b_stdout := [ReadData ("a" +:+ nl); ReadIOError;
                  ReadData ("b" +:+ nl); ReadIOError;
                  ReadData ("c" +:+ nl); ReadIOError;
                  ReadData ("d" +:+ nl); ReadData ""];
     b_stderr := [];
     b_poll := [[FdStdout]; [FdStdout]; [FdStdout]];
     b_alive := 1;
     b_returncode := 0;
     b_effect := fun fs => fs |}.

(** A child that writes lines that end in ['\r\n'] to both pipes. *)
Definition dos_both : behaviour :=
  {| b_stdout := [ReadData ("one" +:+ cr); ReadData (nl +:+ "two" +:+ cr +:+ nl);
                  ReadData ""];
     b_stderr := [ReadData ("oops" +:+ cr +:+ nl); ReadData ""];
     b_poll := [[FdStdout; FdStderr]];
     b_alive := 1;
     b_returncode := 0;
     b_effect := fun fs => fs |}.

(** [/r/dev/pts] comes with [/r/dev], and the unmount of [/r/dev]
    fails. *)
Definition pts_umount_fails :=
  scripted [("mount --rbind /dev /r/dev", mounts_dev);
            ("umount -lf /r/dev", silent 32)].

End Samples.

(** ** Chain names, [logMultipleLines] *)

(** [os.sep] of the POSIX systems that [mount] and [chroot] run on. *)
Definition os_sep : ascii := "/"%char.

(** [s.replace(old, new)] for one-character [old] and [new]. *)
Fixpoint replace (old new : ascii) (s : string) : string :=
  match s with
  | EmptyString => ""
  | String a s' =>
      String (if decide (a = old) then new else a) (replace old new s')
  end.

Definition chainPathToName (path : string) : string :=
  replace os_sep ":"%char path.

Definition chainNameToPath (name : string) : string :=
  replace ":"%char os_sep name.

(** [s.splitlines()] of a [str]: a line ends at ['\n'], at ['\r'] or at
    ['\r\n'] taken as one break; the breaks are dropped, and what follows
    the last break is a line when it is not empty.  [cur] is the line
    begun before [s]. *)
Fixpoint splitlines_from (cur s : string) : list string :=
  match s with
  | EmptyString => if decide (cur = "") then [] else [cur]
  | String a s' =>
      if decide (a = NL) then cur :: splitlines_from "" s'
      else if decide (a = CR) then
        match s' with
        | String b s'' =>
            if decide (b = NL) then cur :: splitlines_from "" s''
            else cur :: splitlines_from "" s'
        | EmptyString => [cur]
        end
      else splitlines_from (cur +:+ String a "") s'
  end.

Definition splitlines (s : string) : list string := splitlines_from "" s.

(** The argument of [logMultipleLines]: a [str], or a list of lines. *)
Inductive str_or_list :=
| OfStr (s : string)
| OfList (l : list string).

(** [for line in lines: logFunc(line)]. *)
Fixpoint for_each_line (logFunc : string -> M unit) (lines : list string)
  : M unit :=
  match lines with
  | [] => ret tt
  | line :: lines' => logFunc line ;; for_each_line logFunc lines'
  end.

(** [conduct.app.log.info]. *)
Definition app_log_info (line : string) : M unit :=
  fun w => (Ok tt, log_to AppLog INFO line w).

Definition logMultipleLines (strOrList : str_or_list)
    (logFunc : option (string -> M unit)) : M unit :=
  let logFunc := default app_log_info logFunc in
  let strOrList :=
    match strOrList with
    | OfStr s => splitlines s
    | OfList l => l
    end in
  for_each_line logFunc strOrList.

Example splitlines_ex :
  splitlines ("a" +:+ nl +:+ nl +:+ "b" +:+ cr +:+ nl +:+ "c" +:+ cr +:+ "d")
  = ["a"; ""; "b"; "c"; "d"]
  /\ splitlines (nl +:+ cr) = [""; ""]
  /\ splitlines "" = [].
Proof. by vm_compute. Qed.

(** A string without a line break. *)
Definition unbroken (s : string) : bool :=
  negb (contains NL s) && negb (contains CR s).

(** The records of [l] that went to logger [lg]. *)
Fixpoint by_logger (lg : logger) (l : list log_record) : list log_record :=
  match l with
  | [] => []
  | r :: l' =>
      if decide (lr_logger r = lg) then r :: by_logger lg l'
      else by_logger lg l'
  end.

(** A computation that only adds records of logger [lg] to the log. *)
Definition logs_as {A : Type} (lg : logger) (c : M A) : Prop :=
  forall w, exists l,
    w_log (c w).2 = w_log w ++ l /\ Forall (fun r => lr_logger r = lg) l.

(** ** [importFromPath] *)

Module PyImport.

(** [s.rsplit(c, 1)]: [s] alone when [c] does not occur in it, else what
    is before and what is after the last [c]. *)
Fixpoint rsplit1 (c : ascii) (s : string) : list string :=
  match s with
  | EmptyString => [""]
  | String a s' =>
      match rsplit1 c s' with
      | [hd; tl] => [String a hd; tl]
      | _ => if decide (a = c) then [""; s'] else [String a s']
      end
  end.

(** [sep.join(l)]. *)
Fixpoint join_with (sep : string) (l : list string) : string :=
  match l with
  | [] => ""
  | [s] => s
  | s :: l' => s +:+ sep +:+ join_with sep l'
  end.

Section ImportFromPath.

(** The objects that modules hold. *)
Variable V : Type.

(** A module: its [__name__] and what [getattr] finds in it. *)
Record module := {
  mod_name : string;
  mod_attrs : gmap string V
}.

(** What [__import__(fullname, {}, {}, fromlist)] does: it returns a
    module, raises [ImportError], or raises something else. *)
Inductive import_result :=
| Imported (m : module)
| ImportFailed (err : string)
| ImportRaised (e : string).

(** What [importFromPath] raises: its own [ImportError]s, the
    [ValueError] of an unpacking, and what [__import__] raises besides
    [ImportError]. *)
Inductive import_exn :=
| ImportError (msg : string)
| ValueError (msg : string)
| Propagated (e : string).

(** What [importFromPath] returns: the module, or the object in it. *)
Inductive imported :=
| TheModule (m : module)
| TheObject (v : V).

(** [__import__], given the imports tried before. *)
Variable importer :
  list (string * list string) -> string -> list string -> import_result.

(** [repr] of a string, for ['%r']. *)
Variable repr : string -> string.

(** The [for] loop over the names to try, with the imports tried so far
    and the errors collected so far: the module found, if any, or what
    [__import__] raised besides [ImportError]. *)
Fixpoint try_imports (fromlist : list string) (names : list string)
    (tried : list (string * list string)) (errors : list string)
  : (string + option module) * list (string * list string) * list string :=
  match names with
  | [] => (inr None, tried, errors)
  | fullname :: names' =>
      match importer tried fullname fromlist with
      | Imported m => (inr (Some m), tried ++ [(fullname, fromlist)], errors)
      | ImportFailed err =>
          try_imports fromlist names' (tried ++ [(fullname, fromlist)])
            (errors ++ ["[" +:+ fullname +:+ "] " +:+ err])
      | ImportRaised e => (inl e, tried ++ [(fullname, fromlist)], errors)
      end
  end.

(** The names that the loop goes through. *)
Definition candidates (modname : string) (prefixes : list string) : list string :=
  [modname] ++ map (fun p => p +:+ modname) prefixes.

(** [importFromPath(import_name, prefixes)], given the imports tried
    before; its [log] argument is bound and never used. *)
Definition importFromPath (import_name : string) (prefixes : list string)
    (tried : list (string * list string))
  : (import_exn + imported) * list (string * list string) :=
  let split :=
    if contains "."%char import_name
    then match rsplit1 "."%char import_name with
         | [modname; obj] => inr (modname, Some obj)
         | _ => inl (ValueError "need more than 1 value to unpack")
         end
    else inr (import_name, None) in
  match split with
  | inl e => (inl e, tried)
  | inr (modname, obj) =>
      let has_obj :=
        match obj with
        | Some o => negb (bool_decide (o = ""))
        | None => false
        end in
      let fromlist := if has_obj then [default "" obj] else [] in
      match try_imports fromlist (candidates modname prefixes) tried [] with
      | (inl e, tried', _) => (inl (Propagated e), tried')
      | (inr None, tried', errors) =>
          (inl (ImportError ("Could not import " +:+ repr import_name +:+ ": "
                             +:+ join_with ", " errors)), tried')
      | (inr (Some m), tried', _) =>
          if has_obj then
            match mod_attrs m !! default "" obj with
            | Some v => (inr (TheObject v), tried')
            | None =>
                (inl (ImportError
                        ("Could not import " +:+ mod_name m +:+ "."
                         +:+ default "" obj +:+ ": 'module' object has no attribute '"
                         +:+ default "" obj +:+ "'")), tried')
            end
          else (inr (TheModule m), tried')
      end
  end.

End ImportFromPath.

Arguments Imported {V} m.
Arguments ImportFailed {V} err.
Arguments ImportRaised {V} e.
Arguments TheModule {V} m.
Arguments TheObject {V} v.
Arguments mod_name {V} m.
Arguments mod_attrs {V} m.

End PyImport.

Example rsplit1_ex :
  PyImport.rsplit1 "."%char "conduct.param.Parameter" = ["conduct.param"; "Parameter"]
  /\ PyImport.rsplit1 "."%char "conduct" = ["conduct"]
  /\ PyImport.rsplit1 "."%char "conduct." = ["conduct"; ""].
Proof. by vm_compute. Qed.

(** ** [loadPyFile], [loadChainDefinition], [loadChainConfig] *)

Module Chains.

(** The objects of a namespace: strings, and objects known by a number
    (classes, functions, the [steps] dictionary and whatever else an
    executed file binds). *)
Inductive pyval :=
| PyString (s : string)
| PyObject (n : nat).

(** The objects that [loadChainDefinition] puts into the namespace of a
    chain file: [Parameter], the [Step] and [Chain] lambdas, and a new
    [OrderedAttrDict]. *)
Definition ParameterClass : pyval := PyObject 0.
Definition StepLambda : pyval := PyObject 1.
Definition ChainLambda : pyval := PyObject 2.
Definition EmptySteps : pyval := PyObject 3.

(** A namespace, and a chain definition: dictionaries with string keys. *)
Abbreviation namespace := (gmap string pyval).

(** What [exec open(path).read() in ns] does: it leaves a namespace, or
    raises. *)
Inductive exec_result :=
| Executed (ns : namespace)
| ExecRaised (e : string).

Inductive load_exn :=
| IOError (msg : string)
| KeyError (key : string)
| Raised (e : string).

(** [app.cfg] as far as the loaders use it, the directory tree, and the
    files executed so far.  Executed files are taken to leave [app.cfg]
    and the directory tree alone. *)
Record loader := {
  cfg_chains : option (gmap string namespace);
  cfg_chaindefdir : option string;
  cfg_chaincfgdir : option string;
  tree : filesystem;
  executed : list string
}.

Definition with_chains (c : gmap string namespace) (st : loader) : loader :=
  {| cfg_chains := Some c;
     cfg_chaindefdir := cfg_chaindefdir st;
     cfg_chaincfgdir := cfg_chaincfgdir st;
     tree := tree st;
     executed := executed st |}.

Definition with_executed (p : string) (st : loader) : loader :=
  {| cfg_chains := cfg_chains st;
     cfg_chaindefdir := cfg_chaindefdir st;
     cfg_chaincfgdir := cfg_chaincfgdir st;
     tree := tree st;
     executed := executed st ++ [p] |}.

(** [path.join(dir, '%s.py' % chainNameToPath(chainName))]. *)
Definition chain_file (dir chainName : string) : string :=
  path.join dir [chainNameToPath chainName +:+ ".py"].

Section Loaders.

(** The executed file, given the files executed before and the tree. *)
Variable exec : list string -> filesystem -> string -> namespace -> exec_result.

Definition loadPyFile (path : string) (ns : option namespace) (st : loader)
  : (load_exn + namespace) * loader :=
  let ns := default ∅ ns in
  let ns := <["__file__" := PyString path]> ns in
  match exec (executed st) (tree st) path ns with
  | ExecRaised e => (inl (Raised e), with_executed path st)
  | Executed ns =>
      (* del ns['__builtins__'] *)
      match ns !! "__builtins__" with
      | None => (inl (KeyError "__builtins__"), with_executed path st)
      | Some _ => (inr (delete "__builtins__" ns), with_executed path st)
      end
  end.

Definition loadChainDefinition (chainName : string) (st : loader)
  : (load_exn + namespace) * loader :=
  (* caching *)
  let st := match cfg_chains st with
            | None => with_chains ∅ st
            | Some _ => st
            end in
  let chains := default ∅ (cfg_chains st) in
  match chains !! chainName with
  | Some chainDef => (inr chainDef, st)
  | None =>
      (* determine chain file location *)
      match cfg_chaindefdir st with
      | None => (inl (KeyError "chaindefdir"), st)
      | Some chainDir =>
          let chainFile := chain_file chainDir chainName in
          if negb (path.exists_ chainFile (tree st)) then
            (inl (IOError ("Chain file for '" +:+ chainName
                           +:+ "' not found (Should be: " +:+ chainFile +:+ ")")),
             st)
          else
            (* prepare exection namespace *)
            let ns : namespace :=
              {[ "Parameter" := ParameterClass;
                 "Step" := StepLambda;
                 "Chain" := ChainLambda;
                 "steps" := EmptySteps ]} in
            (* execute and extract all the interesting data *)
            match loadPyFile chainFile (Some ns) st with
            | (inl e, st) => (inl e, st)
            | (inr ns, st) =>
                match ns !! "description" with
                | None => (inl (KeyError "description"), st)
                | Some description =>
                    match ns !! "parameters" with
                    | None => (inl (KeyError "parameters"), st)
                    | Some parameters =>
                        match ns !! "steps" with
                        | None => (inl (KeyError "steps"), st)
                        | Some steps =>
                            let chainDef : namespace :=
                              <["steps" := steps]>
                                (<["parameters" := parameters]>
                                   (<["description" := description]> ∅)) in
                            (* cache *)
                            (inr chainDef,
                             with_chains
                               (<[chainName := chainDef]>
                                  (default ∅ (cfg_chains st))) st)
                        end
                    end
                end
            end
      end
  end.

Definition loadChainConfig (chainName : string) (st : loader)
  : (load_exn + namespace) * loader :=
  (* determine chain file location *)
  match cfg_chaincfgdir st with
  | None => (inl (KeyError "chaincfgdir"), st)
  | Some cfgDir =>
      let cfgFile := chain_file cfgDir chainName in
      if path.exists_ cfgFile (tree st) then loadPyFile cfgFile None st
      else (inr ∅, st)
  end.

End Loaders.

End Chains.

(** ** More samples *)

Module MoreSamples.

(** A world in which [/r] is a file. *)
Definition w_file : world :=
  {| w_fs := {[ "/r" := File ]}; w_log := []; w_history := [] |}.

(** A child whose stdout is never reported by poll. *)
Definition unheard : behaviour :=
  {| b_stdout := [ReadData ("lost" +:+ nl); ReadData ""];
     b_stderr := [ReadData ("seen" +:+ nl); ReadData ""];
     b_poll := [[FdStderr]; [FdStderr]];
     b_alive := 0;
     b_returncode := 0;
     b_effect := fun fs => fs |}.

(** The chrooted command fails, the unmounts do not. *)
Definition command_fails :=
  Samples.scripted [("mount --rbind /dev /r/dev", Samples.mounts_dev);
                    ("chroot /r ls", Samples.failing)].

(** [conduct.steps.build] can be imported and holds [Compile];
    nothing else can be imported. *)
Definition build_module : PyImport.module nat :=
  {| PyImport.mod_name := "conduct.steps.build";
     PyImport.mod_attrs := {[ "Compile" := 7%nat ]} |}.

Definition importer (tried : list (string * list string)) (fullname : string)
    (fromlist : list string) : PyImport.import_result nat :=
  if bool_decide (fullname = "conduct.steps.build")
  then PyImport.Imported build_module
  else PyImport.ImportFailed ("No module named " +:+ fullname).

(** An importer that finds nothing. *)
Definition no_importer (tried : list (string * list string)) (fullname : string)
    (fromlist : list string) : PyImport.import_result nat :=
  PyImport.ImportFailed ("No module named " +:+ fullname).

(** An importer under which every import raises a [SyntaxError]. *)
Definition broken_importer (tried : list (string * list string))
    (fullname : string) (fromlist : list string) : PyImport.import_result nat :=
  PyImport.ImportRaised "SyntaxError".

(** [repr] of a string without quotes and escapes in it. *)
Definition plain_repr (s : string) : string := "'" +:+ s +:+ "'".

(** A chain file that binds [description] and [parameters], and the
    [__builtins__] that [exec] puts into a namespace. *)
Definition exec_chain (done_ : list string) (fs : filesystem) (p : string)
    (ns : Chains.namespace) : Chains.exec_result :=
  Chains.Executed
    (<["description" := Chains.PyString "Build an image"]>
       (<["parameters" := Chains.PyObject 10]>
          (<["__builtins__" := Chains.PyObject 11]> ns))).

(** A loader state with the chain file and the configuration file of
    [build:image] in place and nothing cached. *)
Definition fresh : Chains.loader :=
  {| Chains.cfg_chains := None;
     Chains.cfg_chaindefdir := Some "/etc/conduct/chains";
     Chains.cfg_chaincfgdir := Some "/etc/conduct/chains.d";
     Chains.tree := {[ "/etc/conduct/chains/build/image.py" := File;
                       "/etc/conduct/chains.d/build/image.py" := File ]};
     Chains.executed := [] |}.

End MoreSamples.

(** ** Lines of a string *)

Section Lines.

Implicit Types (s t hd tl r : string) (ls : list string).

Lemma split_lines_plain s :
  contains NL s = false -> split_lines s = ([], s).
Proof.
  induction s as [|a s IH]; simpl; [done |].
  destruct (decide (a = NL)); [done |].
  intros H. by rewrite (IH H).
Qed.

Lemma split_lines_line hd tl :
  contains NL hd = false ->
  split_lines (hd +:+ String NL tl) = (hd :: complete_lines tl, partial_line tl).
Proof.
  unfold complete_lines, partial_line.
  induction hd as [|a hd IH]; intros H.
  - rewrite append_nil_l. simpl. destruct (split_lines tl) as [ls r].
    by destruct (decide (NL = NL)).
  - simpl in H. destruct (decide (a = NL)) as [|Hne]; [done |].
    rewrite append_cons. simpl. rewrite (IH H).
    by destruct (decide (a = NL)).
Qed.

Lemma split_lines_join ls r :
  Forall (fun l => contains NL l = false) ls ->
  contains NL r = false ->
  split_lines (PyStr.join (terminated ls) +:+ r) = (ls, r).
Proof.
  intros Hls Hr. induction Hls as [|l ls Hl _ IH]; simpl.
  - by apply split_lines_plain.
  - unfold nl. rewrite !append_assoc, append_cons, append_nil_l.
    rewrite (split_lines_line _ _ Hl).
    unfold complete_lines, partial_line. by rewrite IH.
Qed.

Lemma split_lines_sound s :
  s = PyStr.join (terminated (complete_lines s)) +:+ partial_line s
  /\ Forall (fun l => contains NL l = false) (complete_lines s)
  /\ contains NL (partial_line s) = false.
Proof.
  unfold complete_lines, partial_line.
  induction s as [|a s (IHs & IHl & IHr)]; simpl; [by repeat split |].
  destruct (split_lines s) as [ls r]; simpl in *.
  destruct (decide (a = NL)) as [->|Hne]; simpl.
  - repeat split; [| by constructor | done].
    unfold nl. rewrite append_nil_l, append_cons, append_nil_l, append_cons.
    by rewrite <- IHs.
  - destruct ls as [|l ls]; simpl in *.
    + repeat split; [by rewrite IHs | done |].
      by destruct (decide (a = NL)).
    + apply Forall_cons in IHl as [Hl Hls].
      repeat split; [| constructor; [| done] | done].
      * rewrite !append_cons. by rewrite <- IHs.
      * simpl. by destruct (decide (a = NL)).
Qed.

Lemma split_lines_app s t :
  split_lines (s +:+ t)
  = (complete_lines s ++ complete_lines (partial_line s +:+ t),
     partial_line (partial_line s +:+ t)).
Proof.
  destruct (split_lines_sound s) as (Hs & Hl & _).
  destruct (split_lines_sound (partial_line s +:+ t)) as (Ht & Hl' & Hr').
  set (ls := complete_lines s) in *.
  set (ls' := complete_lines (partial_line s +:+ t)) in *.
  set (r' := partial_line (partial_line s +:+ t)) in *.
  assert (s +:+ t = PyStr.join (terminated (ls ++ ls')) +:+ r') as ->.
  { unfold terminated. rewrite map_app, PyStr.join_app, append_assoc.
    fold (terminated ls) (terminated ls'). rewrite <- Ht, <- append_assoc.
    by rewrite <- Hs. }
  apply split_lines_join; [by apply Forall_app | done].
Qed.

Lemma complete_lines_app s t :
  complete_lines (s +:+ t)
  = complete_lines s ++ complete_lines (partial_line s +:+ t).
Proof. unfold complete_lines at 1. by rewrite split_lines_app. Qed.

Lemma partial_line_app s t :
  partial_line (s +:+ t) = partial_line (partial_line s +:+ t).
Proof. unfold partial_line at 1. by rewrite split_lines_app. Qed.

(** The line loop emits the complete lines of the buffer, first to last,
    and leaves what follows the last newline. *)
Lemma line_loop_lines {S : Type} (emit : string -> S -> S) (buf : string) (st : S) :
  line_loop emit buf st
  = (partial_line buf, foldl (fun acc l => emit l acc) st (complete_lines buf)).
Proof.
  funelim (line_loop emit buf st).
  - destruct (partition_found NL buf Hin) as (hd & tl & Hp & -> & Hhd).
    rewrite Hp in *. simpl in *. rewrite H.
    unfold complete_lines, partial_line.
    by rewrite (split_lines_line _ _ Hhd).
  - unfold complete_lines, partial_line.
    by rewrite split_lines_plain.
Qed.

End Lines.

(** ** What the loops of [systemCall] keep true *)

Lemma stream_data_app which (h h' : list os_call) :
  stream_data which (h ++ h') = stream_data which h +:+ stream_data which h'.
Proof.
  induction h as [|c h IH]; [done |].
  destruct c as [| |f [tmp|]| |]; simpl; try done.
  destruct (decide (f = which)); [| done].
  by rewrite IH, append_assoc.
Qed.

Lemma level_msgs_app lg lv (l l' : list log_record) :
  level_msgs lg lv (l ++ l') = level_msgs lg lv l ++ level_msgs lg lv l'.
Proof.
  induction l as [|r l IH]; [done |]. simpl.
  destruct (decide _); [| done]. by rewrite IH.
Qed.

Lemma level_msgs_same lg lv (ls : list string) :
  level_msgs lg lv (map (LogRecord lg lv) ls) = ls.
Proof.
  induction ls as [|l ls IH]; [done |]. simpl.
  destruct (decide _) as [|Hn]; [by rewrite IH |]. by destruct Hn.
Qed.

Lemma level_msgs_other lg lv lv' (ls : list string) :
  lv' <> lv -> level_msgs lg lv (map (LogRecord lg lv') ls) = [].
Proof.
  intros Hne. induction ls as [|l ls IH]; [done |]. simpl.
  destruct (decide _) as [[_ H]|]; [done | exact IH].
Qed.

Lemma loop_events_app (h h' : list os_call) :
  loop_events (h ++ h') = loop_events h ++ loop_events h'.
Proof.
  induction h as [|c h IH]; [done |].
  destruct c; simpl; by rewrite ?IH.
Qed.

Lemma spawned_app (h h' : list os_call) :
  spawned (h ++ h') = spawned h ++ spawned h'.
Proof.
  induction h as [|c h IH]; [done |].
  destruct c; simpl; by rewrite ?IH.
Qed.

Lemma new_calls_app (w w' : world) (h : list os_call) :
  w_history w' = w_history w ++ h -> new_calls w w' = h.
Proof. intros H. unfold new_calls. rewrite H. apply drop_app_length. Qed.

Lemma new_log_app (w w' : world) (l : list log_record) :
  w_log w' = w_log w ++ l -> new_log w w' = l.
Proof. intros H. unfold new_log. rewrite H. apply drop_app_length. Qed.

(** The two line loops, in closed form. *)
Lemma stdout_chunk_lines lg tmp (st : frame * world) :
  stdout_chunk lg tmp st
  = (with_out (out st.1 ++ terminated (complete_lines (outBuf st.1 +:+ tmp)))
              (partial_line (outBuf st.1 +:+ tmp)) st.1,
     logs lg DEBUG (complete_lines (outBuf st.1 +:+ tmp)) st.2).
Proof.
  unfold stdout_chunk. rewrite line_loop_lines.
  generalize (complete_lines (outBuf st.1 +:+ tmp)) as ls.
  generalize (partial_line (outBuf st.1 +:+ tmp)) as r.
  destruct st as [f w]; simpl. intros r ls.
  assert (forall o w,
    foldl (fun (acc : list string * world) l =>
             let '(o, w) := acc in (o ++ [l +:+ nl], log_to lg DEBUG l w))
          (o, w) ls
    = (o ++ terminated ls, logs lg DEBUG ls w)) as ->; [| done].
  induction ls as [|l ls IH]; intros o [fs lo hi]; simpl.
  - unfold logs; simpl. by rewrite !app_nil_r.
  - rewrite IH. unfold logs, log_to; simpl.
    by rewrite <- !app_assoc.
Qed.

Lemma stderr_chunk_lines lg tmp (st : frame * world) :
  stderr_chunk lg tmp st
  = (with_errBuf (partial_line (errBuf st.1 +:+ tmp)) st.1,
     logs lg WARNING (complete_lines (errBuf st.1 +:+ tmp)) st.2).
Proof.
  unfold stderr_chunk. rewrite line_loop_lines.
  generalize (complete_lines (errBuf st.1 +:+ tmp)) as ls.
  generalize (partial_line (errBuf st.1 +:+ tmp)) as r.
  destruct st as [f w]; simpl. intros r ls.
  assert (forall w,
    foldl (fun acc l => log_to lg WARNING l acc) w ls = logs lg WARNING ls w)
    as ->; [| done].
  induction ls as [|l ls IH]; intros [fs lo hi]; simpl.
  - unfold logs; simpl. by rewrite !app_nil_r.
  - rewrite IH. unfold logs, log_to; simpl.
    by rewrite <- !app_assoc.
Qed.

Lemma Forall_logs lg lv (ls : list string) :
  Forall (fun r => lr_logger r = lg) (map (LogRecord lg lv) ls).
Proof. induction ls as [|l ls IH]; simpl; by constructor. Qed.

Lemma tracks_quiet lg h0 l0 f w c :
  quiet c -> tracks lg h0 l0 (f, w) -> tracks lg h0 l0 (f, called c w).
Proof.
  intros Hc (h & l & Hh & Hl & H). exists (h ++ [c]), l. simpl in *.
  rewrite Hh, <- app_assoc, !stream_data_app, spawned_app.
  assert (stream_data FdStdout [c] = "" /\ stream_data FdStderr [c] = ""
          /\ spawned [c] = []) as (-> & -> & ->).
  { by destruct c as [| |? []| |]. }
  by rewrite !append_nil_r, app_nil_r.
Qed.

Lemma tracks_frame lg h0 l0 f f' w :
  out f' = out f -> outBuf f' = outBuf f -> errBuf f' = errBuf f ->
  tracks lg h0 l0 (f, w) -> tracks lg h0 l0 (f', w).
Proof.
  intros Ho Hb He (h & l & H). exists h, l. simpl in *.
  by rewrite Ho, Hb, He.
Qed.

Lemma tracks_stdout_chunk lg h0 l0 f w tmp :
  tracks lg h0 l0 (f, w) ->
  tracks lg h0 l0
    (stdout_chunk lg tmp (f, called (Read FdStdout (ReadData tmp)) w)).
Proof.
  intros (h & l & Hh & Hl & Hb & Ho & He & Hd & Hw & Hi & Hg & Hs).
  rewrite stdout_chunk_lines. simpl in *.
  exists (h ++ [Read FdStdout (ReadData tmp)]),
         (l ++ map (LogRecord lg DEBUG) (complete_lines (outBuf f +:+ tmp))).
  simpl. rewrite Hh, Hl, <- !app_assoc, !stream_data_app, spawned_app.
  rewrite !level_msgs_app, level_msgs_same, !level_msgs_other by done.
  simpl. rewrite !append_nil_r, !app_nil_r.
  rewrite (complete_lines_app (stream_data FdStdout h) tmp).
  rewrite (partial_line_app (stream_data FdStdout h) tmp), Hb, Ho, Hd.
  unfold terminated. rewrite map_app.
  repeat split; try done. apply Forall_app; split; [done |].
  apply Forall_logs.
Qed.

Lemma tracks_stderr_chunk lg h0 l0 f w tmp :
  tracks lg h0 l0 (f, w) ->
  tracks lg h0 l0
    (stderr_chunk lg tmp (f, called (Read FdStderr (ReadData tmp)) w)).
Proof.
  intros (h & l & Hh & Hl & Hb & Ho & He & Hd & Hw & Hi & Hg & Hs).
  rewrite stderr_chunk_lines. simpl in *.
  exists (h ++ [Read FdStderr (ReadData tmp)]),
         (l ++ map (LogRecord lg WARNING) (complete_lines (errBuf f +:+ tmp))).
  simpl. rewrite Hh, Hl, <- !app_assoc, !stream_data_app, spawned_app.
  rewrite !level_msgs_app, level_msgs_same, !level_msgs_other by done.
  simpl. rewrite !append_nil_r, !app_nil_r.
  rewrite (complete_lines_app (stream_data FdStderr h) tmp).
  rewrite (partial_line_app (stream_data FdStderr h) tmp), He, Hw.
  repeat split; try done. apply Forall_app; split; [done |].
  apply Forall_logs.
Qed.

Lemma tracks_read_loop lg which chunk h0 l0 pipe st :
  serves lg which chunk ->
  tracks lg h0 l0 st ->
  tracks lg h0 l0 (read_loop which chunk pipe st).2.
Proof.
  intros Hch. revert st.
  induction pipe as [|[tmp|] pipe IH]; intros [f w] Hst; simpl.
  - by apply Hch.
  - destruct (bool_decide (tmp = "")); simpl; [by apply Hch |].
    apply IH. by apply Hch.
  - by apply tracks_quiet.
Qed.

Lemma tracks_pollOutput lg h0 l0 st :
  tracks lg h0 l0 st -> tracks lg h0 l0 (pollOutput lg st).
Proof.
  destruct st as [f w]. intros Hst. unfold pollOutput. simpl.
  set (fds := hd [] (poller f)).
  assert (tracks lg h0 l0 (with_poller (tl (poller f)) f, called (PollerPoll fds) w))
    as H0.
  { apply tracks_quiet; [done |]. by apply (tracks_frame lg h0 l0 f). }
  set (st1 := if bool_decide (FdStdout ∈ fds) then _ else _).
  assert (tracks lg h0 l0 st1) as H1.
  { subst st1. destruct (bool_decide (FdStdout ∈ fds)); [| done].
    pose proof (tracks_read_loop lg FdStdout (stdout_chunk lg) h0 l0
                  (stdout (with_poller (tl (poller f)) f)) _
                  (tracks_stdout_chunk lg) H0) as H.
    destruct (read_loop _ _ _ _) as [pipe [f1 w1]]. simpl in *.
    by apply (tracks_frame lg h0 l0 f1). }
  clearbody st1. destruct (bool_decide (FdStderr ∈ fds)); [| done].
  destruct st1 as [f1 w1].
  pose proof (tracks_read_loop lg FdStderr (stderr_chunk lg) h0 l0
                (stderr f1) _ (tracks_stderr_chunk lg) H1) as H.
  simpl. destruct (read_loop _ _ _ _) as [pipe [f2 w2]]. simpl in *.
  by apply (tracks_frame lg h0 l0 f2).
Qed.

Lemma tracks_affected lg h0 l0 f w g :
  tracks lg h0 l0 (f, w) -> tracks lg h0 l0 (f, affected g w).
Proof. intros (h & l & H). by exists h, l. Qed.

Lemma tracks_poll_loop lg b alive h0 l0 st :
  tracks lg h0 l0 st -> tracks lg h0 l0 (poll_loop lg b alive st).
Proof.
  revert st. induction alive as [|n IH]; intros st Hst; simpl.
  - apply tracks_pollOutput in Hst. destruct (pollOutput lg st) as [f w].
    by apply tracks_affected, tracks_quiet.
  - apply IH. apply tracks_pollOutput in Hst.
    destruct (pollOutput lg st) as [f w]. by apply tracks_quiet.
Qed.

Lemma tracks_run lg b w :
  tracks lg (w_history w) (w_log w) (run lg b w).
Proof.
  unfold run. apply tracks_pollOutput, tracks_poll_loop.
  exists [], []. simpl. by rewrite !app_nil_r.
Qed.

(** ** Drain passes and exit checks *)

Lemma loop_events_read_loop which chunk pipe st :
  (forall tmp st', w_history (chunk tmp st').2 = w_history st'.2) ->
  loop_events (w_history (read_loop which chunk pipe st).2.2)
  = loop_events (w_history st.2).
Proof.
  intros Hch. revert st.
  induction pipe as [|[tmp|] pipe IH]; intros [f w]; simpl.
  - rewrite Hch. simpl. by rewrite loop_events_app, app_nil_r.
  - destruct (bool_decide (tmp = "")); simpl; [| rewrite IH];
      rewrite Hch; simpl; by rewrite loop_events_app, app_nil_r.
  - by rewrite loop_events_app, app_nil_r.
Qed.

Lemma loop_events_pollOutput lg st :
  loop_events (w_history (pollOutput lg st).2)
  = loop_events (w_history st.2) ++ [DrainPass].
Proof.
  destruct st as [f w]. unfold pollOutput. simpl.
  set (fds := hd [] (poller f)).
  set (st0 := (with_poller (tl (poller f)) f, called (PollerPoll fds) w)).
  assert (loop_events (w_history st0.2)
          = loop_events (w_history w) ++ [DrainPass]) as H0.
  { simpl. by rewrite loop_events_app. }
  set (st1 := if bool_decide (FdStdout ∈ fds) then _ else _).
  assert (loop_events (w_history st1.2)
          = loop_events (w_history w) ++ [DrainPass]) as H1.
  { subst st1. destruct (bool_decide (FdStdout ∈ fds)); [| done].
    pose proof (loop_events_read_loop FdStdout (stdout_chunk lg)
                  (stdout st0.1) st0) as H.
    destruct (read_loop _ _ _ _) as [pipe [f1 w1]]. simpl in *.
    rewrite H; [done |]. intros tmp st'. by rewrite stdout_chunk_lines. }
  clearbody st1. destruct (bool_decide (FdStderr ∈ fds)); [| done].
  pose proof (loop_events_read_loop FdStderr (stderr_chunk lg)
                (stderr st1.1) st1) as H.
  destruct (read_loop _ _ _ _) as [pipe [f2 w2]]. simpl in *.
  rewrite H; [done |]. intros tmp st'. by rewrite stderr_chunk_lines.
Qed.

Lemma loop_events_poll_loop lg b alive st :
  loop_events (w_history (poll_loop lg b alive st).2)
  = loop_events (w_history st.2)
    ++ concat (replicate alive [DrainPass; ExitCheck None])
    ++ [DrainPass; ExitCheck (Some (b_returncode b))].
Proof.
  revert st. induction alive as [|n IH]; intros st; simpl.
  - rewrite loop_events_app, loop_events_pollOutput.
    by rewrite <- app_assoc.
  - rewrite IH. simpl.
    rewrite loop_events_app, loop_events_pollOutput.
    by rewrite <- !app_assoc.
Qed.

Lemma loop_events_run lg b w :
  loop_events (w_history (run lg b w).2)
  = loop_events (w_history w)
    ++ concat (replicate (b_alive b) [DrainPass; ExitCheck None])
    ++ [DrainPass; ExitCheck (Some (b_returncode b)); DrainPass].
Proof.
  unfold run. rewrite loop_events_pollOutput, loop_events_poll_loop.
  by rewrite <- !app_assoc.
Qed.

(** ** The passes over a pipe *)

Lemma passes_data_add (a b : nat) (pipe : list read_result) :
  passes_data (a + b) pipe
  = passes_data a pipe +:+ passes_data b (passes_rest a pipe).
Proof.
  revert pipe. induction a as [|a IH]; intros pipe; simpl; [done |].
  by rewrite IH, append_assoc.
Qed.

Lemma passes_rest_add (a b : nat) (pipe : list read_result) :
  passes_rest (a + b) pipe = passes_rest b (passes_rest a pipe).
Proof. revert pipe. induction a as [|a IH]; intros pipe; simpl; [done | apply IH]. Qed.

Lemma reports_app which (l l' : list (list fd)) :
  reports which (l ++ l') = (reports which l + reports which l')%nat.
Proof. induction l as [|fds l IH]; simpl; [done |]. rewrite IH. lia. Qed.

Lemma pipe_data_pass (pipe : list read_result) :
  pipe_data pipe = pass_data pipe +:+ pipe_data (pass_rest pipe).
Proof.
  induction pipe as [|[tmp|] pipe IH]; simpl; [done | | done].
  case_bool_decide as Ht; [by subst |]. by rewrite IH, append_assoc.
Qed.

Lemma append_empty (s t : string) : s +:+ t = "" -> s = "" /\ t = "".
Proof. destruct s; [done |]. by rewrite append_cons. Qed.

Lemma pipe_data_done (k : nat) (pipe : list read_result) :
  pipe_data pipe = "" -> passes_data k pipe = "".
Proof.
  revert pipe. induction k as [|k IH]; intros pipe Hp; [done |]. simpl.
  rewrite pipe_data_pass in Hp. apply append_empty in Hp as [-> Hr].
  by rewrite IH.
Qed.

Lemma stalls_pass (pipe : list read_result) :
  pipe_data (pass_rest pipe) = ""
  \/ (stalls (pass_rest pipe) + 1 <= stalls pipe)%nat.
Proof.
  induction pipe as [|[tmp|] pipe IH]; simpl; [by left | |].
  - case_bool_decide as Ht; simpl; [| done].
    case_bool_decide as Hp; simpl; [by left | right; lia].
  - case_bool_decide as Hp; simpl; [by left | right; lia].
Qed.

(** A pipe that is reported in more polls than it has stalls is read to
    its end. *)
Lemma passes_data_all (k : nat) (pipe : list read_result) :
  (stalls pipe < k)%nat -> passes_data k pipe = pipe_data pipe.
Proof.
  revert pipe. induction k as [|k IH]; intros pipe Hk; [lia |]. simpl.
  rewrite (pipe_data_pass pipe). f_equal.
  destruct (stalls_pass pipe) as [Hd|Hs].
  - by rewrite Hd, pipe_data_done.
  - apply IH. lia.
Qed.

(** What the read loop leaves as it is: whatever neither the chunk
    handler nor the record of a read of this pipe changes. *)
Lemma read_loop_keeps {X : Type} (view : frame * world -> X) which chunk pipe st :
  (forall tmp st', view (chunk tmp st') = view st') ->
  (forall r f w, view (f, called (Read which r) w) = view (f, w)) ->
  view (read_loop which chunk pipe st).2 = view st.
Proof.
  intros Hch Hrd. revert st.
  induction pipe as [|[tmp|] pipe IH]; intros [f w]; simpl.
  - by rewrite Hch, Hrd.
  - destruct (bool_decide (tmp = "")); simpl; [| rewrite IH];
      by rewrite Hch, Hrd.
  - by rewrite Hrd.
Qed.

Lemma stream_data_other_read which which' r h :
  which <> which' ->
  stream_data which' (h ++ [Read which r]) = stream_data which' h.
Proof.
  intros Hne. rewrite stream_data_app. destruct r as [tmp|]; simpl.
  - destruct (decide (which = which')); [done | by rewrite append_nil_r].
  - by rewrite append_nil_r.
Qed.

Lemma read_loop_rest which chunk pipe st :
  (read_loop which chunk pipe st).1 = pass_rest pipe.
Proof.
  revert st. induction pipe as [|[tmp|] pipe IH]; intros st; simpl; try done.
  destruct (bool_decide (tmp = "")); [done | apply IH].
Qed.

Lemma read_loop_data which chunk pipe st :
  (forall tmp st', w_history (chunk tmp st').2 = w_history st'.2) ->
  stream_data which (w_history (read_loop which chunk pipe st).2.2)
  = stream_data which (w_history st.2) +:+ pass_data pipe.
Proof.
  intros Hch. revert st.
  induction pipe as [|[tmp|] pipe IH]; intros [f w]; simpl.
  - rewrite Hch. simpl. rewrite stream_data_app. simpl.
    by destruct (decide (which = which)).
  - case_bool_decide as Ht; simpl.
    + rewrite Hch. simpl. rewrite stream_data_app. simpl. subst tmp.
      by destruct (decide (which = which)).
    + rewrite IH, Hch. simpl. rewrite stream_data_app. simpl.
      destruct (decide (which = which)); [| done].
      by rewrite append_nil_r, append_assoc.
  - rewrite stream_data_app. simpl. by rewrite !append_nil_r.
Qed.

(** One pass of the stdout loop and one of the stderr loop, as functions
    of the state. *)
Lemma stdout_pass lg st :
  let st' := read_loop FdStdout (stdout_chunk lg) (stdout st.1) st in
  let st1 := (with_stdout st'.1 st'.2.1, st'.2.2) in
  stream_data FdStdout (w_history st1.2)
  = stream_data FdStdout (w_history st.2) +:+ pass_data (stdout st.1)
  /\ stream_data FdStderr (w_history st1.2) = stream_data FdStderr (w_history st.2)
  /\ stdout st1.1 = pass_rest (stdout st.1)
  /\ stderr st1.1 = stderr st.1
  /\ poller st1.1 = poller st.1.
Proof.
  cbv zeta. simpl.
  assert (forall tmp st', w_history (stdout_chunk lg tmp st').2 = w_history st'.2)
    as Hh by (intros; by rewrite stdout_chunk_lines).
  rewrite read_loop_rest, read_loop_data by done.
  rewrite (read_loop_keeps (fun s => stream_data FdStderr (w_history s.2)));
    [| intros; simpl; by rewrite Hh | intros; simpl; by apply stream_data_other_read].
  rewrite (read_loop_keeps (fun s => stderr s.1));
    [| intros; by rewrite stdout_chunk_lines | done].
  rewrite (read_loop_keeps (fun s => poller s.1));
    [| intros; by rewrite stdout_chunk_lines | done].
  done.
Qed.

Lemma stderr_pass lg st :
  let st' := read_loop FdStderr (stderr_chunk lg) (stderr st.1) st in
  let st1 := (with_stderr st'.1 st'.2.1, st'.2.2) in
  stream_data FdStderr (w_history st1.2)
  = stream_data FdStderr (w_history st.2) +:+ pass_data (stderr st.1)
  /\ stream_data FdStdout (w_history st1.2) = stream_data FdStdout (w_history st.2)
  /\ stderr st1.1 = pass_rest (stderr st.1)
  /\ stdout st1.1 = stdout st.1
  /\ poller st1.1 = poller st.1.
Proof.
  cbv zeta. simpl.
  assert (forall tmp st', w_history (stderr_chunk lg tmp st').2 = w_history st'.2)
    as Hh by (intros; by rewrite stderr_chunk_lines).
  rewrite read_loop_rest, read_loop_data by done.
  rewrite (read_loop_keeps (fun s => stream_data FdStdout (w_history s.2)));
    [| intros; simpl; by rewrite Hh | intros; simpl; by apply stream_data_other_read].
  rewrite (read_loop_keeps (fun s => stdout s.1));
    [| intros; by rewrite stderr_chunk_lines | done].
  rewrite (read_loop_keeps (fun s => poller s.1));
    [| intros; by rewrite stderr_chunk_lines | done].
  done.
Qed.

Lemma pollOutput_passes lg st :
  pollOutput lg st
  = let fds := hd [] (poller st.1) in
    let st0 := (with_poller (tl (poller st.1)) st.1,
                called (PollerPoll fds) st.2) in
    let st1 :=
      if bool_decide (FdStdout ∈ fds) then
        (with_stdout (read_loop FdStdout (stdout_chunk lg) (stdout st0.1) st0).1
           (read_loop FdStdout (stdout_chunk lg) (stdout st0.1) st0).2.1,
         (read_loop FdStdout (stdout_chunk lg) (stdout st0.1) st0).2.2)
      else st0 in
    if bool_decide (FdStderr ∈ fds) then
      (with_stderr (read_loop FdStderr (stderr_chunk lg) (stderr st1.1) st1).1
         (read_loop FdStderr (stderr_chunk lg) (stderr st1.1) st1).2.1,
       (read_loop FdStderr (stderr_chunk lg) (stderr st1.1) st1).2.2)
    else st1.
Proof.
  destruct st as [f w]. unfold pollOutput. cbv zeta. simpl.
  destruct (bool_decide (FdStdout ∈ hd [] (poller f)));
    destruct (bool_decide (FdStderr ∈ hd [] (poller f))); simpl;
    try (destruct (read_loop FdStdout _ _ _) as [? [? ?]]; simpl);
    try (destruct (read_loop FdStderr _ _ _) as [? [? ?]]; simpl); done.
Qed.

Lemma reports_first which (polls : list (list fd)) :
  reports which (take 1 polls)
  = if bool_decide (which ∈ hd [] polls) then 1%nat else 0%nat.
Proof.
  destruct polls as [|fds polls]; simpl.
  - done.
  - destruct (bool_decide (which ∈ fds)); simpl; lia.
Qed.

Lemma drop_one {A : Type} (l : list A) : drop 1 l = tl l.
Proof. by destruct l. Qed.

Lemma advanced_pollOutput which lg st :
  advanced which 1 st (pollOutput lg st).
Proof.
  unfold advanced. rewrite reports_first, pollOutput_passes. cbv zeta.
  set (fds := hd [] (poller st.1)).
  set (st0 := (with_poller (tl (poller st.1)) st.1, called (PollerPoll fds) st.2)).
  assert (forall x, stream_data x (w_history st0.2) = stream_data x (w_history st.2))
    as H0.
  { intros x. simpl. by rewrite stream_data_app, append_nil_r. }
  pose proof (stdout_pass lg st0) as (Ho1 & Ho2 & Ho3 & Ho4 & Ho5).
  set (st1 := if bool_decide (FdStdout ∈ fds) then _ else st0).
  assert (stream_data FdStdout (w_history st1.2)
          = stream_data FdStdout (w_history st.2)
            +:+ (if bool_decide (FdStdout ∈ fds) then pass_data (stdout st.1) else "")
          /\ stream_data FdStderr (w_history st1.2)
             = stream_data FdStderr (w_history st.2)
          /\ stdout st1.1
             = (if bool_decide (FdStdout ∈ fds) then pass_rest (stdout st.1)
                else stdout st.1)
          /\ stderr st1.1 = stderr st.1
          /\ poller st1.1 = tl (poller st.1)) as (H1 & H2 & H3 & H4 & H5).
  { subst st1. destruct (bool_decide (FdStdout ∈ fds)).
    - rewrite Ho1, Ho2, Ho3, Ho4, Ho5, !H0. by destruct st.
    - rewrite !H0, append_nil_r. by destruct st. }
  clearbody st1. clear Ho1 Ho2 Ho3 Ho4 Ho5 H0. clearbody st0.
  pose proof (stderr_pass lg st1) as (He1 & He2 & He3 & He4 & He5).
  cbv zeta in He1, He2, He3, He4, He5.
  set (st2 := (with_stderr _ _, _)) in *. clearbody st2.
  rewrite (drop_one (poller st.1)).
  rewrite H2, H4 in He1. rewrite H1 in He2. rewrite H4 in He3.
  rewrite H3 in He4. rewrite H5 in He5.
  destruct which; unfold pipe_in;
    destruct (bool_decide (FdStderr ∈ fds));
    destruct (bool_decide (FdStdout ∈ fds)); simpl;
    rewrite ?He1, ?He2, ?He3, ?He4, ?He5, ?H1, ?H2, ?H3, ?H4, ?H5, ?append_nil_r;
    done.
Qed.

Lemma advanced_trans which n1 n2 st st1 st2 :
  advanced which n1 st st1 -> advanced which n2 st1 st2 ->
  advanced which (n1 + n2) st st2.
Proof.
  intros (Hd1 & Hp1 & Hq1) (Hd2 & Hp2 & Hq2). unfold advanced.
  rewrite <- (take_take_drop (poller st.1) n1 n2), reports_app.
  rewrite passes_data_add, passes_rest_add, <- Hq1, <- Hp1.
  rewrite Hd2, Hd1, Hp2, Hq2, Hq1, append_assoc, drop_drop. done.
Qed.

(** A record that is no read of data, and a change of the directory
    tree, use no poll and leave the pipes alone. *)
Lemma advanced_called which c f w g :
  quiet c -> advanced which 0 (f, w) (f, affected g (called c w)).
Proof.
  intros Hc. unfold advanced. simpl. rewrite stream_data_app.
  assert (stream_data which [c] = "") as ->.
  { by destruct c as [| |? []| |]. }
  by rewrite !append_nil_r, drop_0.
Qed.

Lemma advanced_poll_loop which lg b alive st :
  advanced which (S alive) st (poll_loop lg b alive st).
Proof.
  revert st. induction alive as [|n IH]; intros st; simpl poll_loop.
  - apply (advanced_trans which 1 0 st (pollOutput lg st));
      [apply advanced_pollOutput |].
    destruct (pollOutput lg st) as [f w]. by apply advanced_called.
  - apply (advanced_trans which 1 (S n) st
             ((pollOutput lg st).1, called (ProcPoll None) (pollOutput lg st).2));
      [| apply IH].
    apply (advanced_trans which 1 0 st (pollOutput lg st));
      [apply advanced_pollOutput |].
    destruct (pollOutput lg st) as [f [fs lo hi]].
    by apply (advanced_called which (ProcPoll None) f _ (fun x => x)).
Qed.

Lemma advanced_run which lg b w :
  stream_data which (w_history (run lg b w).2)
  = stream_data which (w_history w) +:+ read_from which b.
Proof.
  pose proof (advanced_trans which (S (b_alive b)) 1 (start b, w) _ _
                (advanced_poll_loop which lg b (b_alive b) (start b, w))
                (advanced_pollOutput which lg _)) as (Hd & _).
  unfold run. rewrite Hd. unfold read_from, polls_of. simpl.
  replace (S (b_alive b + 1)) with (b_alive b + 2)%nat by lia.
  by destruct which.
Qed.

(** The passes take a pipe's data from its beginning. *)
Lemma passes_data_prefix (k : nat) (pipe : list read_result) :
  pipe_data pipe = passes_data k pipe +:+ pipe_data (passes_rest k pipe).
Proof.
  revert pipe. induction k as [|k IH]; intros pipe; simpl; [done |].
  by rewrite append_assoc, <- IH, <- pipe_data_pass.
Qed.

Lemma read_from_prefix which b :
  pipe_data (pipe_of which b)
  = read_from which b
    +:+ pipe_data (passes_rest (reports which (polls_of b)) (pipe_of which b)).
Proof. apply passes_data_prefix. Qed.

Lemma read_from_drained which b :
  drained which b -> read_from which b = pipe_data (pipe_of which b).
Proof. apply passes_data_all. Qed.

(** The complete lines of the beginning of a string are the first of
    its complete lines. *)
Lemma complete_lines_prefix (s t : string) :
  complete_lines s
  = take (length (complete_lines s)) (complete_lines (s +:+ t)).
Proof. by rewrite complete_lines_app, take_app_length. Qed.

(** The complete lines that a call read are the first of the lines that
    the child wrote, and all of them when the pipe was drained. *)
Lemma read_from_lines which b (lines : list string) (part : string) :
  Forall (fun l => contains NL l = false) lines ->
  contains NL part = false ->
  pipe_data (pipe_of which b) = PyStr.join (terminated lines) +:+ part ->
  complete_lines (read_from which b)
  = take (length (complete_lines (read_from which b))) lines
  /\ (drained which b -> complete_lines (read_from which b) = lines).
Proof.
  intros Hl Hp Hdata. split.
  - rewrite (complete_lines_prefix (read_from which b)
               (pipe_data (passes_rest (reports which (polls_of b))
                             (pipe_of which b)))) at 1.
    rewrite <- read_from_prefix, Hdata.
    unfold complete_lines at 2. by rewrite split_lines_join.
  - intros Hd. rewrite (read_from_drained which b Hd), Hdata.
    unfold complete_lines. by rewrite split_lines_join.
Qed.

(** Lines that end in ['\r\n'] are lines that end in ['\r'], followed by
    ['\n']. *)
Lemma crlf_terminated (lines : list string) :
  PyStr.join (map (fun l => l +:+ cr +:+ nl) lines)
  = PyStr.join (terminated (map (fun l => l +:+ cr) lines)) +:+ "".
Proof.
  rewrite append_nil_r. unfold terminated. rewrite map_map. f_equal.
  apply map_ext. intros x. by rewrite append_assoc.
Qed.

Lemma crlf_unbroken (lines : list string) :
  Forall (fun l => contains NL l = false) lines ->
  Forall (fun l => contains NL l = false) (map (fun l => l +:+ cr) lines).
Proof.
  intros Hlines. induction Hlines as [|x xs Hx _ IH]; simpl;
    constructor; [| done].
  by rewrite contains_append, Hx.
Qed.

(** ** [systemCall] as a whole *)

Section SystemCall.

Variable os : list os_call -> filesystem -> string -> bool -> spawn_result.

Lemma systemCall_started w cmd sh log b :
  os (w_history w) (w_fs w) cmd sh = Spawned b ->
  systemCall os cmd sh log w
  = let st := run (default AppLog log) b
                (called (Popen cmd sh)
                   (log_to (default AppLog log) DEBUG (call_banner cmd sh) w)) in
    (if bool_decide (b_returncode b ≠ 0)
     then Raise (RuntimeError {| returncode := b_returncode b;
                                 cmd := cmd;
                                 output := PyStr.join (out st.1) |})
     else Ok (PyStr.join (out st.1)),
     st.2).
Proof.
  intros Hos. unfold systemCall. cbv zeta.
  change (os (w_history w) (w_fs w) cmd sh) with
    (os (w_history (log_to (default AppLog log) DEBUG (call_banner cmd sh) w))
        (w_fs (log_to (default AppLog log) DEBUG (call_banner cmd sh) w)) cmd sh)
    in Hos.
  rewrite Hos. destruct (run _ _ _) as [f w2]. simpl.
  by destruct (bool_decide (b_returncode b ≠ 0)).
Qed.

(** A call whose child was started: what it adds to the history and to
    the log, and what it hands back. *)
Lemma systemCall_spawned w cmd sh log b :
  os (w_history w) (w_fs w) cmd sh = Spawned b ->
  exists h l,
    w_history (systemCall os cmd sh log w).2 = w_history w ++ Popen cmd sh :: h
    /\ w_log (systemCall os cmd sh log w).2
       = w_log w ++ LogRecord (default AppLog log) DEBUG (call_banner cmd sh) :: l
    /\ (systemCall os cmd sh log w).1
       = (if bool_decide (b_returncode b ≠ 0)
          then Raise (RuntimeError
                 {| returncode := b_returncode b;
                    cmd := cmd;
                    output := PyStr.join
                      (terminated (complete_lines (stream_data FdStdout h))) |})
          else Ok (PyStr.join
                     (terminated (complete_lines (stream_data FdStdout h)))))
    /\ level_msgs (default AppLog log) DEBUG l
       = complete_lines (stream_data FdStdout h)
    /\ level_msgs (default AppLog log) WARNING l
       = complete_lines (stream_data FdStderr h)
    /\ level_msgs (default AppLog log) INFO l = []
    /\ Forall (fun r => lr_logger r = default AppLog log) l
    /\ loop_events h
       = concat (replicate (b_alive b) [DrainPass; ExitCheck None])
         ++ [DrainPass; ExitCheck (Some (b_returncode b)); DrainPass]
    /\ spawned h = [].
Proof.
  intros Hos. rewrite (systemCall_started w cmd sh log b Hos).
  set (lg := default AppLog log).
  set (w1 := called (Popen cmd sh) (log_to lg DEBUG (call_banner cmd sh) w)).
  pose proof (tracks_run lg b w1)
    as (h & l & Hh & Hl & _ & Ho & _ & Hd & Hw & Hi & Hg & Hs).
  pose proof (loop_events_run lg b w1) as He.
  destruct (run lg b w1) as [f w2]. simpl in *.
  rewrite Hh, !loop_events_app in He. simpl in He.
  apply app_inv_head in He.
  exists h, l. rewrite Hh, Hl, Ho, <- !app_assoc.
  by repeat split.
Qed.

(** Whatever became of the child, the call started [cmd] and nothing else. *)
Lemma systemCall_calls w cmd sh log :
  exists h,
    w_history (systemCall os cmd sh log w).2 = w_history w ++ Popen cmd sh :: h
    /\ spawned h = [].
Proof.
  destruct (os (w_history w) (w_fs w) cmd sh) as [b|msg] eqn:Hos.
  - destruct (systemCall_spawned w cmd sh log b Hos) as (h & l & Hh & H).
    exists h. split; [done |]. by destruct H as (_ & _ & _ & _ & _ & _ & _ & ?).
  - exists []. unfold systemCall. simpl. by rewrite Hos.
Qed.

(** A call reads from each pipe of its child what the passes take in
    which poll reports the pipe. *)
Lemma systemCall_read_from w cmd sh log b which :
  os (w_history w) (w_fs w) cmd sh = Spawned b ->
  stream_data which (new_calls w (systemCall os cmd sh log w).2)
  = read_from which b.
Proof.
  intros Hos.
  destruct (systemCall_spawned w cmd sh log b Hos) as (h & l & Hh & _).
  rewrite (new_calls_app w _ _ Hh). simpl.
  pose proof (advanced_run which (default AppLog log) b
                (called (Popen cmd sh)
                   (log_to (default AppLog log) DEBUG (call_banner cmd sh) w)))
    as Hrun.
  rewrite (systemCall_started w cmd sh log b Hos) in Hh. simpl in Hh.
  rewrite Hh in Hrun. simpl in Hrun.
  rewrite !stream_data_app in Hrun. simpl in Hrun.
  rewrite append_nil_r in Hrun.
  by apply (inj (String.append _)) in Hrun.
Qed.

End SystemCall.

(** ** The stream multiplexer: properties *)

Section Multiplexer.

Variable os : list os_call -> filesystem -> string -> bool -> spawn_result.

Lemma complete_lines_written (lines : list string) (part : string) :
  Forall (fun l => contains NL l = false) lines ->
  contains NL part = false ->
  complete_lines (PyStr.join (terminated lines) +:+ part) = lines.
Proof.
  intros Hl Hp. unfold complete_lines. by rewrite split_lines_join.
Qed.

(** C3. When the child ends with return code 0 the call returns the
    stdout lines collected and raises nothing; with any other return code
    it raises [RuntimeError(CalledProcessError(returncode, cmd, output))]
    with that return code, the command as given and the stdout lines
    collected. *)
Theorem systemCall_return_code w cmd sh log b r w' :
  os (w_history w) (w_fs w) cmd sh = Spawned b ->
  systemCall os cmd sh log w = (r, w') ->
  let collected :=
    PyStr.join (terminated (complete_lines (stream_data FdStdout (new_calls w w')))) in
  (b_returncode b = 0 -> r = Ok collected)
  /\ (b_returncode b <> 0 ->
      r = Raise (RuntimeError {| returncode := b_returncode b;
                                 cmd := cmd;
                                 output := collected |})).
Proof.
  intros Hos Hcall.
  destruct (systemCall_spawned os w cmd sh log b Hos) as (h & l & Hh & _ & Hr & _).
  rewrite Hcall in Hh, Hr. simpl in Hh, Hr.
  rewrite (new_calls_app w w' _ Hh). simpl. subst r.
  split; intros Hrc.
  - by rewrite bool_decide_eq_false_2 by (by intros ?).
  - by rewrite bool_decide_eq_true_2.
Qed.


(** C5. The debug log of the call is its banner and then the complete
    lines of what the passes read from the child's stdout, which are
    also what the call hands back, each with its newline; the complete
    lines of what they read from the child's stderr are the warning
    log, and the call logs nothing else.  What the passes read from a
    pipe is a beginning of what the child wrote to it, and all of it
    when they drained the pipe. *)
Theorem systemCall_stdout_stderr w cmd sh log b r w' :
  os (w_history w) (w_fs w) cmd sh = Spawned b ->
  systemCall os cmd sh log w = (r, w') ->
  let lg := default AppLog log in
  let out_lines := complete_lines (read_from FdStdout b) in
  let err_lines := complete_lines (read_from FdStderr b) in
  stream_data FdStdout (new_calls w w') = read_from FdStdout b
  /\ stream_data FdStderr (new_calls w w') = read_from FdStderr b
  /\ level_msgs lg DEBUG (new_log w w') = call_banner cmd sh :: out_lines
  /\ captured r = Some (PyStr.join (terminated out_lines))
  /\ level_msgs lg WARNING (new_log w w') = err_lines
  /\ level_msgs lg INFO (new_log w w') = []
  /\ Forall (fun rec => lr_logger rec = lg) (new_log w w')
  /\ (exists rest, pipe_data (b_stdout b) = read_from FdStdout b +:+ rest)
  /\ (exists rest, pipe_data (b_stderr b) = read_from FdStderr b +:+ rest)
  /\ (drained FdStdout b -> read_from FdStdout b = pipe_data (b_stdout b))
  /\ (drained FdStderr b -> read_from FdStderr b = pipe_data (b_stderr b)).
Proof.
  intros Hos Hcall. cbv zeta.
  destruct (systemCall_spawned os w cmd sh log b Hos)
    as (h & l & Hh & Hl & Hr & Hd & Hw & Hi & Hg & _).
  pose proof (systemCall_read_from os w cmd sh log b FdStdout Hos) as Hout.
  pose proof (systemCall_read_from os w cmd sh log b FdStderr Hos) as Herr.
  rewrite Hcall in Hh, Hl, Hr, Hout, Herr. simpl in Hh, Hl, Hr, Hout, Herr.
  rewrite Hout, Herr.
  rewrite (new_calls_app w w' _ Hh) in Hout, Herr. simpl in Hout, Herr.
  rewrite (new_log_app w w' _ Hl). simpl.
  destruct (decide _) as [_|Hn]; [| by destruct Hn].
  destruct (decide _) as [[_ ?]|_]; [done |].
  destruct (decide _) as [[_ ?]|_]; [done |].
  rewrite Hd, Hw, Hi, Hr, Hout, Herr.
  split; [done |]. split; [done |]. split; [done |].
  split; [by destruct (bool_decide _) |]. split; [done |]. split; [done |].
  split; [by constructor |].
  split; [eexists; apply (read_from_prefix FdStdout) |].
  split; [eexists; apply (read_from_prefix FdStderr) |].
  split; [apply (read_from_drained FdStdout) | apply (read_from_drained FdStderr)].
Qed.


(** C10. When the child wrote [lines] to stdout and [elines] to stderr,
    each line followed by ['\r\n'], every line of the debug log after
    the banner, every line handed back and every line of the warning
    log keeps its ['\r']: they are the first [n] of [lines] and the
    first [m] of [elines] with their ['\r'], [n] and [m] being the
    numbers of complete lines that the passes read, which are all the
    lines of a pipe that was drained.  The call logs nothing else. *)
Theorem systemCall_keeps_carriage_return w cmd sh log b r w' lines elines :
  os (w_history w) (w_fs w) cmd sh = Spawned b ->
  systemCall os cmd sh log w = (r, w') ->
  Forall (fun l => contains NL l = false) lines ->
  Forall (fun l => contains NL l = false) elines ->
  pipe_data (b_stdout b) = PyStr.join (map (fun l => l +:+ cr +:+ nl) lines) ->
  pipe_data (b_stderr b) = PyStr.join (map (fun l => l +:+ cr +:+ nl) elines) ->
  let lg := default AppLog log in
  let n := length (complete_lines (read_from FdStdout b)) in
  let m := length (complete_lines (read_from FdStderr b)) in
  level_msgs lg DEBUG (new_log w w')
  = call_banner cmd sh :: map (fun l => l +:+ cr) (take n lines)
  /\ captured r
     = Some (PyStr.join (map (fun l => (l +:+ cr) +:+ nl) (take n lines)))
  /\ level_msgs lg WARNING (new_log w w')
     = map (fun l => l +:+ cr) (take m elines)
  /\ level_msgs lg INFO (new_log w w') = []
  /\ (drained FdStdout b -> n = length lines)
  /\ (drained FdStderr b -> m = length elines).
Proof.
  intros Hos Hcall Hlines Helines Hout Herr. cbv zeta.
  destruct (systemCall_spawned os w cmd sh log b Hos)
    as (h & l & Hh & Hl & Hr & Hd & Hw & Hi & _).
  pose proof (systemCall_read_from os w cmd sh log b FdStdout Hos) as Ho.
  pose proof (systemCall_read_from os w cmd sh log b FdStderr Hos) as He.
  rewrite Hcall in Hh, Hl, Hr, Ho, He. simpl in Hh, Hl, Hr, Ho, He.
  rewrite (new_calls_app w w' _ Hh) in Ho, He. simpl in Ho, He.
  rewrite (new_log_app w w' _ Hl). simpl.
  destruct (decide _) as [_|Hn]; [| by destruct Hn].
  destruct (decide _) as [[_ ?]|_]; [done |].
  destruct (decide _) as [[_ ?]|_]; [done |].
  rewrite crlf_terminated in Hout, Herr.
  destruct (read_from_lines FdStdout b _ "" (crlf_unbroken lines Hlines)
              eq_refl Hout) as [Hon Hoall].
  destruct (read_from_lines FdStderr b _ "" (crlf_unbroken elines Helines)
              eq_refl Herr) as [Hen Heall].
  rewrite Hd, Hw, Hi, Hr, Ho, He.
  set (n := length (complete_lines (read_from FdStdout b))) in *.
  set (m := length (complete_lines (read_from FdStderr b))) in *.
  rewrite <- !fmap_take in Hon, Hen.
  split; [by rewrite Hon at 1 |].
  split.
  { unfold terminated. rewrite Hon.
    change (map (fun l => l +:+ nl) ((fun l => l +:+ cr) <$> take n lines))
      with (map (fun l => l +:+ nl) (map (fun l => l +:+ cr) (take n lines))).
    rewrite map_map. by destruct (bool_decide _). }
  split; [by rewrite Hen at 1 |]. split; [done |].
  split; intros Hdr.
  - unfold n. by rewrite (Hoall Hdr), length_map.
  - unfold m. by rewrite (Heall Hdr), length_map.
Qed.

End Multiplexer.

(** *** The properties on the sample children *)

Lemma systemCall_return_code_witness :
  let call := systemCall (Samples.always Samples.failing) "make" true None Samples.w0 in
  let collected :=
    PyStr.join (terminated (complete_lines
                  (stream_data FdStdout (new_calls Samples.w0 call.2)))) in
  (b_returncode Samples.failing = 0 -> call.1 = Ok collected)
  /\ (b_returncode Samples.failing <> 0 ->
      call.1 = Raise (RuntimeError {| returncode := b_returncode Samples.failing;
                                      cmd := "make";
                                      output := collected |})).
Proof.
  apply (systemCall_return_code (Samples.always Samples.failing) Samples.w0
           "make" true None Samples.failing);
    [reflexivity | apply surjective_pairing].
Defined.


(** The passes drain the pipes of the sample children that alone write
    to their pipes, and not that of the one that leaves a writer
    behind. *)
Example drained_samples :
  drained FdStdout Samples.printer /\ drained FdStderr Samples.printer
  /\ drained FdStdout Samples.failing /\ drained FdStdout Samples.dos_both
  /\ drained FdStderr Samples.dos_both
  /\ (stalls (b_stdout Samples.late) = 3
      /\ reports FdStdout (polls_of Samples.late) = 3)%nat.
Proof. unfold drained. vm_compute. repeat split; lia. Qed.


Lemma systemCall_stdout_stderr_witness :
  let call := systemCall (Samples.always Samples.failing) "make" true
                (Some (Logger "build")) Samples.w0 in
  let out_lines := complete_lines (read_from FdStdout Samples.failing) in
  let err_lines := complete_lines (read_from FdStderr Samples.failing) in
  stream_data FdStdout (new_calls Samples.w0 call.2) = read_from FdStdout Samples.failing
  /\ stream_data FdStderr (new_calls Samples.w0 call.2) = read_from FdStderr Samples.failing
  /\ level_msgs (Logger "build") DEBUG (new_log Samples.w0 call.2)
     = call_banner "make" true :: out_lines
  /\ captured call.1 = Some (PyStr.join (terminated out_lines))
  /\ level_msgs (Logger "build") WARNING (new_log Samples.w0 call.2) = err_lines
  /\ level_msgs (Logger "build") INFO (new_log Samples.w0 call.2) = []
  /\ Forall (fun rec => lr_logger rec = Logger "build") (new_log Samples.w0 call.2)
  /\ (exists rest, pipe_data (b_stdout Samples.failing)
                   = read_from FdStdout Samples.failing +:+ rest)
  /\ (exists rest, pipe_data (b_stderr Samples.failing)
                   = read_from FdStderr Samples.failing +:+ rest)
  /\ (drained FdStdout Samples.failing
      -> read_from FdStdout Samples.failing = pipe_data (b_stdout Samples.failing))
  /\ (drained FdStderr Samples.failing
      -> read_from FdStderr Samples.failing = pipe_data (b_stderr Samples.failing)).
Proof.
  apply (systemCall_stdout_stderr (Samples.always Samples.failing) Samples.w0
           "make" true (Some (Logger "build")) Samples.failing);
    [reflexivity | apply surjective_pairing].
Defined.

(** What the child of that call wrote, and what the call made of it. *)
Example failing_call :
  let call := systemCall (Samples.always Samples.failing) "make" true
                (Some (Logger "build")) Samples.w0 in
  pipe_data (b_stdout Samples.failing) = "a" +:+ nl +:+ "b" +:+ nl +:+ "partial"
  /\ pipe_data (b_stderr Samples.failing) = "err" +:+ nl
  /\ read_from FdStdout Samples.failing = pipe_data (b_stdout Samples.failing)
  /\ read_from FdStderr Samples.failing = pipe_data (b_stderr Samples.failing)
  /\ level_msgs (Logger "build") DEBUG (new_log Samples.w0 call.2)
     = [call_banner "make" true; "a"; "b"]
  /\ level_msgs (Logger "build") WARNING (new_log Samples.w0 call.2) = ["err"]
  /\ captured call.1 = Some ("a" +:+ nl +:+ "b" +:+ nl).
Proof. by vm_compute. Qed.


Lemma systemCall_keeps_carriage_return_witness :
  let call := systemCall (Samples.always Samples.dos_both) "type" true None Samples.w0 in
  let n := length (complete_lines (read_from FdStdout Samples.dos_both)) in
  let m := length (complete_lines (read_from FdStderr Samples.dos_both)) in
  level_msgs AppLog DEBUG (new_log Samples.w0 call.2)
  = call_banner "type" true :: map (fun l => l +:+ cr) (take n ["one"; "two"])
  /\ captured call.1
     = Some (PyStr.join (map (fun l => (l +:+ cr) +:+ nl) (take n ["one"; "two"])))
  /\ level_msgs AppLog WARNING (new_log Samples.w0 call.2)
     = map (fun l => l +:+ cr) (take m ["oops"])
  /\ level_msgs AppLog INFO (new_log Samples.w0 call.2) = []
  /\ (drained FdStdout Samples.dos_both -> n = length ["one"; "two"])
  /\ (drained FdStderr Samples.dos_both -> m = length ["oops"]).
Proof.
  apply (systemCall_keeps_carriage_return (Samples.always Samples.dos_both)
           Samples.w0 "type" true None Samples.dos_both _ _ ["one"; "two"] ["oops"]);
    [reflexivity | apply surjective_pairing | by repeat constructor
    | by repeat constructor | reflexivity | reflexivity].
Defined.

(** What that call logged and handed back, spelled out. *)
Example dos_both_call :
  let call := systemCall (Samples.always Samples.dos_both) "type" true None Samples.w0 in
  call.1 = Ok ("one" +:+ cr +:+ nl +:+ "two" +:+ cr +:+ nl)
  /\ new_log Samples.w0 call.2
     = [LogRecord AppLog DEBUG "System call [sh:True]: type";
        LogRecord AppLog DEBUG ("one" +:+ cr);
        LogRecord AppLog DEBUG ("two" +:+ cr);
        LogRecord AppLog WARNING ("oops" +:+ cr)].
Proof. by vm_compute. Qed.

(** What the sample calls give, spelled out. *)
Example printer_call :
  let call := systemCall (Samples.always Samples.printer) "printf" true None Samples.w0 in
  call.1 = Ok ("a" +:+ nl +:+ "b" +:+ nl)
  /\ new_log Samples.w0 call.2
     = [LogRecord AppLog DEBUG "System call [sh:True]: printf";
        LogRecord AppLog DEBUG "a";
        LogRecord AppLog WARNING "err";
        LogRecord AppLog DEBUG "b"].
Proof. by vm_compute. Qed.

Example dos_call :
  let call := systemCall (Samples.always Samples.dos) "type" true None Samples.w0 in
  call.1 = Ok ("one" +:+ cr +:+ nl +:+ "two" +:+ cr +:+ nl)
  /\ level_msgs AppLog DEBUG (new_log Samples.w0 call.2)
     = ["System call [sh:True]: type"; "one" +:+ cr; "two" +:+ cr].
Proof. by vm_compute. Qed.

(** ** The mount-scoped executor: what each phase starts *)

Section Executor.

Variable os : list os_call -> filesystem -> string -> bool -> spawn_result.

Lemma ensureDirectory_calls dirpath w :
  exists h, w_history (ensureDirectory dirpath w).2 = w_history w ++ h
            /\ spawned h = [].
Proof.
  unfold ensureDirectory. destruct (path.isdir dirpath (w_fs w)).
  - exists []. by rewrite app_nil_r.
  - exists [Makedirs dirpath]. unfold makedirs.
    by repeat case_match.
Qed.

(** A mount starts its command and nothing else, or nothing at all when
    it fails before that. *)
Lemma mount_calls dev mountpoint flags log w :
  exists h,
    w_history (mount os dev mountpoint flags log w).2 = w_history w ++ h
    /\ (spawned h = [(mount_command dev mountpoint flags, true)]
        \/ spawned h = [] /\ exists e, (mount os dev mountpoint flags log w).1 = Raise e).
Proof.
  unfold mount, bind.
  destruct (ensureDirectory_calls mountpoint w) as (h1 & Hh1 & Hs1).
  destruct (ensureDirectory mountpoint w) as [[[]|e] w1]; simpl in * |- *.
  - destruct (systemCall_calls os w1 (mount_command dev mountpoint flags) true log)
      as (h2 & Hh2 & Hs2).
    destruct (systemCall os _ true log w1) as [[s|e] w2]; simpl in *;
      exists (h1 ++ Popen (mount_command dev mountpoint flags) true :: h2);
      rewrite Hh2, Hh1, <- app_assoc, spawned_app, Hs1; simpl; rewrite Hs2;
      by split; [| left].
  - exists h1. split; [done |]. right. by eauto.
Qed.

Lemma umount_calls mountpoint flags log w :
  exists h,
    w_history (umount os mountpoint flags log w).2
    = w_history w ++ Popen (umount_command mountpoint flags) true :: h
    /\ spawned h = [].
Proof.
  unfold umount, bind.
  destruct (systemCall_calls os w (umount_command mountpoint flags) true log)
    as (h & Hh & Hs).
  destruct (systemCall os _ true log w) as [[s|e] w1]; simpl in *; by exists h.
Qed.

(** An [umount] that raises a [CalledProcessError] raises that of its own
    command, with a return code other than 0. *)
Lemma umount_error mountpoint flags log w c :
  (umount os mountpoint flags log w).1 = Raise (RuntimeError c) ->
  cmd c = umount_command mountpoint flags /\ returncode c <> 0.
Proof.
  unfold umount, bind.
  destruct (os (w_history w) (w_fs w) (umount_command mountpoint flags) true)
    as [b|msg] eqn:Hos.
  - rewrite (systemCall_started os w _ true log b Hos). simpl.
    destruct (bool_decide (b_returncode b ≠ 0)) eqn:Hrc; simpl; [| done].
    apply bool_decide_eq_true in Hrc. by intros [= <-].
  - unfold systemCall. cbv zeta.
    change (os (w_history (log_to (default AppLog log) DEBUG
                   (call_banner (umount_command mountpoint flags) true) w))
               (w_fs (log_to (default AppLog log) DEBUG
                   (call_banner (umount_command mountpoint flags) true) w))
               (umount_command mountpoint flags) true)
      with (os (w_history w) (w_fs w) (umount_command mountpoint flags) true).
    by rewrite Hos.
Qed.

Lemma exec_chrooted_calls chrootDir cmd sh lg w :
  exists h,
    w_history (exec_chrooted os chrootDir cmd sh lg w).2
    = w_history w ++ Popen (chroot_command chrootDir cmd) sh :: h
    /\ spawned h = [].
Proof.
  unfold exec_chrooted, bind.
  exact (systemCall_calls os
           (log_to lg DEBUG "Execute chrooted command ..." w)
           (chroot_command chrootDir cmd) sh (Some lg)).
Qed.

(** The mounts start a prefix of their plan, all of it when none fails. *)
Lemma mount_pseudo_fs_calls chrootDir w :
  exists h,
    w_history (mount_pseudo_fs os chrootDir w).2 = w_history w ++ h
    /\ spawned h `prefix_of` mount_plan chrootDir
    /\ ((mount_pseudo_fs os chrootDir w).1 = Ok tt ->
        spawned h = mount_plan chrootDir).
Proof.
  unfold mount_pseudo_fs, mount_plan, bind.
  set (c1 := mount_command "proc" _ _). set (c2 := mount_command "/sys" _ _).
  set (c3 := mount_command "/dev" _ _).
  destruct (mount_calls "proc" (path.join chrootDir ["proc"]) "-t proc" None w)
    as (h1 & Hh1 & Hs1). fold c1 in Hs1.
  destruct (mount os "proc" _ _ None w) as [[[]|e1] w1]; simpl in Hh1, Hs1 |- *.
  2: { exists h1. repeat split; [done | | done].
       destruct Hs1 as [->| [-> _]];
         [by exists [(c2, true); (c3, true)] | by eexists]. }
  destruct Hs1 as [Hs1 | [_ [e ?]]]; [| done].
  destruct (mount_calls "/sys" (path.join chrootDir ["sys"]) "--rbind" None w1)
    as (h2 & Hh2 & Hs2). fold c2 in Hs2.
  destruct (mount os "/sys" _ _ None w1) as [[[]|e2] w2]; simpl in Hh2, Hs2 |- *.
  2: { exists (h1 ++ h2). rewrite Hh2, Hh1, <- app_assoc, spawned_app, Hs1.
       repeat split; [| done].
       destruct Hs2 as [->| [-> _]];
         [by exists [(c3, true)] | by exists [(c2, true); (c3, true)]]. }
  destruct Hs2 as [Hs2 | [_ [e ?]]]; [| done].
  destruct (mount_calls "/dev" (path.join chrootDir ["dev"]) "--rbind" None w2)
    as (h3 & Hh3 & Hs3). fold c3 in Hs3.
  exists (h1 ++ h2 ++ h3).
  rewrite Hh3, Hh2, Hh1, <- !app_assoc, !spawned_app, Hs1, Hs2.
  destruct (mount os "/dev" _ _ None w2) as [[[]|e3] w3]; simpl in Hs3 |- *.
  - destruct Hs3 as [-> | [_ [e ?]]]; [| done]. by repeat split.
  - repeat split; [| done].
    destruct Hs3 as [->| [-> _]]; [done | by exists [(c3, true)]].
Qed.

(** The unmounts start a prefix of their plan that is not empty, all of
    it when none fails. *)
Lemma umount_pseudo_fs_calls chrootDir w :
  exists h,
    w_history (umount_pseudo_fs os chrootDir w).2 = w_history w ++ h
    /\ spawned h `prefix_of`
         umount_plan chrootDir
           (path.exists_ (path.join chrootDir ["dev"; "pts"]) (w_fs w))
    /\ spawned h <> []
    /\ ((umount_pseudo_fs os chrootDir w).1 = Ok tt ->
        spawned h
        = umount_plan chrootDir
            (path.exists_ (path.join chrootDir ["dev"; "pts"]) (w_fs w))).
Proof.
  unfold umount_pseudo_fs, umount_plan, bind.
  set (c0 := umount_command (path.join chrootDir ["dev"; "pts"]) "-lf").
  set (c1 := umount_command (path.join chrootDir ["dev"]) "-lf").
  set (c2 := umount_command (path.join chrootDir ["sys"]) "-lf").
  set (c3 := umount_command (path.join chrootDir ["proc"]) "-lf").
  assert (forall w0 : world, exists h,
    w_history
      (match umount os (path.join chrootDir ["dev"]) "-lf" None w0 with
       | (Ok _, w1) =>
           match umount os (path.join chrootDir ["sys"]) "-lf" None w1 with
           | (Ok _, w2) => umount os (path.join chrootDir ["proc"]) "-lf" None w2
           | (Raise e, w2) => (Raise e, w2)
           end
       | (Raise e, w1) => (Raise e, w1)
       end).2 = w_history w0 ++ h
    /\ spawned h `prefix_of` [(c1, true); (c2, true); (c3, true)]
    /\ spawned h <> []
    /\ ((match umount os (path.join chrootDir ["dev"]) "-lf" None w0 with
         | (Ok _, w1) =>
             match umount os (path.join chrootDir ["sys"]) "-lf" None w1 with
             | (Ok _, w2) => umount os (path.join chrootDir ["proc"]) "-lf" None w2
             | (Raise e, w2) => (Raise e, w2)
             end
         | (Raise e, w1) => (Raise e, w1)
         end).1 = Ok tt ->
        spawned h = [(c1, true); (c2, true); (c3, true)])) as Htail.
  { intros w0.
    destruct (umount_calls (path.join chrootDir ["dev"]) "-lf" None w0)
      as (h1 & Hh1 & Hs1). fold c1 in Hh1.
    destruct (umount os (path.join chrootDir ["dev"]) "-lf" None w0)
      as [[[]|e1] w1]; simpl in * |- *.
    2: { exists (Popen c1 true :: h1). simpl. rewrite Hs1.
         repeat split; [done | by exists [(c2, true); (c3, true)] | done | done]. }
    destruct (umount_calls (path.join chrootDir ["sys"]) "-lf" None w1)
      as (h2 & Hh2 & Hs2). fold c2 in Hh2.
    destruct (umount os (path.join chrootDir ["sys"]) "-lf" None w1)
      as [[[]|e2] w2]; simpl in * |- *.
    2: { exists (Popen c1 true :: h1 ++ Popen c2 true :: h2).
         rewrite Hh2, Hh1, <- app_assoc. simpl.
         rewrite spawned_app, Hs1. simpl. rewrite Hs2.
         repeat split; [by exists [(c3, true)] | done | done]. }
    destruct (umount_calls (path.join chrootDir ["proc"]) "-lf" None w2)
      as (h3 & Hh3 & Hs3). fold c3 in Hh3.
    exists (Popen c1 true :: h1 ++ Popen c2 true :: h2 ++ Popen c3 true :: h3).
    rewrite Hh3, Hh2, Hh1, <- !app_assoc. simpl.
    rewrite spawned_app, Hs1. simpl. rewrite spawned_app, Hs2. simpl.
    rewrite Hs3. by repeat split. }
  destruct (path.exists_ (path.join chrootDir ["dev"; "pts"]) (w_fs w)).
  - destruct (umount_calls (path.join chrootDir ["dev"; "pts"]) "-lf" None w)
      as (h0 & Hh0 & Hs0). fold c0 in Hh0.
    destruct (umount os (path.join chrootDir ["dev"; "pts"]) "-lf" None w)
      as [[[]|e0] w0]; simpl in * |- *.
    + destruct (Htail w0) as (h & Hh & Hp & Hne & Hall).
      exists (Popen c0 true :: h0 ++ h).
      rewrite Hh, Hh0, <- app_assoc. simpl. rewrite spawned_app, Hs0. simpl.
      repeat split; [| done |].
      * destruct Hp as [k Hk]. exists k. by rewrite Hk.
      * intros Hok. by rewrite (Hall Hok).
    + exists (Popen c0 true :: h0). simpl. rewrite Hs0.
      repeat split; [done | | done | done].
      by exists [(c1, true); (c2, true); (c3, true)].
  - simpl. exact (Htail w).
Qed.

End Executor.

(** ** The mounts and unmounts, step by step *)

Lemma run_steps_succeed (steps : list (M unit)) (w wn : world) :
  succeed steps w = Some wn -> run_steps steps w = (Ok tt, wn).
Proof.
  revert w. induction steps as [|s steps IH]; intros w; simpl.
  - by intros [= ->].
  - unfold bind. destruct (s w) as [[u|e] w0]; [apply IH | done].
Qed.

Lemma run_steps_fail (before after : list (M unit)) (failing : M unit)
    (w wk wn : world) (e : exn) :
  succeed before w = Some wk ->
  failing wk = (Raise e, wn) ->
  run_steps (before ++ failing :: after) w = (Raise e, wn).
Proof.
  revert w. induction before as [|s before IH]; intros w; simpl.
  - intros [= ->] Hf. unfold bind. by rewrite Hf.
  - unfold bind. destruct (s w) as [[u|e0] w0]; [apply IH | done].
Qed.

(** Steps either all succeed, or one of them is the first to raise. *)
Lemma run_steps_cases (steps : list (M unit)) (w : world) :
  (exists wn, succeed steps w = Some wn)
  \/ (exists before failing after wk e wn,
        steps = before ++ failing :: after
        /\ succeed before w = Some wk
        /\ failing wk = (Raise e, wn)).
Proof.
  revert w. induction steps as [|s steps IH]; intros w; simpl.
  - left. by eexists.
  - destruct (s w) as [[u|e] w0] eqn:Hs.
    + destruct (IH w0) as [[wn Hn] | (bf & fl & af & wk & e & wn & -> & Hb & Hf)].
      * left. by exists wn.
      * right. exists (s :: bf), fl, af, wk, e, wn. simpl. by rewrite Hs.
    + right. by exists [], s, steps, w, e, w0.
Qed.

Lemma always_starts_starts (s : M unit) (c : string * bool) :
  always_starts s c -> starts s c.
Proof. intros H w. destruct (H w) as (h & Hh & Hs). exists h. by split; [| left]. Qed.

(** Steps that succeed have started their commands, in order. *)
Lemma succeed_starts (steps : list (M unit)) (plan : list (string * bool))
    (w wk : world) :
  Forall2 starts steps plan ->
  succeed steps w = Some wk ->
  exists h, w_history wk = w_history w ++ h /\ spawned h = plan.
Proof.
  intros Hall. revert w. induction Hall as [|s c steps plan Hs _ IH]; intros w; simpl.
  - intros [= ->]. exists []. by rewrite app_nil_r.
  - destruct (Hs w) as (h1 & Hh1 & Hc).
    destruct (s w) as [[u|e] w0]; [| done]. simpl in Hh1, Hc.
    destruct Hc as [Hc | [_ [e ?]]]; [| done].
    intros Hrest. destruct (IH w0 Hrest) as (h2 & Hh2 & Hp).
    exists (h1 ++ h2). by rewrite Hh2, Hh1, <- app_assoc, spawned_app, Hc, Hp.
Qed.

Section Steps.

Variable os : list os_call -> filesystem -> string -> bool -> spawn_result.

Lemma mount_steps_start chrootDir :
  Forall2 starts (mount_steps os chrootDir) (mount_plan chrootDir).
Proof.
  unfold mount_steps, mount_plan.
  repeat (constructor; [intros w; apply mount_calls |]). constructor.
Qed.

Lemma umount_steps_start chrootDir pts :
  Forall2 always_starts (umount_steps os chrootDir pts) (umount_plan chrootDir pts).
Proof.
  assert (forall m, always_starts (umount os m "-lf" None)
                      (umount_command m "-lf", true)) as Hone.
  { intros m w. destruct (umount_calls os m "-lf" None w) as (h & Hh & Hs).
    exists (Popen (umount_command m "-lf") true :: h). simpl. by rewrite Hs. }
  unfold umount_steps, umount_plan.
  destruct pts; simpl; repeat (constructor; [apply Hone |]); constructor.
Qed.

Lemma mount_pseudo_fs_steps chrootDir w :
  mount_pseudo_fs os chrootDir w = run_steps (mount_steps os chrootDir) w.
Proof.
  unfold mount_pseudo_fs, mount_steps. simpl. unfold bind.
  destruct (mount os "proc" _ _ None w) as [[[]|e1] w1]; [| done].
  destruct (mount os "/sys" _ _ None w1) as [[[]|e2] w2]; [| done].
  by destruct (mount os "/dev" _ _ None w2) as [[[]|e3] w3].
Qed.

Lemma umount_pseudo_fs_steps chrootDir w :
  umount_pseudo_fs os chrootDir w
  = run_steps
      (umount_steps os chrootDir
         (path.exists_ (path.join chrootDir ["dev"; "pts"]) (w_fs w))) w.
Proof.
  unfold umount_pseudo_fs, umount_steps, bind.
  assert (forall w0,
    match umount os (path.join chrootDir ["dev"]) "-lf" None w0 with
    | (Ok _, w1) =>
        match umount os (path.join chrootDir ["sys"]) "-lf" None w1 with
        | (Ok _, w2) => umount os (path.join chrootDir ["proc"]) "-lf" None w2
        | (Raise e, w2) => (Raise e, w2)
        end
    | (Raise e, w1) => (Raise e, w1)
    end
    = run_steps [umount os (path.join chrootDir ["dev"]) "-lf" None;
                 umount os (path.join chrootDir ["sys"]) "-lf" None;
                 umount os (path.join chrootDir ["proc"]) "-lf" None] w0) as Htail.
  { intros w0. simpl. unfold bind.
    destruct (umount os _ "-lf" None w0) as [[[]|e1] w1]; [| done].
    destruct (umount os _ "-lf" None w1) as [[[]|e2] w2]; [| done].
    by destruct (umount os _ "-lf" None w2) as [[[]|e3] w3]. }
  destruct (path.exists_ _ (w_fs w)).
  - change (run_steps (?a ++ ?b) w) with (bind (umount os (path.join chrootDir ["dev"; "pts"]) "-lf" None) (fun _ => run_steps b) w).
    unfold bind.
    destruct (umount os (path.join chrootDir ["dev"; "pts"]) "-lf" None w)
      as [[[]|e0] w0]; [apply Htail | done].
  - apply Htail.
Qed.

(** The mount phase raises what its first failing mount raises, and ends
    where that mount ends. *)
Lemma mount_failure_step chrootDir w e w1 :
  mount_pseudo_fs os chrootDir w = (Raise e, w1) ->
  exists before failing after wk,
    mount_steps os chrootDir = before ++ failing :: after
    /\ succeed before w = Some wk
    /\ failing wk = (Raise e, w1).
Proof.
  rewrite mount_pseudo_fs_steps.
  destruct (run_steps_cases (mount_steps os chrootDir) w)
    as [[wn Hn] | (bf & fl & af & wk & e0 & wn & Hs & Hb & Hf)].
  - by rewrite (run_steps_succeed _ _ _ Hn).
  - rewrite Hs, (run_steps_fail bf af fl w wk wn e0 Hb Hf).
    intros [= <- <-]. by exists bf, fl, af, wk.
Qed.

End Steps.

(** ** The mount-scoped executor: properties *)

Section ExecutorProperties.

Variable os : list os_call -> filesystem -> string -> bool -> spawn_result.

(** C1, as the code has it. When one of the three mounts fails, the
    mounts before it having succeeded, the error of that mount is what
    the mount phase raises and what the caller gets, and the world is
    left as the failing mount left it: the commands started are those of
    the mounts before it and at most that of the failing mount, and no
    later mount, no unmount and no chrooted command is started. *)
Theorem mount_failure_reported chrootDir cmd sh log w before failing after wk e w1 :
  mount_steps os chrootDir = before ++ failing :: after ->
  succeed before w = Some wk ->
  failing wk = (Raise e, w1) ->
  mount_pseudo_fs os chrootDir w = (Raise e, w1)
  /\ chrootedSystemCall os chrootDir cmd sh true log w = (Raise e, w1)
  /\ spawned (new_calls w wk) = take (length before) (mount_plan chrootDir)
  /\ spawned (new_calls wk w1)
     `prefix_of` take 1 (drop (length before) (mount_plan chrootDir))
  /\ spawned (new_calls w w1) `prefix_of` mount_plan chrootDir.
Proof.
  intros Hsteps Hbefore Hfail.
  assert (mount_pseudo_fs os chrootDir w = (Raise e, w1)) as Hm.
  { rewrite mount_pseudo_fs_steps, Hsteps. by apply (run_steps_fail _ _ _ _ wk). }
  split; [done |]. split.
  { unfold chrootedSystemCall, bind. cbv zeta. by rewrite Hm. }
  pose proof (mount_steps_start os chrootDir) as Hall. rewrite Hsteps in Hall.
  apply Forall2_app_inv_l in Hall as (p1 & p2 & Hp1 & Hp2 & Hplan).
  apply Forall2_cons_inv_l in Hp2 as (c & p3 & Hc & _ & ->).
  destruct (succeed_starts before p1 w wk Hp1 Hbefore) as (h & Hh & Hs).
  destruct (Hc wk) as (h' & Hh' & Hs'). rewrite Hfail in Hh', Hs'. simpl in Hh', Hs'.
  pose proof (Forall2_length _ _ _ Hp1) as Hlen.
  rewrite Hplan, Hlen, take_app_length, drop_app_length. simpl.
  rewrite (new_calls_app w wk h Hh), (new_calls_app wk w1 h' Hh').
  assert (w_history w1 = w_history w ++ h ++ h') as Hw1
    by (by rewrite Hh', Hh, <- app_assoc).
  rewrite (new_calls_app w w1 _ Hw1), spawned_app, Hs.
  split; [done |].
  destruct Hs' as [-> | [-> _]].
  - split; [done |]. exists p3. by rewrite <- app_assoc.
  - split; [by exists [c] |]. exists (c :: p3). by rewrite app_nil_r.
Qed.

(** C2, as the code has it. After the mounts, what the caller gets is the
    error of the unmounts when they raise one, whatever the chrooted
    command returned or raised, and the outcome of the chrooted command
    when they raise none.  A [CalledProcessError] of the unmounts is that
    of one of their commands, with a return code other than 0. *)
Theorem unmount_error_reported chrootDir command sh log w w1 r w2 u w3 :
  mount_pseudo_fs os chrootDir w = (Ok tt, w1) ->
  exec_chrooted os chrootDir command sh (default AppLog log) w1 = (r, w2) ->
  umount_pseudo_fs os chrootDir w2 = (u, w3) ->
  chrootedSystemCall os chrootDir command sh true log w
  = (match u with Ok _ => r | Raise e => Raise e end, w3)
  /\ (forall c, u = Raise (RuntimeError c) ->
      (cmd c, true) ∈ umount_plan chrootDir true /\ returncode c <> 0).
Proof.
  intros Hm He Hu. split.
  - unfold chrootedSystemCall, bind, try_finally. cbv zeta.
    rewrite Hm, He, Hu. by destruct u.
  - intros c ->. revert Hu. unfold umount_pseudo_fs, umount_plan, bind.
    assert (forall m wa wb,
      umount os m "-lf" None wa = (Raise (RuntimeError c), wb) ->
      cmd c = umount_command m "-lf" /\ returncode c <> 0) as Hone.
    { intros m wa wb H. apply (umount_error os m "-lf" None wa). by rewrite H. }
    destruct (path.exists_ _ (w_fs w2)).
    + destruct (umount os (path.join chrootDir ["dev"; "pts"]) "-lf" None w2)
        as [[[]|e0] wa] eqn:H0.
      2: { intros [= Hraise _]. rewrite Hraise in H0.
           pose proof (Hone _ _ _ H0) as [Hc ?]. rewrite Hc.
           split; [by repeat constructor | done]. }
      destruct (umount os (path.join chrootDir ["dev"]) "-lf" None wa)
        as [[[]|e1] wb] eqn:H1.
      2: { intros [= Hraise _]. rewrite Hraise in H1.
           pose proof (Hone _ _ _ H1) as [Hc ?]. rewrite Hc.
           split; [by repeat constructor | done]. }
      destruct (umount os (path.join chrootDir ["sys"]) "-lf" None wb)
        as [[[]|e2] wc] eqn:H2.
      2: { intros [= Hraise _]. rewrite Hraise in H2.
           pose proof (Hone _ _ _ H2) as [Hc ?]. rewrite Hc.
           split; [by repeat constructor | done]. }
      intros H3. pose proof (Hone _ _ _ H3) as [Hc ?]. rewrite Hc.
      split; [by repeat constructor | done].
    + destruct (umount os (path.join chrootDir ["dev"]) "-lf" None w2)
        as [[[]|e1] wb] eqn:H1.
      2: { intros [= Hraise _]. rewrite Hraise in H1.
           pose proof (Hone _ _ _ H1) as [Hc ?]. rewrite Hc.
           split; [by repeat constructor | done]. }
      destruct (umount os (path.join chrootDir ["sys"]) "-lf" None wb)
        as [[[]|e2] wc] eqn:H2.
      2: { intros [= Hraise _]. rewrite Hraise in H2.
           pose proof (Hone _ _ _ H2) as [Hc ?]. rewrite Hc.
           split; [by repeat constructor | done]. }
      intros H3. pose proof (Hone _ _ _ H3) as [Hc ?]. rewrite Hc.
      split; [by repeat constructor | done].
Qed.

(** C6, as the code has it. After the mounts, and whatever the chrooted
    command returned or raised, the unmounts are run in the order
    [dev/pts] (when it exists), [dev], [sys], [proc], each with [-lf],
    and the first of them that fails ends the call: the unmounts started
    are the first ones of the plan, at least one, and all of them when
    no unmount fails.  When every unmount succeeds, the call ends after
    the last with the outcome of the chrooted command; when one raises,
    the unmounts before it having succeeded, the call ends with its
    error where it ends, after its command and with no later unmount
    started. *)
Theorem teardown_order chrootDir cmd sh log w w1 r w2 :
  mount_pseudo_fs os chrootDir w = (Ok tt, w1) ->
  exec_chrooted os chrootDir cmd sh (default AppLog log) w1 = (r, w2) ->
  let call := chrootedSystemCall os chrootDir cmd sh true log w in
  let w3 := call.2 in
  let pts := path.exists_ (path.join chrootDir ["dev"; "pts"]) (w_fs w2) in
  let plan := umount_plan chrootDir pts in
  let steps := umount_steps os chrootDir pts in
  spawned (new_calls w2 w3) `prefix_of` plan
  /\ spawned (new_calls w2 w3) <> []
  /\ ((umount_pseudo_fs os chrootDir w2).1 = Ok tt ->
      spawned (new_calls w2 w3) = plan)
  /\ (forall wn,
        succeed steps w2 = Some wn ->
        call = (r, wn) /\ spawned (new_calls w2 wn) = plan)
  /\ (forall before failing after wk e wn,
        steps = before ++ failing :: after ->
        succeed before w2 = Some wk ->
        failing wk = (Raise e, wn) ->
        call = (Raise e, wn)
        /\ spawned (new_calls w2 wn) = take (S (length before)) plan).
Proof.
  intros Hm He. cbv zeta.
  destruct (umount_pseudo_fs_calls os chrootDir w2) as (h & Hh & Hp & Hne & Hall).
  assert (forall u wn,
    umount_pseudo_fs os chrootDir w2 = (u, wn) ->
    chrootedSystemCall os chrootDir cmd sh true log w
    = (match u with Ok _ => r | Raise e => Raise e end, wn)) as Hcall.
  { intros u wn Hu. unfold chrootedSystemCall, bind, try_finally. cbv zeta.
    rewrite Hm, He, Hu. by destruct u. }
  rewrite (Hcall _ _ (surjective_pairing _)). simpl.
  rewrite (new_calls_app w2 _ h Hh).
  split; [done |]. split; [done |]. split; [done |].
  pose proof (umount_steps_start os chrootDir
                (path.exists_ (path.join chrootDir ["dev"; "pts"]) (w_fs w2)))
    as Hstart.
  split.
  - intros wn Hn.
    pose proof (run_steps_succeed _ _ _ Hn) as Hrun.
    rewrite <- umount_pseudo_fs_steps in Hrun.
    rewrite Hrun. split; [done |].
    destruct (succeed_starts _ _ w2 wn
                (Forall2_impl _ _ _ _ Hstart always_starts_starts) Hn)
      as (hn & Hhn & Hsn).
    by rewrite (new_calls_app w2 wn hn Hhn).
  - intros before failing after wk e wn Hsteps Hbefore Hfail.
    pose proof (run_steps_fail before after failing w2 wk wn e Hbefore Hfail)
      as Hrun.
    rewrite <- Hsteps, <- umount_pseudo_fs_steps in Hrun.
    rewrite Hrun. split; [done |].
    rewrite Hsteps in Hstart.
    apply Forall2_app_inv_l in Hstart as (p1 & p2 & Hp1 & Hp2 & Hplan).
    apply Forall2_cons_inv_l in Hp2 as (c & p3 & Hc & _ & ->).
    destruct (succeed_starts before p1 w2 wk
                (Forall2_impl _ _ _ _ Hp1 always_starts_starts) Hbefore)
      as (hk & Hhk & Hsk).
    destruct (Hc wk) as (h' & Hh' & Hs'). rewrite Hfail in Hh'. simpl in Hh'.
    assert (w_history wn = w_history w2 ++ hk ++ h') as Hwn
      by (by rewrite Hh', Hhk, <- app_assoc).
    rewrite (new_calls_app w2 wn _ Hwn), spawned_app, Hsk, Hs', Hplan.
    rewrite (Forall2_length _ _ _ Hp1).
    replace (S (length p1)) with (length (p1 ++ [c]))
      by (rewrite length_app; simpl; lia).
    by rewrite (cons_middle c p1 p3), app_assoc, take_app_length.
Qed.

(** C8, as the code has it. Besides the mounts before it and the unmounts
    after it, a chrooted call starts one command: the string
    ['chroot ' + chrootDir + ' ' + cmd], with the shell flag [sh] that the
    caller gave. *)
Theorem chrooted_command chrootDir cmd sh mountPseudoFs log w :
  (mountPseudoFs = true -> (mount_pseudo_fs os chrootDir w).1 = Ok tt) ->
  exists ups,
    spawned (new_calls w
               (chrootedSystemCall os chrootDir cmd sh mountPseudoFs log w).2)
    = (if mountPseudoFs then mount_plan chrootDir else [])
      ++ ("chroot " +:+ chrootDir +:+ " " +:+ cmd, sh) :: ups
    /\ exists pts,
         ups `prefix_of` (if mountPseudoFs then umount_plan chrootDir pts else []).
Proof.
  intros Hm. unfold chrootedSystemCall, bind, try_finally. cbv zeta.
  destruct mountPseudoFs.
  - specialize (Hm eq_refl).
    destruct (mount_pseudo_fs_calls os chrootDir w) as (h1 & Hh1 & _ & Hs1).
    specialize (Hs1 Hm).
    destruct (mount_pseudo_fs os chrootDir w) as [[[]|?] w1]; [| done].
    simpl in Hh1.
    destruct (exec_chrooted_calls os chrootDir cmd sh (default AppLog log) w1)
      as (h2 & Hh2 & Hs2).
    destruct (exec_chrooted os chrootDir cmd sh (default AppLog log) w1)
      as [r w2]. simpl in Hh2.
    destruct (umount_pseudo_fs_calls os chrootDir w2) as (h3 & Hh3 & Hp & _).
    exists (spawned h3). split; [| by eexists].
    assert (w_history
              (match umount_pseudo_fs os chrootDir w2 with
               | (Ok _, wb) => (r, wb)
               | (Raise e, wb) => (Raise e, wb)
               end).2
            = w_history w ++ h1 ++ Popen (chroot_command chrootDir cmd) sh :: h2 ++ h3)
      as Hh.
    { destruct (umount_pseudo_fs os chrootDir w2) as [[] ?]; simpl in *;
        by rewrite Hh3, Hh2, Hh1, <- !app_assoc. }
    rewrite (new_calls_app w _ _ Hh), spawned_app, Hs1. simpl.
    by rewrite spawned_app, Hs2.
  - simpl.
    destruct (exec_chrooted_calls os chrootDir cmd sh (default AppLog log) w)
      as (h2 & Hh2 & Hs2).
    destruct (exec_chrooted os chrootDir cmd sh (default AppLog log) w)
      as [r w2]. simpl in *.
    exists []. split; [| by exists false].
    by rewrite (new_calls_app w _ _ Hh2); simpl; rewrite Hs2.
Qed.

End ExecutorProperties.

(** ** [ensureDirectory] *)

Lemma lookup_made (fs : filesystem) (ds : list string) (d : string) :
  d ∈ ds -> foldr (fun d m => <[d := Dir]> m) fs ds !! d = Some Dir.
Proof.
  induction ds as [|d' ds IH]; intros Hd; [by apply elem_of_nil in Hd |].
  simpl. destruct (decide (d' = d)) as [->|Hne].
  - by rewrite lookup_insert_eq.
  - rewrite lookup_insert_ne by done. apply IH.
    apply elem_of_cons in Hd as [->|]; done.
Qed.

(** C9. After a call of [ensureDirectory] that raised nothing, a second
    call on the same path raises nothing and leaves the world as the
    first call left it. *)
Theorem ensureDirectory_idempotent dirpath w w1 :
  ensureDirectory dirpath w = (Ok tt, w1) ->
  ensureDirectory dirpath w1 = (Ok tt, w1).
Proof.
  unfold ensureDirectory.
  destruct (path.isdir dirpath (w_fs w)) eqn:Hdir.
  - intros [= <-]. by rewrite Hdir.
  - intros Hmk.
    assert (path.isdir dirpath (w_fs w1) = true) as ->; [| done].
    revert Hmk. unfold makedirs.
    destruct (bool_decide (dirpath = "")); [done |].
    destruct (path.exists_ dirpath _); [done |].
    destruct (existsb _ _); [done |].
    intros [= <-]. simpl.
    apply bool_decide_eq_true, lookup_made. set_solver.
Qed.

(** *** The properties on the sample systems *)

(** C1 fails as stated: the first mount is made, the second fails, and
    the call ends there, without an unmount of the first. *)
Lemma mount_failure_leaves_first_mount :
  let call := chrootedSystemCall Samples.mount_fails "/r" "ls" true true None
                Samples.w0 in
  (mount Samples.mount_fails "proc" "/r/proc" "-t proc" None Samples.w0).1 = Ok tt
  /\ call.1 = Raise (RuntimeError {| returncode := 32;
                                     cmd := "mount --rbind /sys /r/sys";
                                     output := "" |})
  /\ spawned (new_calls Samples.w0 call.2)
     = [("mount -t proc proc /r/proc", true); ("mount --rbind /sys /r/sys", true)]
  /\ (("umount -lf /r/proc", true) ∉ spawned (new_calls Samples.w0 call.2)).
Proof.
  cbv zeta.
  assert (spawned (new_calls Samples.w0
            (chrootedSystemCall Samples.mount_fails "/r" "ls" true true None
               Samples.w0).2)
          = [("mount -t proc proc /r/proc", true);
             ("mount --rbind /sys /r/sys", true)]) as Hs by (by vm_compute).
  rewrite Hs.
  split; [by vm_compute |]. split; [by vm_compute |]. split; [done |].
  intros Hin. repeat (apply elem_of_cons in Hin as [[=]|Hin]).
  by apply elem_of_nil in Hin.
Qed.

Lemma mount_failure_reported_witness :
  let first := mount Samples.mount_fails "proc" (path.join "/r" ["proc"]) "-t proc" None in
  let second := mount Samples.mount_fails "/sys" (path.join "/r" ["sys"]) "--rbind" None in
  let third := mount Samples.mount_fails "/dev" (path.join "/r" ["dev"]) "--rbind" None in
  let wk := (first Samples.w0).2 in
  let e := RuntimeError {| returncode := 32;
                           cmd := "mount --rbind /sys /r/sys";
                           output := "" |} in
  let w1 := (second wk).2 in
  mount_pseudo_fs Samples.mount_fails "/r" Samples.w0 = (Raise e, w1)
  /\ chrootedSystemCall Samples.mount_fails "/r" "ls" true true None Samples.w0
     = (Raise e, w1)
  /\ spawned (new_calls Samples.w0 wk) = take (length [first]) (mount_plan "/r")
  /\ spawned (new_calls wk w1)
     `prefix_of` take 1 (drop (length [first]) (mount_plan "/r"))
  /\ spawned (new_calls Samples.w0 w1) `prefix_of` mount_plan "/r".
Proof.
  intros first second third wk e w1.
  apply (mount_failure_reported Samples.mount_fails "/r" "ls" true None
           Samples.w0 [first] second [third] wk e w1);
    [reflexivity | by vm_compute | by vm_compute].
Defined.

(** The same call, spelled out: the mount of [/r/proc] is made, that of
    [/r/sys] fails, and nothing is started after it. *)
Example mount_fails_call :
  let call := chrootedSystemCall Samples.mount_fails "/r" "ls" true true None
                Samples.w0 in
  call.1 = Raise (RuntimeError {| returncode := 32;
                                  cmd := "mount --rbind /sys /r/sys";
                                  output := "" |})
  /\ spawned (new_calls Samples.w0 call.2)
     = [("mount -t proc proc /r/proc", true); ("mount --rbind /sys /r/sys", true)].
Proof. by vm_compute. Qed.

(** C2 fails as stated: the chrooted command fails with return code 1,
    the unmount of [/r/dev] fails after it, and the caller gets the error
    of the unmount. *)
Lemma unmount_error_masks_command_error :
  let w1 := (mount_pseudo_fs Samples.both_fail "/r" Samples.w0).2 in
  (mount_pseudo_fs Samples.both_fail "/r" Samples.w0).1 = Ok tt
  /\ (exec_chrooted Samples.both_fail "/r" "ls" true AppLog w1).1
     = Raise (RuntimeError {| returncode := 1;
                              cmd := "chroot /r ls";
                              output := "" |})
  /\ (chrootedSystemCall Samples.both_fail "/r" "ls" true true None Samples.w0).1
     = Raise (RuntimeError {| returncode := 32;
                              cmd := "umount -lf /r/dev";
                              output := "" |}).
Proof. by vm_compute. Qed.

Lemma unmount_error_reported_witness :
  let w1 := (mount_pseudo_fs Samples.both_fail "/r" Samples.w0).2 in
  let ex := exec_chrooted Samples.both_fail "/r" "ls" true AppLog w1 in
  let um := umount_pseudo_fs Samples.both_fail "/r" ex.2 in
  chrootedSystemCall Samples.both_fail "/r" "ls" true true None Samples.w0
  = (match um.1 with Ok _ => ex.1 | Raise e => Raise e end, um.2)
  /\ (forall c, um.1 = Raise (RuntimeError c) ->
      (cmd c, true) ∈ umount_plan "/r" true /\ returncode c <> 0).
Proof.
  intros w1 ex um.
  apply (unmount_error_reported Samples.both_fail "/r" "ls" true None Samples.w0
           w1 ex.1 ex.2 um.1 um.2);
    [by vm_compute | apply surjective_pairing | apply surjective_pairing].
Defined.

(** C6 fails as stated: the mounts are made, the chrooted command
    succeeds, the unmount of [/r/dev] fails, and [/r/sys] and [/r/proc]
    are never unmounted. *)
Lemma teardown_stops_at_failing_unmount :
  let w1 := (mount_pseudo_fs Samples.umount_fails "/r" Samples.w0).2 in
  let ex := exec_chrooted Samples.umount_fails "/r" "ls" true AppLog w1 in
  let w3 := (chrootedSystemCall Samples.umount_fails "/r" "ls" true true None
               Samples.w0).2 in
  (mount_pseudo_fs Samples.umount_fails "/r" Samples.w0).1 = Ok tt
  /\ ex.1 = Ok ""
  /\ spawned (new_calls ex.2 w3) = [("umount -lf /r/dev", true)]
  /\ (("umount -lf /r/sys", true) ∉ spawned (new_calls ex.2 w3))
  /\ (("umount -lf /r/proc", true) ∉ spawned (new_calls ex.2 w3)).
Proof.
  cbv zeta.
  set (l := spawned (new_calls _ _)).
  assert (l = [("umount -lf /r/dev", true)]) as -> by (by vm_compute).
  split; [by vm_compute |]. split; [by vm_compute |]. split; [done |].
  split; intros Hin; repeat (apply elem_of_cons in Hin as [[=]|Hin]);
    by apply elem_of_nil in Hin.
Qed.

Lemma teardown_order_witness :
  let w1 := (mount_pseudo_fs Samples.all_well "/r" Samples.w0).2 in
  let r := (exec_chrooted Samples.all_well "/r" "ls" true AppLog w1).1 in
  let w2 := (exec_chrooted Samples.all_well "/r" "ls" true AppLog w1).2 in
  let call := chrootedSystemCall Samples.all_well "/r" "ls" true true None
                Samples.w0 in
  let w3 := call.2 in
  let pts := path.exists_ (path.join "/r" ["dev"; "pts"]) (w_fs w2) in
  let plan := umount_plan "/r" pts in
  let steps := umount_steps Samples.all_well "/r" pts in
  spawned (new_calls w2 w3) `prefix_of` plan
  /\ spawned (new_calls w2 w3) <> []
  /\ ((umount_pseudo_fs Samples.all_well "/r" w2).1 = Ok tt ->
      spawned (new_calls w2 w3) = plan)
  /\ (forall wn,
        succeed steps w2 = Some wn ->
        call = (r, wn) /\ spawned (new_calls w2 wn) = plan)
  /\ (forall before failing after wk e wn,
        steps = before ++ failing :: after ->
        succeed before w2 = Some wk ->
        failing wk = (Raise e, wn) ->
        call = (Raise e, wn)
        /\ spawned (new_calls w2 wn) = take (S (length before)) plan).
Proof.
  intros w1 r w2.
  apply (teardown_order Samples.all_well "/r" "ls" true None Samples.w0 w1 r w2);
    [by vm_compute | apply surjective_pairing].
Defined.

(** Two teardowns, spelled out.  When all goes well the four unmounts
    succeed one after the other.  When [/r/dev/pts] is there and the
    unmount of [/r/dev] fails, the unmount of [/r/dev/pts] has succeeded
    before it, it raises, and the call ends with its error and without
    the unmounts of [/r/sys] and [/r/proc]. *)
Example teardown_all_well :
  let w1 := (mount_pseudo_fs Samples.all_well "/r" Samples.w0).2 in
  let w2 := (exec_chrooted Samples.all_well "/r" "ls" true AppLog w1).2 in
  let call := chrootedSystemCall Samples.all_well "/r" "ls" true true None
                Samples.w0 in
  succeed (umount_steps Samples.all_well "/r" true) w2 = Some call.2
  /\ call.1 = Ok ""
  /\ spawned (new_calls w2 call.2)
     = [("umount -lf /r/dev/pts", true); ("umount -lf /r/dev", true);
        ("umount -lf /r/sys", true); ("umount -lf /r/proc", true)].
Proof. by vm_compute. Qed.

Example teardown_ends_at_failure :
  let w1 := (mount_pseudo_fs Samples.pts_umount_fails "/r" Samples.w0).2 in
  let w2 := (exec_chrooted Samples.pts_umount_fails "/r" "ls" true AppLog w1).2 in
  let call := chrootedSystemCall Samples.pts_umount_fails "/r" "ls" true true None
                Samples.w0 in
  let wk := (umount Samples.pts_umount_fails "/r/dev/pts" "-lf" None w2).2 in
  let e := RuntimeError {| returncode := 32;
                           cmd := "umount -lf /r/dev";
                           output := "" |} in
  umount_steps Samples.pts_umount_fails "/r" (path.exists_ "/r/dev/pts" (w_fs w2))
  = [umount Samples.pts_umount_fails "/r/dev/pts" "-lf" None]
    ++ umount Samples.pts_umount_fails "/r/dev" "-lf" None
    :: [umount Samples.pts_umount_fails "/r/sys" "-lf" None;
        umount Samples.pts_umount_fails "/r/proc" "-lf" None]
  /\ succeed [umount Samples.pts_umount_fails "/r/dev/pts" "-lf" None] w2 = Some wk
  /\ umount Samples.pts_umount_fails "/r/dev" "-lf" None wk = (Raise e, call.2)
  /\ call.1 = Raise e
  /\ spawned (new_calls w2 call.2)
     = [("umount -lf /r/dev/pts", true); ("umount -lf /r/dev", true)].
Proof.
  cbv zeta. split; [by vm_compute |]. by vm_compute.
Qed.

(** C8 fails as stated: with [sh] false the chrooted command is started
    without a shell. *)
Lemma chrooted_without_shell :
  spawned (new_calls Samples.w0
             (chrootedSystemCall Samples.all_well "/r" "ls" false false None
                Samples.w0).2)
  = [("chroot /r ls", false)].
Proof. by vm_compute. Qed.

Lemma chrooted_command_witness :
  exists ups,
    spawned (new_calls Samples.w0
               (chrootedSystemCall Samples.all_well "/r" "ls" false true None
                  Samples.w0).2)
    = mount_plan "/r" ++ ("chroot " +:+ "/r" +:+ " " +:+ "ls", false) :: ups
    /\ exists pts, ups `prefix_of` umount_plan "/r" pts.
Proof.
  apply (chrooted_command Samples.all_well "/r" "ls" false true None Samples.w0).
  intros _. by vm_compute.
Defined.

Lemma ensureDirectory_idempotent_witness :
  let w1 := (ensureDirectory "/srv/root/proc" Samples.w0).2 in
  ensureDirectory "/srv/root/proc" w1 = (Ok tt, w1).
Proof.
  apply (ensureDirectory_idempotent "/srv/root/proc" Samples.w0).
  by vm_compute.
Defined.

(** What a chrooted call starts when all goes well. *)
Example chrooted_all_well :
  let call := chrootedSystemCall Samples.all_well "/r" "ls" true true None
                Samples.w0 in
  call.1 = Ok ""
  /\ spawned (new_calls Samples.w0 call.2)
     = [("mount -t proc proc /r/proc", true);
        ("mount --rbind /sys /r/sys", true);
        ("mount --rbind /dev /r/dev", true);
        ("chroot /r ls", true);
        ("umount -lf /r/dev/pts", true);
        ("umount -lf /r/dev", true);
        ("umount -lf /r/sys", true);
        ("umount -lf /r/proc", true)].
Proof. by vm_compute. Qed.

(** ** Chain names: properties *)

Lemma replace_back (old new : ascii) (s : string) :
  old <> new ->
  replace new old (replace old new s) = s <-> contains new s = false.
Proof.
  intros Hne. induction s as [|a s IH]; simpl; [done |].
  destruct (decide (a = new)) as [->|Ha].
  - destruct (decide (new = old)) as [|_]; [by subst |].
    destruct (decide (new = new)); [| done].
    split; [| done]. intros [= H _]. by destruct Hne.
  - destruct (decide (a = old)) as [->|Ho].
    + destruct (decide (new = new)); [| done]. rewrite <- IH.
      split; [by intros [= ->] | by intros ->].
    + destruct (decide (a = new)); [done |]. rewrite <- IH.
      split; [by intros [= ->] | by intros ->].
Qed.

Lemma replace_gone (old new : ascii) (s : string) :
  old <> new -> contains old (replace old new s) = false.
Proof.
  intros Hne. induction s as [|a s IH]; simpl; [done |].
  destruct (decide (a = old)) as [->|Ha].
  - by destruct (decide (new = old)) as [->|_].
  - by destruct (decide (a = old)).
Qed.

Lemma replace_length (old new : ascii) (s : string) :
  String.length (replace old new s) = String.length s.
Proof. induction s as [|a s IH]; simpl; [done | by rewrite IH]. Qed.

(** X1. Turning a chain path into a name and back gives the path again
    exactly when the path has no [':']. *)
Theorem chain_path_round_trip (p : string) :
  chainNameToPath (chainPathToName p) = p <-> contains ":"%char p = false.
Proof. by apply replace_back. Qed.

(** X2. Turning a chain name into a path and back gives the name again
    exactly when the name has no ['/']. *)
Theorem chain_name_round_trip (n : string) :
  chainPathToName (chainNameToPath n) = n <-> contains os_sep n = false.
Proof. by apply replace_back. Qed.

(** X3. A chain name made from a path has no ['/'] in it and is as long
    as the path; a path made from a chain name has no [':'] in it. *)
Theorem chain_name_flat (p : string) :
  contains os_sep (chainPathToName p) = false
  /\ String.length (chainPathToName p) = String.length p
  /\ contains ":"%char (chainNameToPath p) = false.
Proof.
  split; [by apply replace_gone |].
  split; [apply replace_length | by apply replace_gone].
Qed.

(** ** [logMultipleLines]: properties *)

Lemma unbroken_append (s t : string) :
  unbroken (s +:+ t) = unbroken s && unbroken t.
Proof.
  unfold unbroken. rewrite !contains_append.
  by destruct (contains NL s), (contains CR s), (contains NL t), (contains CR t).
Qed.

Lemma splitlines_from_unbroken (cur s : string) :
  unbroken s = true ->
  splitlines_from cur s = if decide (cur +:+ s = "") then [] else [cur +:+ s].
Proof.
  revert cur. induction s as [|a s IH]; intros cur Hs; simpl.
  - by rewrite append_nil_r.
  - unfold unbroken in Hs. simpl in Hs.
    destruct (decide (a = NL)); [done |].
    destruct (decide (a = CR)); [by rewrite andb_false_r in Hs |].
    rewrite IH by done. by rewrite append_assoc.
Qed.

Lemma splitlines_from_line (cur l t : string) :
  unbroken l = true ->
  splitlines_from cur (l +:+ String NL t) = (cur +:+ l) :: splitlines_from "" t.
Proof.
  revert cur. induction l as [|a l IH]; intros cur Hl.
  - rewrite append_nil_l, append_nil_r. simpl.
    by destruct (decide (NL = NL)).
  - unfold unbroken in Hl. simpl in Hl. rewrite append_cons. simpl.
    destruct (decide (a = NL)); [done |].
    destruct (decide (a = CR)); [by rewrite andb_false_r in Hl |].
    rewrite IH by done. by rewrite append_assoc.
Qed.

Lemma splitlines_from_crlf_line (cur l t : string) :
  unbroken l = true ->
  splitlines_from cur (l +:+ String CR (String NL t))
  = (cur +:+ l) :: splitlines_from "" t.
Proof.
  revert cur. induction l as [|a l IH]; intros cur Hl.
  - rewrite append_nil_l, append_nil_r. simpl.
    destruct (decide (CR = NL)); [done |].
    destruct (decide (CR = CR)); [| done].
    by destruct (decide (NL = NL)).
  - unfold unbroken in Hl. simpl in Hl. rewrite append_cons. simpl.
    destruct (decide (a = NL)); [done |].
    destruct (decide (a = CR)); [by rewrite andb_false_r in Hl |].
    rewrite IH by done. by rewrite append_assoc.
Qed.

Lemma splitlines_written (ls : list string) (rest : string) :
  Forall (fun l => unbroken l = true) ls ->
  unbroken rest = true ->
  splitlines (PyStr.join (terminated ls) +:+ rest)
  = ls ++ (if decide (rest = "") then [] else [rest]).
Proof.
  intros Hls Hrest. unfold splitlines.
  induction Hls as [|l ls Hl _ IH]; simpl.
  - by rewrite splitlines_from_unbroken.
  - unfold nl. rewrite !append_assoc, append_cons, append_nil_l.
    by rewrite splitlines_from_line, IH.
Qed.

Lemma crlf_append (l t : string) :
  (l +:+ cr +:+ nl) +:+ t = l +:+ String CR (String NL t).
Proof. unfold cr, nl. by rewrite !append_assoc. Qed.

Lemma splitlines_crlf (ls : list string) :
  Forall (fun l => unbroken l = true) ls ->
  splitlines (PyStr.join (map (fun l => l +:+ cr +:+ nl) ls)) = ls.
Proof.
  intros Hls. unfold splitlines.
  induction Hls as [|l ls Hl _ IH]; simpl; [done |].
  rewrite crlf_append, splitlines_from_crlf_line by done. by rewrite IH.
Qed.

Lemma splitlines_from_all_unbroken (cur s : string) :
  unbroken cur = true ->
  Forall (fun l => unbroken l = true) (splitlines_from cur s).
Proof.
  revert cur. induction s as [|a s IH]; intros cur Hcur; simpl.
  - destruct (decide (cur = "")); by repeat constructor.
  - destruct (decide (a = NL)); [constructor; [done | by apply IH] |].
    destruct (decide (a = CR)).
    + destruct s as [|b s]; [by repeat constructor |].
      destruct (decide (b = NL)); (constructor; [done |]).
      * simpl in IH. specialize (IH "" eq_refl).
        destruct (decide (b = NL)); [| done]. by inversion IH.
      * by apply IH.
    + apply IH. rewrite unbroken_append, Hcur. unfold unbroken. simpl.
      destruct (decide (a = NL)); [done |]. by destruct (decide (a = CR)).
Qed.

(** With [conduct.app.log.info] the loop logs every line and raises
    nothing. *)
Lemma for_each_line_info (lines : list string) (w : world) :
  for_each_line app_log_info lines w = (Ok tt, logs AppLog INFO lines w).
Proof.
  revert w. induction lines as [|l lines IH]; intros [fs lo hi]; simpl.
  - unfold ret, logs. simpl. by rewrite app_nil_r.
  - unfold bind. simpl. rewrite IH. unfold logs, log_to. simpl.
    by rewrite <- app_assoc.
Qed.

Lemma logMultipleLines_info (arg : str_or_list) (w : world) :
  logMultipleLines arg None w
  = (Ok tt,
     logs AppLog INFO
       (match arg with OfStr s => splitlines s | OfList l => l end) w).
Proof. unfold logMultipleLines. simpl. apply for_each_line_info. Qed.

Lemma new_log_logs lg lv (ls : list string) (w : world) :
  new_log w (logs lg lv ls w) = map (LogRecord lg lv) ls.
Proof. by apply new_log_app. Qed.

(** X4. Without a [logFunc], [logMultipleLines] raises nothing, leaves
    the directory tree and the calls made as they are, and adds to the
    log one INFO record of [conduct.app.log] per line, in order: the
    elements of a list, the [splitlines()] of a string. *)
Theorem logMultipleLines_default (arg : str_or_list) (w : world) :
  let call := logMultipleLines arg None w in
  call.1 = Ok tt
  /\ w_fs call.2 = w_fs w
  /\ w_history call.2 = w_history w
  /\ new_log w call.2
     = map (LogRecord AppLog INFO)
           (match arg with OfStr s => splitlines s | OfList l => l end).
Proof.
  cbv zeta. rewrite logMultipleLines_info. simpl.
  by rewrite new_log_logs.
Qed.

(** X5. For a string of lines that each end in ['\n'], and then a rest
    without a line break, [logMultipleLines] logs the lines and, when it
    is not empty, the rest as a line of its own. *)
Theorem logMultipleLines_keeps_last_line (ls : list string) (rest : string)
    (w : world) :
  Forall (fun l => unbroken l = true) ls ->
  unbroken rest = true ->
  level_msgs AppLog INFO
    (new_log w (logMultipleLines (OfStr (PyStr.join (terminated ls) +:+ rest))
                  None w).2)
  = ls ++ (if decide (rest = "") then [] else [rest]).
Proof.
  intros Hls Hrest. rewrite logMultipleLines_info. simpl.
  by rewrite new_log_logs, level_msgs_same, splitlines_written.
Qed.

(** X6. No line that [logMultipleLines] logs from a string has a ['\n']
    or a ['\r'] in it. *)
Theorem logMultipleLines_lines_unbroken (s : string) (w : world) :
  Forall (fun l => unbroken l = true)
    (level_msgs AppLog INFO
       (new_log w (logMultipleLines (OfStr s) None w).2)).
Proof.
  rewrite logMultipleLines_info. simpl.
  rewrite new_log_logs, level_msgs_same.
  by apply splitlines_from_all_unbroken.
Qed.

(** X7. For a string of lines that each end in ['\r\n'],
    [logMultipleLines] logs the lines without the ['\r']. *)
Theorem logMultipleLines_drops_carriage_return (ls : list string) (w : world) :
  Forall (fun l => unbroken l = true) ls ->
  level_msgs AppLog INFO
    (new_log w
       (logMultipleLines
          (OfStr (PyStr.join (map (fun l => l +:+ cr +:+ nl) ls))) None w).2)
  = ls.
Proof.
  intros Hls. rewrite logMultipleLines_info. simpl.
  by rewrite new_log_logs, level_msgs_same, splitlines_crlf.
Qed.

(** ** Who logs what *)

Lemma logs_as_bind {A B : Type} lg (c : M A) (k : A -> M B) :
  logs_as lg c -> (forall a, logs_as lg (k a)) -> logs_as lg (bind c k).
Proof.
  intros Hc Hk w. unfold bind.
  destruct (Hc w) as (l1 & Hl1 & Hf1).
  destruct (c w) as [[a|e] w1]; simpl in *.
  - destruct (Hk a w1) as (l2 & Hl2 & Hf2).
    exists (l1 ++ l2). rewrite Hl2, Hl1, <- app_assoc.
    split; [done | by apply Forall_app].
  - by exists l1.
Qed.

Lemma logs_as_ret {A : Type} lg (a : A) : logs_as lg (ret a).
Proof. intros w. exists []. by rewrite app_nil_r. Qed.

Lemma by_logger_app lg (l l' : list log_record) :
  by_logger lg (l ++ l') = by_logger lg l ++ by_logger lg l'.
Proof.
  induction l as [|r l IH]; [done |]. simpl.
  destruct (decide _); [| done]. by rewrite IH.
Qed.

Lemma by_logger_same lg (l : list log_record) :
  Forall (fun r => lr_logger r = lg) l -> by_logger lg l = l.
Proof.
  induction 1 as [|r l Hr _ IH]; [done |]. simpl.
  destruct (decide _); [by rewrite IH | done].
Qed.

Lemma by_logger_other lg lg' (l : list log_record) :
  lg' <> lg -> Forall (fun r => lr_logger r = lg') l -> by_logger lg l = [].
Proof.
  intros Hne. induction 1 as [|r l Hr _ IH]; [done |]. simpl.
  destruct (decide _) as [Heq|]; [| done]. by rewrite Hr in Heq.
Qed.

Section Logging.

Variable os : list os_call -> filesystem -> string -> bool -> spawn_result.

(** A call logs its banner first, and everything to its own logger. *)
Lemma systemCall_log w cmd sh log :
  exists l,
    w_log (systemCall os cmd sh log w).2
    = w_log w ++ LogRecord (default AppLog log) DEBUG (call_banner cmd sh) :: l
    /\ Forall (fun r => lr_logger r = default AppLog log) l.
Proof.
  destruct (os (w_history w) (w_fs w) cmd sh) as [b|msg] eqn:Hos.
  - destruct (systemCall_spawned os w cmd sh log b Hos)
      as (h & l & _ & Hl & _ & _ & _ & _ & Hg & _).
    by exists l.
  - exists []. split; [| done]. unfold systemCall. cbv zeta.
    change (os (w_history (log_to (default AppLog log) DEBUG
                   (call_banner cmd sh) w))
               (w_fs (log_to (default AppLog log) DEBUG
                   (call_banner cmd sh) w)) cmd sh)
      with (os (w_history w) (w_fs w) cmd sh).
    by rewrite Hos.
Qed.

Lemma systemCall_logs_as cmd sh log :
  logs_as (default AppLog log) (systemCall os cmd sh log).
Proof.
  intros w. destruct (systemCall_log w cmd sh log) as (l & Hl & Hf).
  eexists. split; [exact Hl |]. by constructor.
Qed.

Lemma ensureDirectory_log dirpath w :
  w_log (ensureDirectory dirpath w).2 = w_log w.
Proof.
  unfold ensureDirectory. destruct (path.isdir dirpath (w_fs w)); [done |].
  unfold makedirs. by repeat case_match.
Qed.

Lemma ensureDirectory_logs_as lg dirpath : logs_as lg (ensureDirectory dirpath).
Proof.
  intros w. exists []. by rewrite ensureDirectory_log, app_nil_r.
Qed.

Lemma mount_logs_as dev mountpoint flags log :
  logs_as (default AppLog log) (mount os dev mountpoint flags log).
Proof.
  unfold mount.
  apply logs_as_bind; [apply ensureDirectory_logs_as | intros _].
  apply logs_as_bind; [apply systemCall_logs_as | intros _].
  apply logs_as_ret.
Qed.

Lemma umount_logs_as mountpoint flags log :
  logs_as (default AppLog log) (umount os mountpoint flags log).
Proof.
  unfold umount.
  apply logs_as_bind; [apply systemCall_logs_as | intros _].
  apply logs_as_ret.
Qed.

Lemma mount_pseudo_fs_logs_as chrootDir :
  logs_as AppLog (mount_pseudo_fs os chrootDir).
Proof.
  unfold mount_pseudo_fs.
  apply logs_as_bind; [apply (mount_logs_as _ _ _ None) | intros _].
  apply logs_as_bind; [apply (mount_logs_as _ _ _ None) | intros _].
  apply (mount_logs_as _ _ _ None).
Qed.

Lemma umount_pseudo_fs_logs_as chrootDir :
  logs_as AppLog (umount_pseudo_fs os chrootDir).
Proof.
  unfold umount_pseudo_fs.
  apply logs_as_bind.
  { intros w. destruct (path.exists_ _ (w_fs w)).
    - apply (umount_logs_as _ _ None).
    - exists []. by rewrite app_nil_r. }
  intros _.
  apply logs_as_bind; [apply (umount_logs_as _ _ None) | intros _].
  apply logs_as_bind; [apply (umount_logs_as _ _ None) | intros _].
  apply (umount_logs_as _ _ None).
Qed.

Lemma exec_chrooted_log chrootDir cmd sh lg w :
  exists l,
    w_log (exec_chrooted os chrootDir cmd sh lg w).2
    = w_log w
      ++ LogRecord lg DEBUG "Execute chrooted command ..."
      :: LogRecord lg DEBUG (call_banner (chroot_command chrootDir cmd) sh) :: l
    /\ Forall (fun r => lr_logger r = lg) l.
Proof.
  unfold exec_chrooted, bind.
  destruct (systemCall_log (log_to lg DEBUG "Execute chrooted command ..." w)
              (chroot_command chrootDir cmd) sh (Some lg)) as (l & Hl & Hf).
  exists l. split; [| done]. rewrite Hl. simpl. by rewrite <- app_assoc.
Qed.

End Logging.

(** ** More on [systemCall], [mount] and [chrootedSystemCall] *)

Lemma join_terminated_end (ls : list string) :
  PyStr.join (terminated ls) = ""
  \/ exists s, PyStr.join (terminated ls) = s +:+ nl.
Proof.
  destruct ls as [|l ls _] using rev_ind; [by left |].
  right. exists (PyStr.join (terminated ls) +:+ l).
  unfold terminated. rewrite map_app, PyStr.join_app. simpl.
  by rewrite append_nil_r, append_assoc.
Qed.

Lemma lookup_made_other (fs : filesystem) (ds : list string) (q : string) :
  q ∉ ds -> foldr (fun d m => <[d := Dir]> m) fs ds !! q = fs !! q.
Proof.
  induction ds as [|d ds IH]; intros Hq; [done |]. simpl.
  apply not_elem_of_cons in Hq as [Hne Hq].
  rewrite lookup_insert_ne by done. by apply IH.
Qed.

Lemma existsb_none {A : Type} (f : A -> bool) (l : list A) (x : A) :
  existsb f l = false -> x ∈ l -> f x = false.
Proof.
  induction l as [|y l IH]; intros He Hx; [by apply elem_of_nil in Hx |].
  simpl in He. apply orb_false_iff in He as [Hy He].
  apply elem_of_cons in Hx as [->|Hx]; [done | by apply IH].
Qed.

Lemma pollOutput_poller lg st :
  poller (pollOutput lg st).1 = tl (poller st.1).
Proof.
  destruct st as [f w]. unfold pollOutput. simpl.
  set (fds := hd [] (poller f)).
  set (st0 := (with_poller (tl (poller f)) f, called (PollerPoll fds) w)).
  set (st1 := if bool_decide (FdStdout ∈ fds) then _ else _).
  assert (poller st1.1 = tl (poller f)) as H1.
  { subst st1. destruct (bool_decide (FdStdout ∈ fds)); [| done].
    pose proof (read_loop_keeps (fun st => poller st.1) FdStdout
                  (stdout_chunk lg) (stdout st0.1) st0) as H.
    destruct (read_loop _ _ _ _) as [pipe [f1 w1]]. simpl in *.
    rewrite H; [done | | done]. intros tmp st'. by rewrite stdout_chunk_lines. }
  clearbody st1. destruct (bool_decide (FdStderr ∈ fds)); [| done].
  pose proof (read_loop_keeps (fun st => poller st.1) FdStderr
                (stderr_chunk lg) (stderr st1.1) st1) as H.
  destruct (read_loop _ _ _ _) as [pipe [f2 w2]]. simpl in *.
  rewrite H; [done | | done]. intros tmp st'. by rewrite stderr_chunk_lines.
Qed.

(** A pass whose poll does not report stdout reads nothing from it. *)
Lemma pollOutput_skips_stdout lg st :
  FdStdout ∉ hd [] (poller st.1) ->
  stream_data FdStdout (w_history (pollOutput lg st).2)
  = stream_data FdStdout (w_history st.2).
Proof.
  destruct st as [f w]. unfold pollOutput. simpl. intros Hout.
  rewrite (bool_decide_eq_false_2 _ Hout).
  set (fds := hd [] (poller f)) in *.
  set (st0 := (with_poller (tl (poller f)) f, called (PollerPoll fds) w)).
  assert (stream_data FdStdout (w_history st0.2)
          = stream_data FdStdout (w_history w)) as H0.
  { simpl. by rewrite stream_data_app, append_nil_r. }
  destruct (bool_decide (FdStderr ∈ fds)); [| done].
  pose proof (read_loop_keeps
                (fun st => stream_data FdStdout (w_history st.2)) FdStderr
                (stderr_chunk lg) (stderr st0.1) st0) as H.
  destruct (read_loop _ _ _ _) as [pipe [f2 w2]]. simpl in *.
  rewrite H; [done | |].
  - intros tmp st'. by rewrite stderr_chunk_lines.
  - intros r f' w'. simpl. by apply stream_data_other_read.
Qed.

Lemma poll_loop_skips_stdout lg b alive st :
  Forall (fun fds => FdStdout ∉ fds) (poller st.1) ->
  stream_data FdStdout (w_history (poll_loop lg b alive st).2)
  = stream_data FdStdout (w_history st.2)
  /\ Forall (fun fds => FdStdout ∉ fds) (poller (poll_loop lg b alive st).1).
Proof.
  assert (forall l : list (list fd),
            Forall (fun fds => FdStdout ∉ fds) l -> FdStdout ∉ hd [] l) as Hhd.
  { intros l [|fds l' H _]; simpl; [by apply not_elem_of_nil | done]. }
  assert (forall l : list (list fd),
            Forall (fun fds => FdStdout ∉ fds) l ->
            Forall (fun fds => FdStdout ∉ fds) (tl l)) as Htl.
  { by intros l [|fds l' _ H]. }
  revert st. induction alive as [|n IH]; intros st Hst; simpl.
  - rewrite stream_data_app, append_nil_r, pollOutput_poller.
    split; [by apply pollOutput_skips_stdout, Hhd | by apply Htl].
  - destruct (IH ((pollOutput lg st).1,
                  called (ProcPoll None) (pollOutput lg st).2)) as [Hd Hp].
    { simpl. rewrite pollOutput_poller. by apply Htl. }
    split; [| done]. rewrite Hd. simpl.
    rewrite stream_data_app, append_nil_r.
    by apply pollOutput_skips_stdout, Hhd.
Qed.

Lemma run_skips_stdout lg b w :
  Forall (fun fds => FdStdout ∉ fds) (b_poll b) ->
  stream_data FdStdout (w_history (run lg b w).2)
  = stream_data FdStdout (w_history w).
Proof.
  intros Hb. unfold run.
  destruct (poll_loop_skips_stdout lg b (b_alive b) (start b, w) Hb) as [Hd Hp].
  rewrite pollOutput_skips_stdout; [done |].
  destruct Hp as [|fds l H _]; simpl; [by apply not_elem_of_nil | done].
Qed.

Section MoreOfCalls.

Variable os : list os_call -> filesystem -> string -> bool -> spawn_result.

(** X8. When [systemCall] returns and no stdout line it read has a
    ['\r'], [logMultipleLines] of the string returned logs exactly the
    stdout lines that the call logged. *)
Theorem logMultipleLines_of_output w cmd sh log b s w' :
  os (w_history w) (w_fs w) cmd sh = Spawned b ->
  systemCall os cmd sh log w = (Ok s, w') ->
  Forall (fun l => contains CR l = false)
         (complete_lines (stream_data FdStdout (new_calls w w'))) ->
  level_msgs AppLog INFO
    (new_log w' (logMultipleLines (OfStr s) None w').2)
  = complete_lines (stream_data FdStdout (new_calls w w')).
Proof.
  intros Hos Hcall Hcr.
  destruct (systemCall_spawned os w cmd sh log b Hos) as (h & l & Hh & _ & Hr & _).
  rewrite Hcall in Hh, Hr. simpl in Hh, Hr.
  rewrite (new_calls_app w w' _ Hh) in *. simpl in *.
  destruct (bool_decide (b_returncode b ≠ 0)); [done |].
  injection Hr as ->.
  rewrite logMultipleLines_info. simpl.
  rewrite new_log_logs, level_msgs_same.
  rewrite <- (append_nil_r (PyStr.join _)).
  rewrite splitlines_written; [by rewrite app_nil_r | | done].
  destruct (split_lines_sound (stream_data FdStdout h)) as (_ & Hnl & _).
  revert Hcr Hnl. generalize (complete_lines (stream_data FdStdout h)) as ls.
  induction ls as [|x ls IH]; intros Hcr Hnl; [done |].
  apply Forall_cons in Hcr as [Hx Hcr]. apply Forall_cons in Hnl as [Hx' Hnl].
  constructor; [| by apply IH]. unfold unbroken. by rewrite Hx, Hx'.
Qed.

(** X9. What a call hands back, returned or in its error, is empty or
    ends in a newline. *)
Theorem systemCall_output_ends_in_newline w cmd sh log b s :
  os (w_history w) (w_fs w) cmd sh = Spawned b ->
  captured (systemCall os cmd sh log w).1 = Some s ->
  s = "" \/ exists s', s = s' +:+ nl.
Proof.
  intros Hos.
  destruct (systemCall_spawned os w cmd sh log b Hos) as (h & l & _ & _ & -> & _).
  destruct (bool_decide (b_returncode b ≠ 0)); simpl;
    intros [= <-]; apply join_terminated_end.
Qed.

(** X10. When poll never reports stdout, the call reads nothing from it
    and hands back the empty string, whatever the pipe holds. *)
Theorem systemCall_reads_only_reported_pipes w cmd sh log b :
  os (w_history w) (w_fs w) cmd sh = Spawned b ->
  Forall (fun fds => FdStdout ∉ fds) (b_poll b) ->
  stream_data FdStdout (new_calls w (systemCall os cmd sh log w).2) = ""
  /\ captured (systemCall os cmd sh log w).1 = Some "".
Proof.
  intros Hos Hpoll.
  destruct (systemCall_spawned os w cmd sh log b Hos) as (h & l & Hh & _ & Hr & _).
  assert (stream_data FdStdout h = "") as Hd.
  { pose proof (run_skips_stdout (default AppLog log) b
                  (called (Popen cmd sh)
                     (log_to (default AppLog log) DEBUG (call_banner cmd sh) w))
                  Hpoll) as Hrun.
    rewrite (systemCall_started os w cmd sh log b Hos) in Hh. simpl in Hh.
    rewrite Hh in Hrun. simpl in Hrun.
    rewrite !stream_data_app in Hrun. simpl in Hrun.
    rewrite append_nil_r in Hrun.
    rewrite <- (append_nil_r (stream_data FdStdout (w_history w))) in Hrun at 2.
    by apply (inj (String.append _)) in Hrun. }
  rewrite (new_calls_app w _ _ Hh), Hr. simpl. rewrite Hd.
  split; [done |]. by destruct (bool_decide _).
Qed.

(** X11. When the mount point cannot be made a directory, [mount] raises
    the [OSError] of [os.makedirs], starts no command and logs nothing. *)
Theorem mount_without_directory dev mountpoint flags log w e w1 :
  ensureDirectory mountpoint w = (Raise e, w1) ->
  mount os dev mountpoint flags log w = (Raise e, w1)
  /\ (exists msg, e = OSError msg)
  /\ spawned (new_calls w w1) = []
  /\ new_log w w1 = [].
Proof.
  intros He. split; [by unfold mount, bind; rewrite He |].
  destruct (ensureDirectory_calls mountpoint w) as (h & Hh & Hs).
  pose proof (ensureDirectory_log mountpoint w) as Hl.
  rewrite He in Hh, Hl. simpl in Hh, Hl.
  split; [| split].
  - revert He. unfold ensureDirectory, makedirs.
    repeat case_match; intros [= <- _]; by eexists.
  - by rewrite (new_calls_app w w1 h Hh).
  - apply new_log_app. by rewrite app_nil_r.
Qed.

(** X12. After an [ensureDirectory] that raised nothing the path is a
    directory, and whatever was in the tree before is still there. *)
Theorem ensureDirectory_makes_directory dirpath w w1 :
  ensureDirectory dirpath w = (Ok tt, w1) ->
  path.isdir dirpath (w_fs w1) = true
  /\ (forall q x, w_fs w !! q = Some x -> w_fs w1 !! q = Some x).
Proof.
  unfold ensureDirectory.
  destruct (path.isdir dirpath (w_fs w)) eqn:Hdir; [by intros [= <-] |].
  unfold makedirs.
  destruct (bool_decide (dirpath = "")); [done |].
  destruct (path.exists_ dirpath _) eqn:Hex; [done |].
  destruct (existsb _ _) eqn:Hfile; [done |].
  intros [= <-]. simpl in *. split.
  - apply bool_decide_eq_true, lookup_made. set_solver.
  - intros q x Hq.
    destruct (decide (q ∈ path.parents dirpath ++ [dirpath])) as [Hin|Hout].
    + rewrite lookup_made by done.
      apply elem_of_app in Hin as [Hin|Hin].
      * pose proof (existsb_none _ _ q Hfile Hin) as Hnf. simpl in Hnf.
        apply bool_decide_eq_false in Hnf. destruct x; [| done].
        by destruct Hnf.
      * apply list_elem_of_singleton in Hin as ->.
        apply bool_decide_eq_false in Hex. destruct Hex. by eexists.
    + by rewrite lookup_made_other.
Qed.

(** X13. When the mounts are made and no unmount fails, the caller gets
    what the chrooted command returned or raised, after the three mounts,
    the command and the whole teardown, in that order. *)
Theorem chrooted_outcome_after_teardown chrootDir command sh log w w1 r w2 w3 :
  mount_pseudo_fs os chrootDir w = (Ok tt, w1) ->
  exec_chrooted os chrootDir command sh (default AppLog log) w1 = (r, w2) ->
  umount_pseudo_fs os chrootDir w2 = (Ok tt, w3) ->
  chrootedSystemCall os chrootDir command sh true log w = (r, w3)
  /\ spawned (new_calls w w3)
     = mount_plan chrootDir
       ++ (chroot_command chrootDir command, sh)
       :: umount_plan chrootDir
            (path.exists_ (path.join chrootDir ["dev"; "pts"]) (w_fs w2)).
Proof.
  intros Hm He Hu. split.
  - unfold chrootedSystemCall, bind, try_finally. cbv zeta.
    by rewrite Hm, He, Hu.
  - destruct (mount_pseudo_fs_calls os chrootDir w) as (h1 & Hh1 & _ & Hs1).
    destruct (exec_chrooted_calls os chrootDir command sh (default AppLog log) w1)
      as (h2 & Hh2 & Hs2).
    destruct (umount_pseudo_fs_calls os chrootDir w2) as (h3 & Hh3 & _ & _ & Hs3).
    rewrite Hm in Hh1, Hs1. rewrite He in Hh2. rewrite Hu in Hh3, Hs3.
    simpl in *.
    rewrite (new_calls_app w w3 (h1 ++ Popen (chroot_command chrootDir command) sh
                                   :: h2 ++ h3)).
    + rewrite spawned_app, Hs1 by done. simpl.
      by rewrite spawned_app, Hs2, Hs3.
    + by rewrite Hh3, Hh2, Hh1, <- !app_assoc.
Qed.

(** X14. A logger handed to [chrootedSystemCall] gets the records of the
    chrooted command and nothing of the mounts and unmounts, which log
    to [conduct.app.log]: its records are the announcement, the banner of
    the chroot command and what that command logged. *)
Theorem chrooted_logger_routing chrootDir command sh lg w w1 r w2 :
  lg <> AppLog ->
  mount_pseudo_fs os chrootDir w = (Ok tt, w1) ->
  exec_chrooted os chrootDir command sh lg w1 = (r, w2) ->
  exists l,
    by_logger lg
      (new_log w (chrootedSystemCall os chrootDir command sh true (Some lg) w).2)
    = LogRecord lg DEBUG "Execute chrooted command ..."
      :: LogRecord lg DEBUG (call_banner (chroot_command chrootDir command) sh)
      :: l
    /\ new_log w1 w2
       = LogRecord lg DEBUG "Execute chrooted command ..."
         :: LogRecord lg DEBUG (call_banner (chroot_command chrootDir command) sh)
         :: l.
Proof.
  intros Hne Hm He.
  destruct (mount_pseudo_fs_logs_as os chrootDir w) as (l1 & Hl1 & Hf1).
  destruct (exec_chrooted_log os chrootDir command sh lg w1) as (l2 & Hl2 & Hf2).
  destruct (umount_pseudo_fs_logs_as os chrootDir w2) as (l3 & Hl3 & Hf3).
  rewrite Hm in Hl1. rewrite He in Hl2. simpl in Hl1, Hl2.
  exists l2. rewrite (new_log_app w1 w2 _ Hl2). split; [| done].
  assert (w_log (chrootedSystemCall os chrootDir command sh true (Some lg) w).2
          = w_log (umount_pseudo_fs os chrootDir w2).2) as Hw.
  { unfold chrootedSystemCall, bind, try_finally. cbv zeta. simpl.
    rewrite Hm, He. by destruct (umount_pseudo_fs os chrootDir w2) as [[] ?]. }
  rewrite (new_log_app w _
             (l1 ++ (LogRecord lg DEBUG "Execute chrooted command ..."
                     :: LogRecord lg DEBUG
                          (call_banner (chroot_command chrootDir command) sh)
                     :: l2) ++ l3)).
  - rewrite !by_logger_app.
    rewrite (by_logger_other lg AppLog l1), (by_logger_other lg AppLog l3) by done.
    rewrite app_nil_r. simpl.
    destruct (decide (lg = lg)); [| done]. by rewrite by_logger_same.
  - rewrite Hw, Hl3, Hl2, Hl1, <- !app_assoc. by simpl.
Qed.

End MoreOfCalls.

(** ** [importFromPath]: properties *)

Module PyImportFacts.
Import PyImport.

Lemma rsplit1_missing (c : ascii) (s : string) :
  contains c s = false -> rsplit1 c s = [s].
Proof.
  induction s as [|a s IH]; simpl; [done |].
  destruct (decide (a = c)); [done |]. intros H. by rewrite (IH H).
Qed.

Lemma rsplit1_last (c : ascii) (m o : string) :
  contains c o = false -> rsplit1 c (m +:+ String c o) = [m; o].
Proof.
  intros Ho. induction m as [|a m IH].
  - rewrite append_nil_l. simpl. rewrite (rsplit1_missing c o Ho).
    by destruct (decide (c = c)).
  - rewrite append_cons. simpl. by rewrite IH.
Qed.

Lemma contains_dotted (c : ascii) (m o : string) :
  contains c (m +:+ String c o) = true.
Proof.
  rewrite contains_append. simpl. destruct (decide (c = c)); [| done].
  by rewrite orb_true_r.
Qed.

Section Facts.

Context {V : Type}.
Variable importer :
  list (string * list string) -> string -> list string -> import_result V.
Variable repr : string -> string.

(** The names before [c] fail with [ImportError], whatever was tried
    before. *)
Definition all_fail (fromlist : list string) (names : list string) : Prop :=
  forall tried x, x ∈ names -> exists err, importer tried x fromlist = ImportFailed err.

Lemma try_imports_stops fromlist pre c post tried errors r :
  all_fail fromlist pre ->
  (forall tried', importer tried' c fromlist = r) ->
  (forall err, r <> ImportFailed err) ->
  exists errors',
    try_imports V importer fromlist (pre ++ c :: post) tried errors
    = (match r with
       | Imported m => inr (Some m)
       | ImportRaised e => inl e
       | ImportFailed _ => inr None
       end,
       tried ++ map (fun x => (x, fromlist)) (pre ++ [c]), errors').
Proof.
  intros Hpre Hc Hr. revert tried errors.
  induction pre as [|x pre IH]; intros tried errors; simpl.
  - rewrite Hc. destruct r as [m|err|e]; [by eexists | by destruct (Hr err) | by eexists].
  - destruct (Hpre tried x) as [err Hx]; [by left |]. rewrite Hx.
    destruct (IH (fun t y Hy => Hpre t y (list_elem_of_further _ _ _ Hy))
                 (tried ++ [(x, fromlist)])
                 (errors ++ ["[" +:+ x +:+ "] " +:+ err])) as [errors' ->].
    exists errors'. by rewrite <- app_assoc.
Qed.

Lemma try_imports_all_fail fromlist names err tried errors :
  (forall tried' x, x ∈ names -> importer tried' x fromlist = ImportFailed (err x)) ->
  try_imports V importer fromlist names tried errors
  = (inr None,
     tried ++ map (fun x => (x, fromlist)) names,
     errors ++ map (fun x => "[" +:+ x +:+ "] " +:+ err x) names).
Proof.
  intros H. revert tried errors.
  induction names as [|x names IH]; intros tried errors; simpl.
  - by rewrite !app_nil_r.
  - rewrite (H tried x) by (by left).
    rewrite IH by (intros t y Hy; apply H; by right).
    by rewrite <- !app_assoc.
Qed.

(** X15. For a name [m.o] the names tried are [m] and then each prefix
    put before [m], in order and with [o] as the [fromlist], up to the
    first that does not raise [ImportError]; when that one gives a module,
    the result is the object [o] of the module, or an [ImportError] that
    names module and object when the module has no such object.  The
    names after it are not tried. *)
Theorem importFromPath_object m o prefixes pre c post tried md :
  contains "."%char o = false ->
  o <> "" ->
  candidates m prefixes = pre ++ c :: post ->
  all_fail [o] pre ->
  (forall tried', importer tried' c [o] = Imported md) ->
  importFromPath V importer repr (m +:+ "." +:+ o) prefixes tried
  = (match mod_attrs md !! o with
     | Some v => inr (TheObject v)
     | None =>
         inl (ImportError ("Could not import " +:+ mod_name md +:+ "." +:+ o
                           +:+ ": 'module' object has no attribute '" +:+ o +:+ "'"))
     end,
     tried ++ map (fun x => (x, [o])) (pre ++ [c])).
Proof.
  intros Ho Hne Hcands Hpre Hc. unfold importFromPath.
  change (m +:+ "." +:+ o) with (m +:+ String "."%char o).
  rewrite contains_dotted, rsplit1_last by done. cbv zeta. simpl default.
  rewrite bool_decide_eq_false_2 by done. simpl negb. cbv iota.
  rewrite Hcands.
  destruct (try_imports_stops [o] pre c post tried [] (Imported md) Hpre Hc)
    as [errors' ->]; [done |].
  by destruct (mod_attrs md !! o).
Qed.

(** X16. For a name without a dot, and for a name [m.] that ends in its
    dot, the [fromlist] is empty and the result is the module that the
    first successful import gives, not an object of it. *)
Theorem importFromPath_module import_name m prefixes pre c post tried md :
  (import_name = m /\ contains "."%char m = false) \/ import_name = m +:+ "." ->
  candidates m prefixes = pre ++ c :: post ->
  all_fail [] pre ->
  (forall tried', importer tried' c [] = Imported md) ->
  importFromPath V importer repr import_name prefixes tried
  = (inr (TheModule md), tried ++ map (fun x => (x, [])) (pre ++ [c])).
Proof.
  intros Hname Hcands Hpre Hc. unfold importFromPath.
  destruct Hname as [[-> Hm] | ->].
  - rewrite Hm. cbv zeta. cbv iota. rewrite Hcands.
    by destruct (try_imports_stops [] pre c post tried [] (Imported md) Hpre Hc)
      as [errors' ->].
  - change (m +:+ ".") with (m +:+ String "."%char "").
    rewrite contains_dotted, rsplit1_last by done. cbv zeta. simpl default.
    rewrite bool_decide_eq_true_2 by done. simpl negb. cbv iota.
    rewrite Hcands.
    by destruct (try_imports_stops [] pre c post tried [] (Imported md) Hpre Hc)
      as [errors' ->].
Qed.

(** X17. When every name tried raises [ImportError], all of them are
    tried, and the [ImportError] raised gives the [repr] of the name asked
    for and then, for each name tried and in that order, the name in
    brackets and its error, joined by commas. *)
Theorem importFromPath_all_fail m o prefixes err tried :
  contains "."%char o = false ->
  o <> "" ->
  (forall tried' x, x ∈ candidates m prefixes ->
     importer tried' x [o] = ImportFailed (err x)) ->
  importFromPath V importer repr (m +:+ "." +:+ o) prefixes tried
  = (inl (ImportError
            ("Could not import " +:+ repr (m +:+ "." +:+ o) +:+ ": "
             +:+ join_with ", "
                   (map (fun x => "[" +:+ x +:+ "] " +:+ err x)
                        (candidates m prefixes)))),
     tried ++ map (fun x => (x, [o])) (candidates m prefixes)).
Proof.
  intros Ho Hne Hall. unfold importFromPath.
  change (m +:+ "." +:+ o) with (m +:+ String "."%char o).
  rewrite contains_dotted, rsplit1_last by done. cbv zeta. simpl default.
  rewrite bool_decide_eq_false_2 by done. simpl negb. cbv iota.
  by rewrite (try_imports_all_fail [o] _ err tried []).
Qed.

(** X18. What [__import__] raises besides [ImportError] is not caught:
    it ends the call at that name, and the errors collected before are
    dropped. *)
Theorem importFromPath_propagates m o prefixes pre c post tried e :
  contains "."%char o = false ->
  o <> "" ->
  candidates m prefixes = pre ++ c :: post ->
  all_fail [o] pre ->
  (forall tried', importer tried' c [o] = ImportRaised e) ->
  importFromPath V importer repr (m +:+ "." +:+ o) prefixes tried
  = (inl (Propagated e), tried ++ map (fun x => (x, [o])) (pre ++ [c])).
Proof.
  intros Ho Hne Hcands Hpre Hc. unfold importFromPath.
  change (m +:+ "." +:+ o) with (m +:+ String "."%char o).
  rewrite contains_dotted, rsplit1_last by done. cbv zeta. simpl default.
  rewrite bool_decide_eq_false_2 by done. simpl negb. cbv iota.
  rewrite Hcands.
  by destruct (try_imports_stops [o] pre c post tried [] (ImportRaised e) Hpre Hc)
    as [errors' ->].
Qed.

End Facts.

End PyImportFacts.

(** ** The chain loaders: properties *)

Module ChainsFacts.
Import Chains.

Section Facts.

Variable exec : list string -> filesystem -> string -> namespace -> exec_result.

(** The entry of [chainName] in [app.cfg['chains']], if there is one. *)
Definition cached (chainName : string) (st : loader) : option namespace :=
  default ∅ (cfg_chains st) !! chainName.

Lemma loadPyFile_executed p ns st :
  (loadPyFile exec p ns st).2 = with_executed p st.
Proof. unfold loadPyFile. by repeat case_match. Qed.

Lemma loadChainDefinition_hit chainName st c d :
  cfg_chains st = Some c -> c !! chainName = Some d ->
  loadChainDefinition exec chainName st = (inr d, st).
Proof.
  intros Hc Hd. unfold loadChainDefinition. rewrite Hc. simpl.
  rewrite Hc. simpl. by rewrite Hd.
Qed.

(** The state with [app.cfg['chains']] set, as the first lines of
    [loadChainDefinition] leave it. *)
Definition with_cache (st : loader) : loader :=
  match cfg_chains st with
  | None => with_chains ∅ st
  | Some _ => st
  end.

Lemma with_cache_chains st :
  cfg_chains (with_cache st) = Some (default ∅ (cfg_chains st)).
Proof. unfold with_cache. by destruct (cfg_chains st) eqn:E; simpl; rewrite ?E. Qed.

Lemma with_cache_rest st :
  cfg_chaindefdir (with_cache st) = cfg_chaindefdir st
  /\ cfg_chaincfgdir (with_cache st) = cfg_chaincfgdir st
  /\ tree (with_cache st) = tree st
  /\ executed (with_cache st) = executed st.
Proof. unfold with_cache. by destruct (cfg_chains st). Qed.

Lemma loadChainDefinition_with_cache chainName st :
  loadChainDefinition exec chainName st
  = loadChainDefinition exec chainName (with_cache st).
Proof.
  unfold loadChainDefinition, with_cache.
  by destruct (cfg_chains st) eqn:E; simpl; rewrite ?E.
Qed.

(** The call on a state that has the cache and misses in it. *)
Lemma loadChainDefinition_miss chainName st c :
  cfg_chains st = Some c -> c !! chainName = None ->
  loadChainDefinition exec chainName st
  = match cfg_chaindefdir st with
    | None => (inl (KeyError "chaindefdir"), st)
    | Some dir =>
        if path.exists_ (chain_file dir chainName) (tree st) then
          match exec (executed st) (tree st) (chain_file dir chainName)
                  (<["__file__" := PyString (chain_file dir chainName)]>
                     {[ "Parameter" := ParameterClass; "Step" := StepLambda;
                        "Chain" := ChainLambda; "steps" := EmptySteps ]}) with
          | ExecRaised e =>
              (inl (Raised e), with_executed (chain_file dir chainName) st)
          | Executed ns =>
              match ns !! "__builtins__" with
              | None => (inl (KeyError "__builtins__"),
                         with_executed (chain_file dir chainName) st)
              | Some _ =>
                  match delete "__builtins__" ns !! "description",
                        delete "__builtins__" ns !! "parameters",
                        delete "__builtins__" ns !! "steps" with
                  | Some de, Some pa, Some stp =>
                      (inr (<["steps" := stp]>
                              (<["parameters" := pa]>
                                 (<["description" := de]> ∅))),
                       with_chains
                         (<[chainName := <["steps" := stp]>
                              (<["parameters" := pa]>
                                 (<["description" := de]> ∅))]> c)
                         (with_executed (chain_file dir chainName) st))
                  | None, _, _ =>
                      (inl (KeyError "description"),
                       with_executed (chain_file dir chainName) st)
                  | Some _, None, _ =>
                      (inl (KeyError "parameters"),
                       with_executed (chain_file dir chainName) st)
                  | Some _, Some _, None =>
                      (inl (KeyError "steps"),
                       with_executed (chain_file dir chainName) st)
                  end
              end
          end
        else
          (inl (IOError ("Chain file for '" +:+ chainName
                         +:+ "' not found (Should be: "
                         +:+ chain_file dir chainName +:+ ")")), st)
    end.
Proof.
  intros Hc Hmiss. unfold loadChainDefinition. rewrite Hc. simpl.
  rewrite Hc. simpl. rewrite Hmiss.
  destruct (cfg_chaindefdir st) as [dir|]; [| done].
  destruct (path.exists_ _ (tree st)); simpl; [| done].
  unfold loadPyFile. simpl.
  destruct (exec _ _ _ _) as [ns|e]; [| done].
  destruct (ns !! "__builtins__"); [| done].
  destruct (delete "__builtins__" ns !! "description"); [| done].
  destruct (delete "__builtins__" ns !! "parameters"); [| done].
  destruct (delete "__builtins__" ns !! "steps"); [| done].
  simpl. by rewrite Hc.
Qed.

(** X21. A [loadChainDefinition] that returns a definition leaves it in
    the cache as the entry of the chain, and one that raises was called
    for a chain that the cache did not hold. *)
Theorem loadChainDefinition_cache chainName st r st1 :
  loadChainDefinition exec chainName st = (r, st1) ->
  match r with
  | inr chainDef => cached chainName st1 = Some chainDef
  | inl _ => cached chainName st = None
  end.
Proof.
  rewrite loadChainDefinition_with_cache.
  pose proof (with_cache_chains st) as Hc.
  assert (cached chainName st = default ∅ (cfg_chains st) !! chainName) as ->.
  { unfold cached. by destruct (cfg_chains st). }
  generalize dependent (with_cache st). intros st0 Hc.
  set (c := default ∅ (cfg_chains st)) in *. clearbody c.
  destruct (c !! chainName) as [d|] eqn:Hhit.
  { rewrite (loadChainDefinition_hit chainName st0 c d Hc Hhit).
    intros [= <- <-]. unfold cached. by rewrite Hc. }
  rewrite (loadChainDefinition_miss chainName st0 c Hc Hhit).
  repeat case_match; intros [= <- <-]; try done.
  unfold cached. simpl. by rewrite lookup_insert_eq.
Qed.

Lemma loadChainDefinition_ok_cached chainName st d st1 :
  loadChainDefinition exec chainName st = (inr d, st1) ->
  exists c, cfg_chains st1 = Some c /\ c !! chainName = Some d.
Proof.
  rewrite loadChainDefinition_with_cache.
  pose proof (with_cache_chains st) as Hc.
  destruct (default ∅ (cfg_chains st) !! chainName) as [d0|] eqn:Hhit.
  - rewrite (loadChainDefinition_hit chainName _ _ d0 Hc Hhit).
    intros [= <- <-]. by eexists.
  - rewrite (loadChainDefinition_miss chainName _ _ Hc Hhit).
    repeat case_match; try done. intros [= <- <-]. simpl.
    eexists. split; [done |]. apply lookup_insert_eq.
Qed.

(** X19. After a [loadChainDefinition] that returned a definition, any
    later call for the same chain returns that definition and changes
    nothing, whatever has become of the directory tree and the
    configured directory in between: only the cache is looked at, and no
    file is executed. *)
Theorem loadChainDefinition_twice chainName st d st1 st2 :
  loadChainDefinition exec chainName st = (inr d, st1) ->
  cfg_chains st2 = cfg_chains st1 ->
  loadChainDefinition exec chainName st2 = (inr d, st2).
Proof.
  intros H Hsame.
  destruct (loadChainDefinition_ok_cached chainName st d st1 H) as (c & Hc & Hd).
  apply (loadChainDefinition_hit chainName st2 c d); [by rewrite Hsame | done].
Qed.

(** X20. For a chain that is not cached and whose file is not there,
    [loadChainDefinition] raises the [IOError] that names the chain and
    the file, and executes nothing. *)
Theorem loadChainDefinition_missing_file chainName st dir :
  cached chainName st = None ->
  cfg_chaindefdir st = Some dir ->
  path.exists_ (chain_file dir chainName) (tree st) = false ->
  (loadChainDefinition exec chainName st).1
  = inl (IOError ("Chain file for '" +:+ chainName +:+ "' not found (Should be: "
                  +:+ chain_file dir chainName +:+ ")"))
  /\ executed (loadChainDefinition exec chainName st).2 = executed st.
Proof.
  intros Hmiss Hdir Hex. rewrite loadChainDefinition_with_cache.
  pose proof (with_cache_chains st) as Hc.
  destruct (with_cache_rest st) as (Hd & _ & Ht & He).
  rewrite (loadChainDefinition_miss chainName (with_cache st) _ Hc Hmiss).
  by rewrite Hd, Hdir, Ht, Hex.
Qed.

(** X22. A definition that [loadChainDefinition] returns for a chain
    that was not cached has the three keys [description], [parameters]
    and [steps] and no other, and the one file executed for it is the
    chain file. *)
Theorem loadChainDefinition_loaded chainName st dir d st1 :
  cached chainName st = None ->
  cfg_chaindefdir st = Some dir ->
  loadChainDefinition exec chainName st = (inr d, st1) ->
  dom d = ({[ "description"; "parameters"; "steps" ]} : gset string)
  /\ executed st1 = executed st ++ [chain_file dir chainName]
  /\ path.exists_ (chain_file dir chainName) (tree st) = true.
Proof.
  intros Hmiss Hdir. rewrite loadChainDefinition_with_cache.
  pose proof (with_cache_chains st) as Hc.
  destruct (with_cache_rest st) as (Hd & _ & Ht & He).
  rewrite (loadChainDefinition_miss chainName (with_cache st) _ Hc Hmiss).
  rewrite Hd, Hdir, Ht, He.
  repeat case_match; try done. intros [= <- <-]. simpl. rewrite He.
  split; [| done]. rewrite !dom_insert_L, dom_empty_L. set_solver.
Qed.

(** X23. A chain name that begins with [':'] has its file looked up
    from the root of the file system, whatever the configured directory;
    any other name that does not begin with ['/'] has it below the
    configured directory, with every [':'] of the name a ['/']. *)
Theorem chain_file_location (dir : string) (a : ascii) (n : string) :
  chain_file dir (String ":"%char n) = "/" +:+ chainNameToPath n +:+ ".py"
  /\ (a <> ":"%char -> a <> "/"%char ->
      dir <> "" -> path.endswith_sep dir = false ->
      chain_file dir (String a n)
      = dir +:+ "/" +:+ chainNameToPath (String a n) +:+ ".py").
Proof.
  unfold chain_file, path.join, chainNameToPath. split.
  - simpl replace. destruct (decide (":"%char = ":"%char)); [| done].
    rewrite append_cons. unfold os_sep. simpl path.startswith_sep.
    done.
  - intros Ha Hs Hd He. simpl replace.
    destruct (decide (a = ":"%char)); [done |].
    rewrite append_cons. simpl path.startswith_sep.
    rewrite (bool_decide_eq_false_2 (a = "/"%char)) by done.
    rewrite (bool_decide_eq_false_2 (dir = "")) by done. by rewrite He.
Qed.

(** X24. A namespace that [loadChainConfig] returns never has the key
    [__builtins__]. *)
Theorem loadChainConfig_no_builtins chainName st ns st1 :
  loadChainConfig exec chainName st = (inr ns, st1) ->
  ns !! "__builtins__" = None.
Proof.
  unfold loadChainConfig, loadPyFile.
  destruct (cfg_chaincfgdir st) as [dir|]; [| done].
  destruct (path.exists_ _ (tree st)); [| by intros [= <- _]].
  destruct (exec _ _ _ _) as [ns'|e]; [| done].
  destruct (ns' !! "__builtins__"); [| done].
  intros [= <- _]. apply lookup_delete_eq.
Qed.

End Facts.

End ChainsFacts.

(** ** The further properties on samples *)

Lemma logMultipleLines_keeps_last_line_witness :
  level_msgs AppLog INFO
    (new_log Samples.w0
       (logMultipleLines (OfStr (PyStr.join (terminated ["a"; "b"]) +:+ "partial"))
          None Samples.w0).2)
  = ["a"; "b"] ++ (if decide ("partial" = "") then [] else ["partial"]).
Proof.
  apply (logMultipleLines_keeps_last_line ["a"; "b"] "partial" Samples.w0);
    [by repeat constructor | reflexivity].
Defined.

Lemma logMultipleLines_drops_carriage_return_witness :
  level_msgs AppLog INFO
    (new_log Samples.w0
       (logMultipleLines
          (OfStr (PyStr.join (map (fun l => l +:+ cr +:+ nl) ["one"; "two"])))
          None Samples.w0).2)
  = ["one"; "two"].
Proof.
  apply (logMultipleLines_drops_carriage_return ["one"; "two"] Samples.w0).
  by repeat constructor.
Defined.

Lemma logMultipleLines_of_output_witness :
  let call := systemCall (Samples.always Samples.printer) "printf" true None
                Samples.w0 in
  level_msgs AppLog INFO
    (new_log call.2
       (logMultipleLines (OfStr ("a" +:+ nl +:+ "b" +:+ nl)) None call.2).2)
  = complete_lines (stream_data FdStdout (new_calls Samples.w0 call.2)).
Proof.
  apply (logMultipleLines_of_output (Samples.always Samples.printer) Samples.w0
           "printf" true None Samples.printer);
    [reflexivity | by vm_compute | vm_compute; by repeat constructor].
Defined.

Lemma systemCall_output_ends_in_newline_witness :
  PyStr.join (terminated ["a"; "b"]) = ""
  \/ exists s', PyStr.join (terminated ["a"; "b"]) = s' +:+ nl.
Proof.
  apply (systemCall_output_ends_in_newline (Samples.always Samples.failing)
           Samples.w0 "make" true None Samples.failing);
    [reflexivity | by vm_compute].
Defined.

Lemma systemCall_reads_only_reported_pipes_witness :
  let call := systemCall (Samples.always MoreSamples.unheard) "quiet" true None
                Samples.w0 in
  stream_data FdStdout (new_calls Samples.w0 call.2) = ""
  /\ captured call.1 = Some "".
Proof.
  apply (systemCall_reads_only_reported_pipes (Samples.always MoreSamples.unheard)
           Samples.w0 "quiet" true None MoreSamples.unheard); [reflexivity |].
  repeat constructor; intros Hin;
    repeat (apply elem_of_cons in Hin as [[=]|Hin]); by apply elem_of_nil in Hin.
Defined.

Lemma mount_without_directory_witness :
  let made := ensureDirectory "/r/proc" MoreSamples.w_file in
  mount (Samples.always (Samples.silent 0)) "proc" "/r/proc" "-t proc" None
    MoreSamples.w_file
  = (Raise (OSError "ENOTDIR"), made.2)
  /\ (exists msg, OSError "ENOTDIR" = OSError msg)
  /\ spawned (new_calls MoreSamples.w_file made.2) = []
  /\ new_log MoreSamples.w_file made.2 = [].
Proof.
  apply (mount_without_directory (Samples.always (Samples.silent 0)) "proc"
           "/r/proc" "-t proc" None MoreSamples.w_file).
  by vm_compute.
Defined.

Lemma ensureDirectory_makes_directory_witness :
  let w1 := (ensureDirectory "/srv/root/proc" Samples.w0).2 in
  path.isdir "/srv/root/proc" (w_fs w1) = true
  /\ (forall q x, w_fs Samples.w0 !! q = Some x -> w_fs w1 !! q = Some x).
Proof.
  apply (ensureDirectory_makes_directory "/srv/root/proc" Samples.w0).
  by vm_compute.
Defined.

Lemma chrooted_outcome_after_teardown_witness :
  let w1 := (mount_pseudo_fs MoreSamples.command_fails "/r" Samples.w0).2 in
  let ex := exec_chrooted MoreSamples.command_fails "/r" "ls" true AppLog w1 in
  let w3 := (umount_pseudo_fs MoreSamples.command_fails "/r" ex.2).2 in
  chrootedSystemCall MoreSamples.command_fails "/r" "ls" true true None Samples.w0
  = (ex.1, w3)
  /\ spawned (new_calls Samples.w0 w3)
     = mount_plan "/r"
       ++ (chroot_command "/r" "ls", true)
       :: umount_plan "/r"
            (path.exists_ (path.join "/r" ["dev"; "pts"]) (w_fs ex.2)).
Proof.
  intros w1 ex w3.
  apply (chrooted_outcome_after_teardown MoreSamples.command_fails "/r" "ls" true
           None Samples.w0 w1 ex.1 ex.2 w3);
    [by vm_compute | apply surjective_pairing | by vm_compute].
Defined.

Example command_fails_call :
  (chrootedSystemCall MoreSamples.command_fails "/r" "ls" true true None
     Samples.w0).1
  = Raise (RuntimeError {| returncode := 3;
                           cmd := "chroot /r ls";
                           output := "a" +:+ nl +:+ "b" +:+ nl |}).
Proof. by vm_compute. Qed.

Lemma chrooted_logger_routing_witness :
  let w1 := (mount_pseudo_fs Samples.all_well "/r" Samples.w0).2 in
  let w2 := (exec_chrooted Samples.all_well "/r" "ls" true (Logger "build") w1).2 in
  exists l,
    by_logger (Logger "build")
      (new_log Samples.w0
         (chrootedSystemCall Samples.all_well "/r" "ls" true true
            (Some (Logger "build")) Samples.w0).2)
    = LogRecord (Logger "build") DEBUG "Execute chrooted command ..."
      :: LogRecord (Logger "build") DEBUG (call_banner (chroot_command "/r" "ls") true)
      :: l
    /\ new_log w1 w2
       = LogRecord (Logger "build") DEBUG "Execute chrooted command ..."
         :: LogRecord (Logger "build") DEBUG
              (call_banner (chroot_command "/r" "ls") true)
         :: l.
Proof.
  intros w1 w2.
  apply (chrooted_logger_routing Samples.all_well "/r" "ls" true (Logger "build")
           Samples.w0 w1
           (exec_chrooted Samples.all_well "/r" "ls" true (Logger "build") w1).1 w2);
    [done | by vm_compute | apply surjective_pairing].
Defined.

Lemma importFromPath_object_witness :
  PyImport.importFromPath nat MoreSamples.importer MoreSamples.plain_repr
    ("steps.build" +:+ "." +:+ "Compile") ["conduct."] []
  = (match PyImport.mod_attrs MoreSamples.build_module !! "Compile" with
     | Some v => inr (PyImport.TheObject v)
     | None =>
         inl (PyImport.ImportError
                ("Could not import " +:+ PyImport.mod_name MoreSamples.build_module
                 +:+ "." +:+ "Compile"
                 +:+ ": 'module' object has no attribute '" +:+ "Compile" +:+ "'"))
     end,
     [] ++ map (fun x => (x, ["Compile"])) (["steps.build"] ++ ["conduct.steps.build"])).
Proof.
  apply (PyImportFacts.importFromPath_object MoreSamples.importer
           MoreSamples.plain_repr "steps.build" "Compile" ["conduct."]
           ["steps.build"] "conduct.steps.build" [] [] MoreSamples.build_module);
    [reflexivity | done | reflexivity | | reflexivity].
  intros tried x Hx. apply list_elem_of_singleton in Hx as ->.
  eexists. reflexivity.
Defined.

Lemma importFromPath_module_witness :
  PyImport.importFromPath nat MoreSamples.importer MoreSamples.plain_repr
    "conduct.steps.build." [] []
  = (inr (PyImport.TheModule MoreSamples.build_module),
     [] ++ map (fun x => (x, [])) ([] ++ ["conduct.steps.build"])).
Proof.
  apply (PyImportFacts.importFromPath_module MoreSamples.importer
           MoreSamples.plain_repr "conduct.steps.build." "conduct.steps.build" []
           [] "conduct.steps.build" [] [] MoreSamples.build_module);
    [by right | reflexivity | | reflexivity].
  intros tried x Hx. by apply elem_of_nil in Hx.
Defined.

Lemma importFromPath_all_fail_witness :
  PyImport.importFromPath nat MoreSamples.no_importer MoreSamples.plain_repr
    ("steps.build" +:+ "." +:+ "Compile") ["conduct."] []
  = (inl (PyImport.ImportError
            ("Could not import "
             +:+ MoreSamples.plain_repr ("steps.build" +:+ "." +:+ "Compile") +:+ ": "
             +:+ PyImport.join_with ", "
                   (map (fun x => "[" +:+ x +:+ "] " +:+ ("No module named " +:+ x))
                        (PyImport.candidates "steps.build" ["conduct."])))),
     [] ++ map (fun x => (x, ["Compile"]))
               (PyImport.candidates "steps.build" ["conduct."])).
Proof.
  apply (PyImportFacts.importFromPath_all_fail MoreSamples.no_importer
           MoreSamples.plain_repr "steps.build" "Compile" ["conduct."]
           (fun x => "No module named " +:+ x) []);
    [reflexivity | done | reflexivity].
Defined.

Example importFromPath_all_fail_message :
  (PyImport.importFromPath nat MoreSamples.no_importer MoreSamples.plain_repr
     "steps.build.Compile" ["conduct."] []).1
  = inl (PyImport.ImportError
           "Could not import 'steps.build.Compile': [steps.build] No module named steps.build, [conduct.steps.build] No module named conduct.steps.build").
Proof. by vm_compute. Qed.

Lemma importFromPath_propagates_witness :
  PyImport.importFromPath nat MoreSamples.broken_importer MoreSamples.plain_repr
    ("steps.build" +:+ "." +:+ "Compile") ["conduct."] []
  = (inl (PyImport.Propagated "SyntaxError"),
     [] ++ map (fun x => (x, ["Compile"])) ([] ++ ["steps.build"])).
Proof.
  apply (PyImportFacts.importFromPath_propagates MoreSamples.broken_importer
           MoreSamples.plain_repr "steps.build" "Compile" ["conduct."]
           [] "steps.build" ["conduct.steps.build"] [] "SyntaxError");
    [reflexivity | done | reflexivity | | reflexivity].
  intros tried x Hx. by apply elem_of_nil in Hx.
Defined.

Lemma loadChainDefinition_cache_witness :
  let call := Chains.loadChainDefinition MoreSamples.exec_chain "build:image"
                MoreSamples.fresh in
  match call.1 with
  | inr chainDef => ChainsFacts.cached "build:image" call.2 = Some chainDef
  | inl _ => ChainsFacts.cached "build:image" MoreSamples.fresh = None
  end.
Proof.
  apply (ChainsFacts.loadChainDefinition_cache MoreSamples.exec_chain "build:image"
           MoreSamples.fresh).
  apply surjective_pairing.
Defined.

Example loadChainDefinition_fresh :
  (Chains.loadChainDefinition MoreSamples.exec_chain "build:image"
     MoreSamples.fresh).1
  = inr (<["steps" := Chains.EmptySteps]>
           (<["parameters" := Chains.PyObject 10]>
              (<["description" := Chains.PyString "Build an image"]> ∅))).
Proof. by vm_compute. Qed.

Lemma loadChainDefinition_twice_witness :
  let call := Chains.loadChainDefinition MoreSamples.exec_chain "build:image"
                MoreSamples.fresh in
  Chains.loadChainDefinition MoreSamples.exec_chain "build:image" call.2
  = (inr (<["steps" := Chains.EmptySteps]>
            (<["parameters" := Chains.PyObject 10]>
               (<["description" := Chains.PyString "Build an image"]> ∅))),
     call.2).
Proof.
  intros call.
  apply (ChainsFacts.loadChainDefinition_twice MoreSamples.exec_chain "build:image"
           MoreSamples.fresh _ call.2 call.2); [by vm_compute | reflexivity].
Defined.

Lemma loadChainDefinition_missing_file_witness :
  (Chains.loadChainDefinition MoreSamples.exec_chain "build:kernel"
     MoreSamples.fresh).1
  = inl (Chains.IOError
           ("Chain file for '" +:+ "build:kernel" +:+ "' not found (Should be: "
            +:+ Chains.chain_file "/etc/conduct/chains" "build:kernel" +:+ ")"))
  /\ Chains.executed
       (Chains.loadChainDefinition MoreSamples.exec_chain "build:kernel"
          MoreSamples.fresh).2
     = Chains.executed MoreSamples.fresh.
Proof.
  apply (ChainsFacts.loadChainDefinition_missing_file MoreSamples.exec_chain
           "build:kernel" MoreSamples.fresh "/etc/conduct/chains");
    [by vm_compute | reflexivity | by vm_compute].
Defined.

Lemma loadChainDefinition_loaded_witness :
  let call := Chains.loadChainDefinition MoreSamples.exec_chain "build:image"
                MoreSamples.fresh in
  dom (<["steps" := Chains.EmptySteps]>
         (<["parameters" := Chains.PyObject 10]>
            (<["description" := Chains.PyString "Build an image"]>
               (∅ : Chains.namespace))))
  = ({[ "description"; "parameters"; "steps" ]} : gset string)
  /\ Chains.executed call.2
     = Chains.executed MoreSamples.fresh
       ++ [Chains.chain_file "/etc/conduct/chains" "build:image"]
  /\ path.exists_ (Chains.chain_file "/etc/conduct/chains" "build:image")
       (Chains.tree MoreSamples.fresh) = true.
Proof.
  intros call.
  apply (ChainsFacts.loadChainDefinition_loaded MoreSamples.exec_chain "build:image"
           MoreSamples.fresh "/etc/conduct/chains" _ call.2);
    [by vm_compute | reflexivity | by vm_compute].
Defined.

Lemma loadChainConfig_no_builtins_witness :
  (<["description" := Chains.PyString "Build an image"]>
     (<["parameters" := Chains.PyObject 10]>
        (<["__file__" := Chains.PyString "/etc/conduct/chains.d/build/image.py"]>
           (∅ : Chains.namespace)))) !! "__builtins__" = None.
Proof.
  apply (ChainsFacts.loadChainConfig_no_builtins MoreSamples.exec_chain
           "build:image" MoreSamples.fresh _
           (Chains.with_executed "/etc/conduct/chains.d/build/image.py"
              MoreSamples.fresh)).
  by vm_compute.
Defined.
